(** * kubeflow/training-operator/resnet50/util.py

    A shallow embedding of the training utilities of the ResNet-50 example:
    [train_mixed_precision], [train_epoch], [test], [accuracy] and
    [load_data].  The procedures are sequences of calls into the tensor
    framework; each call is modelled by its effect on an explicit [World]
    and by an entry in a chronological call trace, and Python exceptions
    are results of an error monad whose state survives the exception. *)

From Stdlib Require Import String ZArith QArith Bool Lia List Permutation Sorted.
Import ListNotations.

Set Implicit Arguments.

Local Open Scope Z_scope.

(** ** Floating-point values

    Losses, timings and accuracies are Python floats or 0-dimensional
    tensors.  Their arithmetic is kept abstract: the development assumes no
    algebraic law about it, so every statement below holds for whatever
    rounding the framework applies.

    Two choices of the tensor library are kept abstract with it.
    [torch.topk] does not say in which order it returns entries of equal
    value, nor which of them it keeps when they straddle the [k]-th place:
    for the call [output.topk(k, 1, True, True)],
    [s_tie_before k output r i j] tells whether, in row [r] of [output],
    class [i] is listed before class [j] when their scores are equal.
    And a tensor without rows still has a class dimension, which its list
    of rows cannot show: [s_empty_classes] is that dimension. *)

Class ScalarOps (F : Type) : Type := {
  s_of_Z : Z -> F;
  s_add : F -> F -> F;
  s_sub : F -> F -> F;
  s_mul : F -> F -> F;
  s_div : F -> F -> F;
  s_leb : F -> F -> bool;
  s_is_zero : F -> bool;
  s_tie_before : Z -> list (list F) -> nat -> nat -> nat -> bool;
  s_empty_classes : nat
}.

(** The rationals give an executable instance (exact arithmetic), here
    for a library that lists equal scores by the order [tie] and a model
    of [classes] classes. *)
Definition QScalarOps (tie : nat -> nat -> bool) (classes : nat) : ScalarOps Q := {|
  s_of_Z := inject_Z;
  s_add := Qplus;
  s_sub := Qminus;
  s_mul := Qmult;
  s_div := Qdiv;
  s_leb := Qle_bool;
  s_is_zero := fun q => Qeq_bool q 0;
  s_tie_before := fun _ _ _ => tie;
  s_empty_classes := classes
|}.

(** Equal scores by ascending class index, six classes. *)
#[export] Instance QScalar : ScalarOps Q := QScalarOps Nat.ltb 6.

(** Equal scores by descending class index. *)
Definition QScalarDescendingTies : ScalarOps Q := QScalarOps (fun i j => Nat.ltb j i) 6.

(** ** Exceptions *)

Inductive Exn : Type :=
| ZeroDivisionError
| ValueError
| RuntimeError
| IndexError
| FileNotFoundError.

Inductive result (A : Type) : Type :=
| Ok (a : A)
| Raise (e : Exn).
Arguments Ok {A} a.
Arguments Raise {A} e.

Definition rbind {A B} (r : result A) (k : A -> result B) : result B :=
  match r with
  | Ok a => k a
  | Raise e => Raise e
  end.

Declare Scope result_scope.
Delimit Scope result_scope with result.
Notation "'let?' x ':=' r 'in' k" := (rbind r (fun x => k))
  (at level 10, x name, r at level 100, k at level 200) : result_scope.

Fixpoint rmap {A B} (f : A -> result B) (l : list A) : result (list B) :=
  match l with
  | [] => Ok []
  | x :: l' =>
      (let? y := f x in
       let? ys := rmap f l' in
       Ok (y :: ys))%result
  end.

(** ** Tensor primitives used by [accuracy] *)

Section Tensors.
Context {F : Type} {SO : ScalarOps F}.

(** A target tensor: class indices (one dimension) or per-class scores
    such as one-hot or soft labels (two dimensions). *)
Inductive Target : Type :=
| Target1 (labels : list nat)
| Target2 (scores : list (list F)).

(** [target.size(0)] *)
Definition target_size0 (t : Target) : nat :=
  match t with
  | Target1 l => length l
  | Target2 m => length m
  end.

(** [target.ndim] *)
Definition target_ndim (t : Target) : nat :=
  match t with
  | Target1 _ => 1
  | Target2 _ => 2
  end.

(** Index of the first maximal entry of a row, scanning left to right. *)
Fixpoint argmax_from (best_i : nat) (best : F) (i : nat) (l : list F) : nat :=
  match l with
  | [] => best_i
  | x :: l' =>
      if s_leb x best then argmax_from best_i best (S i) l'
      else argmax_from i x (S i) l'
  end.

(** One row of [t.max(dim=1)[1]]; reducing a dimension of size zero
    raises [IndexError]. *)
Definition argmax (row : list F) : result nat :=
  match row with
  | [] => Raise IndexError
  | x :: l => Ok (argmax_from 0%nat x 1%nat l)
  end.

(** [target.max(dim=1)[1]].  A target without rows is taken to have a
    class dimension of non-zero size. *)
Definition max_dim1_indices (m : list (list F)) : result (list nat) :=
  rmap argmax m.

(** The entries of a list with their positions: the classes of a row
    with their scores, the examples of a batch with their rows. *)
Definition indexed {A} (l : list A) : list (nat * A) :=
  combine (seq 0 (length l)) l.

(** Insertion of class [i] with score [x] into a list of (class, score)
    pairs kept in descending score order.  A class of strictly higher
    score goes first; among classes of equal score the order [tie]
    decides. *)
Fixpoint insert_desc (tie : nat -> nat -> bool) (i : nat) (x : F)
    (l : list (nat * F)) : list (nat * F) :=
  match l with
  | [] => [(i, x)]
  | (j, y) :: l' =>
      if s_leb y x && (negb (s_leb x y) || tie i j) then (i, x) :: (j, y) :: l'
      else (j, y) :: insert_desc tie i x l'
  end.

(** The classes of a row with their scores, by descending score, equal
    scores in the order [tie]. *)
Definition sorted_desc (tie : nat -> nat -> bool) (row : list F) : list (nat * F) :=
  fold_right (fun p acc => insert_desc tie (fst p) (snd p) acc) [] (indexed row).

(** The classes of a row by descending score. *)
Definition argsort_desc (tie : nat -> nat -> bool) (row : list F) : list nat :=
  map fst (sorted_desc tie row).

(** One row of [output.topk(k, 1, True, True)[1]]: the indices of [k]
    largest entries, largest first.  [k] out of range raises. *)
Definition topk_row (tie : nat -> nat -> bool) (k : Z) (row : list F)
  : result (list nat) :=
  if (k <? 0) || (Z.of_nat (length row) <? k) then Raise RuntimeError
  else Ok (firstn (Z.to_nat k) (argsort_desc tie row)).

(** [output.topk(k, 1, True, True)[1]], of shape batch x k: every row is
    ranked, its equal scores in the order the library chooses for this
    call and this row.  The range of [k] is checked against the class
    dimension also when the batch has no example. *)
Definition topk_indices (k : Z) (output : list (list F)) : result (list (list nat)) :=
  match output with
  | [] =>
      if (k <? 0) || (Z.of_nat s_empty_classes <? k) then Raise RuntimeError
      else Ok []
  | _ =>
      rmap (fun p => topk_row (s_tie_before k output (fst p)) k (snd p))
        (indexed output)
  end.

(** [m.t()] for a matrix with [ncols] columns given by its rows. *)
Fixpoint transpose {A} (ncols : nat) (m : list (list A)) : list (list A) :=
  match m with
  | [] => repeat [] ncols
  | r :: m' =>
      map (fun p => fst p :: snd p) (combine r (transpose ncols m'))
  end.

(** One row of [pred.eq(target[None])] under the broadcasting rules:
    the row (one entry per column of [pred]) against the labels. *)
Definition eq_row (row labels : list nat) : list bool :=
  if (length row =? length labels)%nat then
    map (fun p => Nat.eqb (fst p) (snd p)) (combine row labels)
  else
    match labels, row with
    | [l], _ => map (fun p => Nat.eqb p l) row
    | _, [p] => map (fun l => Nat.eqb p l) labels
    | _, _ => []
    end.

(** [pred.eq(target[None])]; [cols] is the second dimension of [pred].
    Shapes that cannot be broadcast raise. *)
Definition eq_broadcast (cols : nat) (pred : list (list nat)) (labels : list nat)
  : result (list (list bool)) :=
  if (cols =? length labels)%nat || (length labels =? 1)%nat || (cols =? 1)%nat
  then Ok (map (fun row => eq_row row labels) pred)
  else Raise RuntimeError.

(** The Python slice [l[:k]]. *)
Definition slice_to {A} (k : Z) (l : list A) : list A :=
  if k <? 0 then firstn (length l - Z.to_nat (- k)) l
  else firstn (Z.to_nat k) l.

(** [m.flatten().sum(dtype=torch.float32)] of a boolean matrix. *)
Definition count_true (m : list (list bool)) : nat :=
  length (filter (fun b => b) (concat m)).

(** [max(topk)]; the empty sequence raises. *)
Definition py_max (l : list Z) : result Z :=
  match l with
  | [] => Raise ValueError
  | x :: l' => Ok (fold_left Z.max l' x)
  end.

(** ** [accuracy]

    A pure function of its arguments: its own inference-mode block changes
    nothing outside it and leaves no entry in the trace. *)
Definition accuracy (output : list (list F)) (target : Target) (topk : list Z)
  : result (list F) :=
  (let? maxk := py_max topk in
   let batch_size := target_size0 target in
   let? target :=
     match target with
     | Target2 m => max_dim1_indices m
     | Target1 l => Ok l
     end in
   let? pred := topk_indices maxk output in
   let pred := transpose (Z.to_nat maxk) pred in
   let? correct := eq_broadcast (length output) pred target in
   rmap (fun k =>
           let correct_k := s_of_Z (Z.of_nat (count_true (slice_to k correct))) in
           if (batch_size =? 0)%nat then Raise ZeroDivisionError
           else Ok (s_mul correct_k
                      (s_div (s_of_Z 100) (s_of_Z (Z.of_nat batch_size)))))
        topk)%result.

(** The default [topk=(1, 5)]. *)
Definition default_topk : list Z := [1; 5].

End Tensors.

(** ** The framework

    Everything the procedures delegate to: the model's forward pass, the
    loss, automatic differentiation, the optimizer, the gradient scaler,
    the all-reduce of the distributed optimizer, the clock, the random
    permutation generator and the directory scan of [ImageFolder]. *)

Inductive Mode : Type := Training | Evaluation.

Class Framework : Type := {
  Scalar : Type;
  scalar_ops :: ScalarOps Scalar;
  (** one example of a batch *)
  Image : Type;
  Params : Type;
  Grads : Type;
  OptState : Type;
  ScalerState : Type;
  (** [model(data)]: autocast flag, mode, parameters, batch *)
  fw_forward : bool -> Mode -> Params -> list Image -> list (list Scalar);
  (** [criterion(output, target)]: autocast flag, output, target *)
  fw_loss : bool -> list (list Scalar) -> @Target Scalar -> Scalar;
  (** [optimizer.zero_grad()] *)
  fw_zero_grad : Grads -> Grads;
  (** [loss.backward()]: the factor the loss was scaled by, if any *)
  fw_backward : option Scalar -> bool -> Params -> list Image -> @Target Scalar ->
                Grads -> Grads;
  (** [optimizer.synchronize()]: the result of the pending all-reduces *)
  fw_allreduce : Grads -> Grads;
  (** [scaler.get_scale()] *)
  fw_get_scale : ScalerState -> Scalar;
  (** [scaler.unscale_(optimizer)] *)
  fw_unscale : ScalerState -> Grads -> Grads;
  (** [scaler.step(optimizer)] *)
  fw_scaler_step : ScalerState -> OptState -> Params -> Grads -> OptState * Params;
  (** [optimizer.step()] *)
  fw_opt_step : OptState -> Params -> Grads -> OptState * Params;
  (** [scaler.update()] *)
  fw_scaler_update : ScalerState -> Grads -> ScalerState;
  (** the successive readings of [time.perf_counter()] *)
  fw_perf_counter : nat -> Scalar;
  (** [torch.randperm(n, generator=g)] with [g] seeded by the first argument *)
  fw_randperm : Z -> nat -> list nat;
  (** number of images [ImageFolder] finds under a root, if it finds any *)
  fw_folder_size : string -> option nat
}.

(** ** Data loading *)

Inductive InterpolationMode : Type :=
| NEAREST | NEAREST_EXACT | BILINEAR | BICUBIC | BOX | HAMMING | LANCZOS.

(** [InterpolationMode(value)]: lookup of an enumeration member by value. *)
Definition InterpolationMode_of (v : string) : result InterpolationMode :=
  if String.eqb v "nearest" then Ok NEAREST
  else if String.eqb v "nearest-exact" then Ok NEAREST_EXACT
  else if String.eqb v "bilinear" then Ok BILINEAR
  else if String.eqb v "bicubic" then Ok BICUBIC
  else if String.eqb v "box" then Ok BOX
  else if String.eqb v "hamming" then Ok HAMMING
  else if String.eqb v "lanczos" then Ok LANCZOS
  else Raise ValueError.

Inductive Dtype : Type := torch_float.

Inductive Transform : Type :=
| RandomResizedCrop (size : Z) (interpolation : InterpolationMode)
| Resize (size : Z) (interpolation : InterpolationMode)
| CenterCrop (size : Z)
| PILToTensor
| ConvertImageDtype (dtype : Dtype)
| Normalize (mean std : Q * Q * Q).

(** Transforms that draw random numbers, that is, that augment the data. *)
Definition is_random (t : Transform) : bool :=
  match t with
  | RandomResizedCrop _ _ => true
  | _ => false
  end.

(** The fields of [args] that [load_data] reads. *)
Record Namespace : Type := {
  interpolation : string;
  train_crop_size : Z;
  val_resize_size : Z;
  val_crop_size : Z
}.

Record ImageFolder : Type := {
  root : string;
  transform : list Transform;
  dataset_len : nat
}.

(** [torch.utils.data.distributed.DistributedSampler] as [load_data]
    constructs it: [shuffle=True], [seed=0], [drop_last=False]. *)
Record DistributedSampler : Type := {
  sampler_dataset_len : nat;
  num_replicas : nat;
  rank : nat;
  sampler_epoch : Z;
  sampler_seed : Z;
  num_samples : nat;
  total_size : nat
}.

(** [math.ceil(n / d)] for natural numbers. *)
Definition ceil_div (n d : nat) : nat := ((n + (d - 1)) / d)%nat.

(** [DistributedSampler(dataset, num_replicas=..., rank=...)] *)
Definition new_DistributedSampler (dataset : ImageFolder) (num_replicas rank : Z)
  : result DistributedSampler :=
  if (num_replicas <=? rank) || (rank <? 0) then Raise ValueError
  else
    let r := Z.to_nat num_replicas in
    let n := ceil_div (dataset_len dataset) r in
    Ok {| sampler_dataset_len := dataset_len dataset;
          num_replicas := r;
          rank := Z.to_nat rank;
          sampler_epoch := 0;
          sampler_seed := 0;
          num_samples := n;
          total_size := (n * r)%nat |}.

(** [len(sampler)] *)
Definition sampler_len (s : DistributedSampler) : Z := Z.of_nat (num_samples s).

(** [sampler.set_epoch(epoch)] *)
Definition sampler_set_epoch (e : Z) (s : DistributedSampler) : DistributedSampler :=
  {| sampler_dataset_len := sampler_dataset_len s;
     num_replicas := num_replicas s;
     rank := rank s;
     sampler_epoch := e;
     sampler_seed := sampler_seed s;
     num_samples := num_samples s;
     total_size := total_size s |}.

(** The Python slice [l[start::step]]. *)
Definition slice_step {A} (start step : nat) (l : list A) : list A :=
  map snd
    (filter (fun p => (start <=? fst p)%nat && ((fst p - start) mod step =? 0)%nat)
       (combine (seq 0 (length l)) l)).

(** The shuffled index list before it is split among the ranks: the
    permutation of the epoch, padded with repeated indices up to
    [total_size]. *)
Definition padded_indices `{Framework} (s : DistributedSampler) : list nat :=
  let indices := fw_randperm (sampler_seed s + sampler_epoch s) (sampler_dataset_len s) in
  let padding_size := (total_size s - length indices)%nat in
  if (padding_size <=? length indices)%nat then
    indices ++ firstn padding_size indices
  else
    indices ++
      firstn padding_size
        (concat (repeat indices (ceil_div padding_size (length indices)))).

(** [list(iter(sampler))]: the shard of the sampler's rank. *)
Definition sampler_indices `{Framework} (s : DistributedSampler) : list nat :=
  slice_step (rank s) (num_replicas s) (firstn (total_size s) (padded_indices s)).

(** Two shards share no dataset index. *)
Definition disjoint_shards (l1 l2 : list nat) : Prop :=
  forall x, In x l1 -> In x l2 -> False.

(** The ImageNet statistics. *)
Definition mean : Q * Q * Q := (0.485, 0.456, 0.406)%Q.
Definition std : Q * Q * Q := (0.229, 0.224, 0.225)%Q.

Definition train_transforms_of (args : Namespace) (interpolation : InterpolationMode)
  : list Transform :=
  [ RandomResizedCrop (train_crop_size args) interpolation;
    PILToTensor;
    ConvertImageDtype torch_float;
    Normalize mean std ].

Definition test_transforms_of (args : Namespace) (interpolation : InterpolationMode)
  : list Transform :=
  [ Resize (val_resize_size args) interpolation;
    CenterCrop (val_crop_size args);
    PILToTensor;
    ConvertImageDtype torch_float;
    Normalize mean std ].

(** [ImageFolder(root, transform)] *)
Definition new_ImageFolder `{Framework} (dir : string) (t : list Transform)
  : result ImageFolder :=
  match fw_folder_size dir with
  | Some n => Ok {| root := dir; transform := t; dataset_len := n |}
  | None => Raise FileNotFoundError
  end.

(** ** [load_data] *)
Definition load_data `{Framework} (train_dir test_dir : string) (args : Namespace)
    (world_size rank : Z)
  : result (ImageFolder * ImageFolder * DistributedSampler * DistributedSampler) :=
  (let? interpolation := InterpolationMode_of (interpolation args) in
   let train_transforms := train_transforms_of args interpolation in
   let? train_dataset := new_ImageFolder train_dir train_transforms in
   let test_transforms := test_transforms_of args interpolation in
   let? test_dataset := new_ImageFolder test_dir test_transforms in
   let? train_sampler := new_DistributedSampler train_dataset world_size rank in
   let? test_sampler := new_DistributedSampler test_dataset world_size rank in
   Ok (train_dataset, test_dataset, train_sampler, test_sampler))%result.

(** ** The world and the calls made on it *)

Section Procedures.
Context {FW : Framework}.

(** A value of a dashboard record. *)
Inductive Value : Type :=
| VInt (z : Z)
| VFloat (x : Scalar).

(** A loss tensor: its value and what [backward] needs to differentiate it. *)
Record LossTensor : Type := {
  loss_item : Scalar;
  loss_autocast : bool;
  loss_data : list Image;
  loss_target : @Target Scalar;
  loss_factor : option Scalar
}.

(** The calls that act on something outside the procedure's own variables,
    in the order they are made. *)
Inductive Call : Type :=
| model_train
| model_eval
| set_epoch (epoch : Z)
| perf_counter (reading : Scalar)
| data_cuda
| target_cuda
| zero_grad
| autocast_enter
| autocast_exit
| inference_mode_enter
| inference_mode_exit
| model_call
| criterion_call
| scaler_scale
| backward (scaled : bool)
| optimizer_synchronize
| scaler_unscale_
| skip_synchronize_enter
| skip_synchronize_exit
| scaler_step
| optimizer_step
| scaler_update
| scaler_get_scale
| cuda_synchronize
| wandb_log (run : string) (info : list (string * Value)) (step : option Z)
| print_train (epoch processed_samples sampler_length : Z)
    (completion_percentage loss : Scalar) (loss_scale : option Scalar)
| print_test (epoch : Z) (loss acc1 acc5 : Scalar).

(** The objects the procedures receive by reference, and the trace. *)
Record World : Type := {
  w_mode : Mode;
  w_params : Params;
  w_grads : Grads;
  w_opt : OptState;
  w_scaler : ScalerState;
  w_train_sampler : DistributedSampler;
  w_test_sampler : DistributedSampler;
  w_autocast : bool;
  w_inference : bool;
  w_clock : nat;
  w_trace : list Call
}.

(** State that survives an exception, and a result or an exception. *)
Definition M (A : Type) : Type := World -> result A * World.

Definition ret {A} (a : A) : M A := fun w => (Ok a, w).

Definition bind {A B} (m : M A) (k : A -> M B) : M B :=
  fun w =>
    match m w with
    | (Ok a, w') => k a w'
    | (Raise e, w') => (Raise e, w')
    end.

Definition raise {A} (e : Exn) : M A := fun w => (Raise e, w).

Definition modify (f : World -> World) : M unit := fun w => (Ok tt, f w).

Definition gets {A} (f : World -> A) : M A := fun w => (Ok (f w), w).

Definition lift {A} (r : result A) : M A := fun w => (r, w).

End Procedures.

Declare Scope proc_scope.
Delimit Scope proc_scope with proc.
Notation "x <- m ;; k" := (bind m (fun x => k))
  (at level 61, m at next level, right associativity) : proc_scope.
Notation "m ;; k" := (bind m (fun _ => k))
  (at level 61, right associativity) : proc_scope.

Section Primitives.
Context {FW : Framework}.
Local Open Scope proc_scope.

Definition log_call (c : Call) (w : World) : World :=
  {| w_mode := w_mode w; w_params := w_params w; w_grads := w_grads w;
     w_opt := w_opt w; w_scaler := w_scaler w;
     w_train_sampler := w_train_sampler w; w_test_sampler := w_test_sampler w;
     w_autocast := w_autocast w; w_inference := w_inference w;
     w_clock := w_clock w; w_trace := w_trace w ++ [c] |}.

Definition set_mode (m : Mode) (w : World) : World :=
  {| w_mode := m; w_params := w_params w; w_grads := w_grads w;
     w_opt := w_opt w; w_scaler := w_scaler w;
     w_train_sampler := w_train_sampler w; w_test_sampler := w_test_sampler w;
     w_autocast := w_autocast w; w_inference := w_inference w;
     w_clock := w_clock w; w_trace := w_trace w |}.

Definition set_grads (g : Grads) (w : World) : World :=
  {| w_mode := w_mode w; w_params := w_params w; w_grads := g;
     w_opt := w_opt w; w_scaler := w_scaler w;
     w_train_sampler := w_train_sampler w; w_test_sampler := w_test_sampler w;
     w_autocast := w_autocast w; w_inference := w_inference w;
     w_clock := w_clock w; w_trace := w_trace w |}.

Definition set_opt_params (op : OptState * Params) (w : World) : World :=
  {| w_mode := w_mode w; w_params := snd op; w_grads := w_grads w;
     w_opt := fst op; w_scaler := w_scaler w;
     w_train_sampler := w_train_sampler w; w_test_sampler := w_test_sampler w;
     w_autocast := w_autocast w; w_inference := w_inference w;
     w_clock := w_clock w; w_trace := w_trace w |}.

Definition set_scaler (s : ScalerState) (w : World) : World :=
  {| w_mode := w_mode w; w_params := w_params w; w_grads := w_grads w;
     w_opt := w_opt w; w_scaler := s;
     w_train_sampler := w_train_sampler w; w_test_sampler := w_test_sampler w;
     w_autocast := w_autocast w; w_inference := w_inference w;
     w_clock := w_clock w; w_trace := w_trace w |}.

Definition set_train_sampler (s : DistributedSampler) (w : World) : World :=
  {| w_mode := w_mode w; w_params := w_params w; w_grads := w_grads w;
     w_opt := w_opt w; w_scaler := w_scaler w;
     w_train_sampler := s; w_test_sampler := w_test_sampler w;
     w_autocast := w_autocast w; w_inference := w_inference w;
     w_clock := w_clock w; w_trace := w_trace w |}.

Definition set_autocast (b : bool) (w : World) : World :=
  {| w_mode := w_mode w; w_params := w_params w; w_grads := w_grads w;
     w_opt := w_opt w; w_scaler := w_scaler w;
     w_train_sampler := w_train_sampler w; w_test_sampler := w_test_sampler w;
     w_autocast := b; w_inference := w_inference w;
     w_clock := w_clock w; w_trace := w_trace w |}.

Definition set_inference (b : bool) (w : World) : World :=
  {| w_mode := w_mode w; w_params := w_params w; w_grads := w_grads w;
     w_opt := w_opt w; w_scaler := w_scaler w;
     w_train_sampler := w_train_sampler w; w_test_sampler := w_test_sampler w;
     w_autocast := w_autocast w; w_inference := b;
     w_clock := w_clock w; w_trace := w_trace w |}.

Definition tick (w : World) : World :=
  {| w_mode := w_mode w; w_params := w_params w; w_grads := w_grads w;
     w_opt := w_opt w; w_scaler := w_scaler w;
     w_train_sampler := w_train_sampler w; w_test_sampler := w_test_sampler w;
     w_autocast := w_autocast w; w_inference := w_inference w;
     w_clock := S (w_clock w); w_trace := w_trace w |}.

Definition call (c : Call) : M unit := modify (log_call c).

(** [with ctx: body]: the context is left even when the body raises. *)
Definition with_context {A} (enter leave : M unit) (body : M A) : M A :=
  fun w =>
    match enter w with
    | (Ok _, w1) =>
        let (r, w2) := body w1 in
        match leave w2 with
        | (Ok _, w3) => (r, w3)
        | (Raise e, w3) => (Raise e, w3)
        end
    | (Raise e, w1) => (Raise e, w1)
    end.

(** [for batch_idx, x in enumerate(l)], counting from [i]. *)
Fixpoint for_enumerate {A} (body : Z -> A -> M unit) (i : Z) (l : list A) : M unit :=
  match l with
  | [] => ret tt
  | x :: l' => body i x ;; for_enumerate body (i + 1) l'
  end.

(** [for x in l] updating local variables [acc]. *)
Fixpoint for_each {A St} (body : St -> A -> M St) (acc : St) (l : list A) : M St :=
  match l with
  | [] => ret acc
  | x :: l' => acc' <- body acc x ;; for_each body acc' l'
  end.

(** [a / n], true division by an [int]. *)
Definition truediv_int (a : Scalar) (n : Z) : M Scalar :=
  if n =? 0 then raise ZeroDivisionError else ret (s_div a (s_of_Z n)).

(** [a / b], true division by a [float]. *)
Definition truediv_float (a b : Scalar) : M Scalar :=
  if s_is_zero b then raise ZeroDivisionError else ret (s_div a b).

(** [a % b] on [int]s: the sign follows the divisor. *)
Definition py_mod (a b : Z) : M Z :=
  if b =? 0 then raise ZeroDivisionError else ret (a mod b).

Definition model_train_ : M unit :=
  call model_train ;; modify (set_mode Training).

Definition model_eval_ : M unit :=
  call model_eval ;; modify (set_mode Evaluation).

Definition train_sampler_set_epoch (epoch : Z) : M unit :=
  call (set_epoch epoch) ;;
  s <- gets w_train_sampler ;;
  modify (set_train_sampler (sampler_set_epoch epoch s)).

Definition time_perf_counter : M Scalar :=
  n <- gets w_clock ;;
  modify tick ;;
  call (perf_counter (fw_perf_counter n)) ;;
  ret (fw_perf_counter n).

(** [data, target = data.cuda(), target.cuda()] *)
Definition to_cuda (data : list Image) (target : @Target Scalar)
  : M (list Image * @Target Scalar) :=
  call data_cuda ;; call target_cuda ;; ret (data, target).

Definition optimizer_zero_grad : M unit :=
  call zero_grad ;;
  g <- gets w_grads ;;
  modify (set_grads (fw_zero_grad g)).

Definition autocast {A} (body : M A) : M A :=
  with_context (call autocast_enter ;; modify (set_autocast true))
               (call autocast_exit ;; modify (set_autocast false))
               body.

Definition inference_mode {A} (body : M A) : M A :=
  with_context (call inference_mode_enter ;; modify (set_inference true))
               (call inference_mode_exit ;; modify (set_inference false))
               body.

Definition skip_synchronize {A} (body : M A) : M A :=
  with_context (call skip_synchronize_enter) (call skip_synchronize_exit) body.

(** [model(data)] *)
Definition model_ (data : list Image) : M (list (list Scalar)) :=
  call model_call ;;
  ac <- gets w_autocast ;;
  m <- gets w_mode ;;
  p <- gets w_params ;;
  ret (fw_forward ac m p data).

(** [criterion(output, target)] *)
Definition criterion (data : list Image) (output : list (list Scalar))
    (target : @Target Scalar) : M LossTensor :=
  call criterion_call ;;
  ac <- gets w_autocast ;;
  ret {| loss_item := fw_loss ac output target;
         loss_autocast := ac;
         loss_data := data;
         loss_target := target;
         loss_factor := None |}.

(** [scaler.scale(loss)] *)
Definition scaler_scale_ (loss : LossTensor) : M LossTensor :=
  call scaler_scale ;;
  s <- gets w_scaler ;;
  ret {| loss_item := s_mul (loss_item loss) (fw_get_scale s);
         loss_autocast := loss_autocast loss;
         loss_data := loss_data loss;
         loss_target := loss_target loss;
         loss_factor := Some (fw_get_scale s) |}.

(** [loss.backward()] *)
Definition backward_ (loss : LossTensor) : M unit :=
  call (backward (match loss_factor loss with Some _ => true | None => false end)) ;;
  p <- gets w_params ;;
  g <- gets w_grads ;;
  modify (set_grads
            (fw_backward (loss_factor loss) (loss_autocast loss) p
               (loss_data loss) (loss_target loss) g)).

Definition optimizer_synchronize_ : M unit :=
  call optimizer_synchronize ;;
  g <- gets w_grads ;;
  modify (set_grads (fw_allreduce g)).

Definition scaler_unscale : M unit :=
  call scaler_unscale_ ;;
  s <- gets w_scaler ;;
  g <- gets w_grads ;;
  modify (set_grads (fw_unscale s g)).

Definition scaler_step_ : M unit :=
  call scaler_step ;;
  s <- gets w_scaler ;;
  o <- gets w_opt ;;
  p <- gets w_params ;;
  g <- gets w_grads ;;
  modify (set_opt_params (fw_scaler_step s o p g)).

Definition optimizer_step_ : M unit :=
  call optimizer_step ;;
  o <- gets w_opt ;;
  p <- gets w_params ;;
  g <- gets w_grads ;;
  modify (set_opt_params (fw_opt_step o p g)).

Definition scaler_update_ : M unit :=
  call scaler_update ;;
  s <- gets w_scaler ;;
  g <- gets w_grads ;;
  modify (set_scaler (fw_scaler_update s g)).

Definition scaler_get_scale_ : M Scalar :=
  call scaler_get_scale ;;
  s <- gets w_scaler ;;
  ret (fw_get_scale s).

End Primitives.

(** ** The training and evaluation procedures

    [model], [optimizer], [scaler] and the samplers are the objects of the
    [World]; the loader is the list of batches it yields in this epoch. *)

Section Training.
Context {FW : Framework}.
Local Open Scope proc_scope.

Definition Batch : Type := (list Image * @Target Scalar)%type.

(** [len(data)] *)
Definition len_data (data : list Image) : Z := Z.of_nat (length data).

(** [len(train_loader)] *)
Definition len_loader (loader : list Batch) : Z := Z.of_nat (length loader).

(** The [wandb_info] dictionary of the training procedures. *)
Definition train_info (loss : Scalar) (epoch global_step : Z) (data : list Image)
    (rate : Scalar) : list (string * Value) :=
  [ ("train/loss"%string, VFloat loss);
    ("train/epoch"%string, VInt epoch);
    ("train/step"%string, VInt global_step);
    ("train/samples_seen"%string, VInt (global_step * len_data data));
    ("perf/rank_samples_per_second"%string, VFloat rate) ].

(** The gradient computation and update of one batch of
    [train_mixed_precision] (lines 34 to 50). *)
Definition mixed_precision_step (use_cuda : bool) (batch : Batch)
  : M (Scalar * list Image * LossTensor) :=
  let (data, target) := batch in
  step_start <- time_perf_counter ;;
  dt <- (if use_cuda then to_cuda data target else ret (data, target)) ;;
  let (data, target) := dt in
  optimizer_zero_grad ;;
  loss <- autocast (output <- model_ data ;;
                    criterion data output target) ;;
  scaled <- scaler_scale_ loss ;;
  backward_ scaled ;;
  optimizer_synchronize_ ;;
  scaler_unscale ;;
  skip_synchronize scaler_step_ ;;
  scaler_update_ ;;
  ret (step_start, data, loss).

(** The body of the loop of [train_mixed_precision]. *)
Definition mixed_precision_batch (train_loader : list Batch) (epoch log_interval : Z)
    (use_cuda : bool) (wandb_run : option string) (batch_idx : Z) (batch : Batch)
  : M unit :=
  r <- mixed_precision_step use_cuda batch ;;
  let '(step_start, data, loss) := r in
  match wandb_run with
  | Some run =>
      now <- time_perf_counter ;;
      let step_time := s_sub now step_start in
      let global_step := (epoch - 1) * len_loader train_loader + batch_idx in
      rate <- truediv_float (s_of_Z (len_data data)) step_time ;;
      call (wandb_log run (train_info (loss_item loss) epoch global_step data rate)
              (Some global_step))
  | None => ret tt
  end ;;
  m <- py_mod batch_idx log_interval ;;
  if m =? 0 then
    let processed_samples := batch_idx * len_data data in
    completion_percentage <-
      truediv_int (s_mul (s_of_Z 100) (s_of_Z batch_idx)) (len_loader train_loader) ;;
    s <- gets w_train_sampler ;;
    scale <- scaler_get_scale_ ;;
    call (print_train epoch processed_samples (sampler_len s)
            completion_percentage (loss_item loss) (Some scale))
  else ret tt.

Definition train_mixed_precision (train_loader : list Batch) (epoch log_interval : Z)
    (use_cuda : bool) (wandb_run : option string) : M unit :=
  model_train_ ;;
  train_sampler_set_epoch epoch ;;
  for_enumerate
    (mixed_precision_batch train_loader epoch log_interval use_cuda wandb_run)
    0 train_loader.

(** The gradient computation and update of one batch of [train_epoch]
    (lines 83 to 90). *)
Definition full_precision_step (use_cuda : bool) (batch : Batch)
  : M (Scalar * list Image * LossTensor) :=
  let (data, target) := batch in
  step_start <- time_perf_counter ;;
  dt <- (if use_cuda then to_cuda data target else ret (data, target)) ;;
  let (data, target) := dt in
  optimizer_zero_grad ;;
  output <- model_ data ;;
  loss <- criterion data output target ;;
  backward_ loss ;;
  optimizer_step_ ;;
  ret (step_start, data, loss).

(** The body of the loop of [train_epoch]. *)
Definition train_epoch_batch (train_loader : list Batch) (epoch log_interval : Z)
    (use_cuda : bool) (wandb_run : option string) (batch_idx : Z) (batch : Batch)
  : M unit :=
  r <- full_precision_step use_cuda batch ;;
  let '(step_start, data, loss) := r in
  match wandb_run with
  | Some run =>
      call cuda_synchronize ;;
      now <- time_perf_counter ;;
      let step_time := s_sub now step_start in
      let global_step := (epoch - 1) * len_loader train_loader + batch_idx in
      rate <- truediv_float (s_of_Z (len_data data)) step_time ;;
      call (wandb_log run (train_info (loss_item loss) epoch global_step data rate)
              (Some global_step))
  | None => ret tt
  end ;;
  m <- py_mod batch_idx log_interval ;;
  if m =? 0 then
    let processed_samples := batch_idx * len_data data in
    completion_percentage <-
      truediv_int (s_mul (s_of_Z 100) (s_of_Z batch_idx)) (len_loader train_loader) ;;
    s <- gets w_train_sampler ;;
    call (print_train epoch processed_samples (sampler_len s)
            completion_percentage (loss_item loss) None)
  else ret tt.

Definition train_epoch (train_loader : list Batch) (epoch log_interval : Z)
    (use_cuda : bool) (wandb_run : option string) : M unit :=
  model_train_ ;;
  train_sampler_set_epoch epoch ;;
  for_enumerate
    (train_epoch_batch train_loader epoch log_interval use_cuda wandb_run)
    0 train_loader.

(** The [wandb_info] dictionary of [test]. *)
Definition test_info (test_loss : Scalar) (epoch : Z) (acc1 acc5 : Scalar)
  : list (string * Value) :=
  [ ("test/loss"%string, VFloat test_loss);
    ("test/epoch"%string, VInt epoch);
    ("test/acc1"%string, VFloat acc1);
    ("test/acc5"%string, VFloat acc5) ].

(** The body of the loop of [test]; [acc] is [(test_loss, acc1, acc5)]. *)
Definition test_batch (use_cuda : bool) (acc : Scalar * Scalar * Scalar)
    (batch : Batch) : M (Scalar * Scalar * Scalar) :=
  let '(test_loss, acc1, acc5) := acc in
  let (data, target) := batch in
  dt <- (if use_cuda then to_cuda data target else ret (data, target)) ;;
  let (data, target) := dt in
  output <- model_ data ;;
  loss <- criterion data output target ;;
  let test_loss := s_add test_loss (loss_item loss) in
  accs <- lift (accuracy output target default_topk) ;;
  match accs with
  | [batch_acc1; batch_acc5] =>
      ret (test_loss, s_add acc1 batch_acc1, s_add acc5 batch_acc5)
  | _ => raise ValueError
  end.

Definition test (test_loader : list Batch) (use_cuda : bool) (epoch : Z)
    (wandb_run : option string) : M unit :=
  model_eval_ ;;
  let test_loss := s_of_Z 0 in
  let acc1 := s_of_Z 0 in
  let acc5 := s_of_Z 0 in
  acc <- inference_mode (for_each (test_batch use_cuda) (test_loss, acc1, acc5)
                           test_loader) ;;
  let '(test_loss, acc1, acc5) := acc in
  s <- gets w_test_sampler ;;
  test_loss <- truediv_int test_loss (sampler_len s) ;;
  acc1 <- truediv_int acc1 (sampler_len s) ;;
  acc5 <- truediv_int acc5 (sampler_len s) ;;
  match wandb_run with
  | Some run => call (wandb_log run (test_info test_loss epoch acc1 acc5) None)
  | None => ret tt
  end ;;
  call (print_test epoch test_loss acc1 acc5).

End Training.

(** ** Vocabulary of the specification *)

Section Metrics.
Context {F : Type} {SO : ScalarOps F}.

(** The first [k] classes of a row ranked with equal scores in the order
    [tie]. *)
Definition top_classes (tie : nat -> nat -> bool) (k : Z) (row : list F) : list nat :=
  firstn (Z.to_nat k) (argsort_desc tie row).

(** The label is one of these [k] classes. *)
Definition label_in_top (tie : nat -> nat -> bool) (k : Z) (row : list F)
    (label : nat) : bool :=
  existsb (Nat.eqb label) (top_classes tie k row).

(** The classes [output.topk(maxk, 1, True, True)] returns, cut to
    their first [k], example by example. *)
Definition selected (maxk k : Z) (output : list (list F)) : list (list nat) :=
  map (fun p => top_classes (s_tie_before maxk output (fst p)) k (snd p))
    (indexed output).

(** Number of examples of the batch whose label is one of the first [k]
    classes that [output.topk(maxk, 1, True, True)] returns for them. *)
Definition hits (maxk k : Z) (output : list (list F)) (labels : list nat) : nat :=
  length
    (filter (fun p => label_in_top (s_tie_before maxk output (fst (fst p))) k
                        (snd (fst p)) (snd p))
       (combine (indexed output) labels)).

(** Number of classes of a row that score strictly higher than [x]. *)
Definition n_better (row : list F) (x : F) : nat :=
  length (filter (fun p => negb (s_leb (snd p) x)) (indexed row)).

(** Number of classes of a row, other than [label], that score at least
    as high as [x]. *)
Definition n_not_worse (row : list F) (label : nat) (x : F) : nat :=
  length (filter (fun p => negb (Nat.eqb (fst p) label) && s_leb x (snd p))
            (indexed row)).

(** The label is among the [k] highest-scored predictions however equal
    scores are ordered: fewer than [k] other classes score at least as
    high as it does. *)
Definition surely_in_top (k : Z) (row : list F) (label : nat) : bool :=
  match nth_error row label with
  | Some x => Z.of_nat (n_not_worse row label x) <? k
  | None => false
  end.

(** The label is among the [k] highest-scored predictions for some order
    of the equal scores: fewer than [k] classes score strictly higher. *)
Definition possibly_in_top (k : Z) (row : list F) (label : nat) : bool :=
  match nth_error row label with
  | Some x => Z.of_nat (n_better row x) <? k
  | None => false
  end.

(** Number of examples whose true label is among the [k] highest-scored
    predictions, however equal scores are ordered. *)
Definition surely_hits (k : Z) (output : list (list F)) (labels : list nat) : nat :=
  length (filter (fun p => surely_in_top k (fst p) (snd p)) (combine output labels)).

(** Number of examples whose true label is among the [k] highest-scored
    predictions for some order of the equal scores. *)
Definition possibly_hits (k : Z) (output : list (list F)) (labels : list nat) : nat :=
  length (filter (fun p => possibly_in_top k (fst p) (snd p)) (combine output labels)).

(** No other class of the row has the score of the label. *)
Definition untied (row : list F) (label : nat) : bool :=
  match nth_error row label with
  | Some x =>
      forallb (fun p => Nat.eqb (fst p) label
                        || negb (s_leb x (snd p) && s_leb (snd p) x))
        (indexed row)
  | None => true
  end.

(** [label] is the position of the first maximal entry of the row. *)
Definition first_max (row : list F) (label : nat) : bool :=
  match nth_error row label with
  | Some v =>
      forallb (fun x => s_leb x v) row
      && forallb (fun y => negb (s_leb v y)) (firstn label row)
  | None => false
  end.

(** The class indices a target stands for: its entries when it has one
    dimension, the position of the first maximal entry of each row when
    it has two. *)
Definition target_labels (target : @Target F) (labels : list nat) : Prop :=
  match target with
  | Target1 l => labels = l
  | Target2 m => Forall2 (fun row l => first_max row l = true) m labels
  end.

(** A two-dimensional target with a row of no entry. *)
Definition has_empty_row (target : @Target F) : bool :=
  match target with
  | Target1 _ => false
  | Target2 m => existsb (fun row => (length row =? 0)%nat) m
  end.

(** [count] out of [batch_size], as a fraction. *)
Definition fraction (count batch_size : nat) : F :=
  s_div (s_of_Z (Z.of_nat count)) (s_of_Z (Z.of_nat batch_size)).

(** [count] out of [batch_size], in percent. *)
Definition percentage (count batch_size : nat) : F :=
  s_mul (s_of_Z (Z.of_nat count))
    (s_div (s_of_Z 100) (s_of_Z (Z.of_nat batch_size))).

(** The order of a ranking: the class [q] that comes later does not score
    higher than the class [p] that comes earlier. *)
Definition by_descending_score (p q : nat * F) : Prop :=
  s_leb (snd q) (snd p) = true.

(** Number of entries of [p] equal to [l]. *)
Definition matches (p : list nat) (l : nat) : nat :=
  length (filter (fun i => Nat.eqb i l) p).

(** [+=] over a list of per-batch values, starting from the integer 0. *)
Definition accumulate (l : list F) : F := fold_left s_add l (s_of_Z 0).

End Metrics.

Section Traces.
Context {FW : Framework}.

(** [d.get(key)] on a dashboard record. *)
Fixpoint dict_get (key : string) (d : list (string * Value)) : option Value :=
  match d with
  | [] => None
  | (k, v) :: d' => if String.eqb k key then Some v else dict_get key d'
  end.

(** The values logged to the dashboard under [key], in order. *)
Definition logged (key : string) (tr : list Call) : list (option Value) :=
  flat_map (fun c => match c with
                     | wandb_log _ info _ => [dict_get key info]
                     | _ => []
                     end) tr.

(** The [step=] arguments of the dashboard records, in order. *)
Definition logged_steps (tr : list Call) : list (option Z) :=
  flat_map (fun c => match c with
                     | wandb_log _ _ step => [step]
                     | _ => []
                     end) tr.

(** The console lines of the training procedures, in order: the number of
    processed samples and the completion percentage they show. *)
Definition printed (tr : list Call) : list (Z * Scalar) :=
  flat_map (fun c => match c with
                     | print_train _ processed _ pct _ _ => [(processed, pct)]
                     | _ => []
                     end) tr.

(** Timing and logging calls, as opposed to the calls of the training step. *)
Definition is_logging (c : Call) : bool :=
  match c with
  | perf_counter _ | cuda_synchronize | wandb_log _ _ _
  | scaler_get_scale | print_train _ _ _ _ _ _ | print_test _ _ _ _ => true
  | _ => false
  end.

(** The calls of one batch of the mixed-precision training step, from the
    clock reading that starts the batch to the update of the scaler. *)
Definition mixed_step_calls (use_cuda : bool) (start : Scalar) : list Call :=
  perf_counter start ::
  (if use_cuda then [data_cuda; target_cuda] else []) ++
  [ zero_grad;
    autocast_enter; model_call; criterion_call; autocast_exit;
    scaler_scale; backward true;
    optimizer_synchronize;
    scaler_unscale_;
    skip_synchronize_enter; scaler_step; skip_synchronize_exit;
    scaler_update ].

(** The calls of one batch of the full-precision training step. *)
Definition full_step_calls (use_cuda : bool) (start : Scalar) : list Call :=
  perf_counter start ::
  (if use_cuda then [data_cuda; target_cuda] else []) ++
  [ zero_grad; model_call; criterion_call; backward false; optimizer_step ].







(** Position of the first call of a trace that satisfies [p]. *)
Fixpoint first_index (p : Call -> bool) (tr : list Call) : option nat :=
  match tr with
  | [] => None
  | c :: tr' => if p c then Some 0%nat else option_map S (first_index p tr')
  end.

Definition is_zero_grad (c : Call) : bool :=
  match c with zero_grad => true | _ => false end.

Definition is_data_cuda (c : Call) : bool :=
  match c with data_cuda => true | _ => false end.

(** The calls of [test] inside its inference-mode block. *)
Definition is_eval_call (c : Call) : bool :=
  match c with
  | data_cuda | target_cuda | model_call | criterion_call => true
  | _ => false
  end.

(** The dashboard and console calls of [test]. *)
Definition is_report_call (c : Call) : bool :=
  match c with
  | wandb_log _ _ _ | print_test _ _ _ _ => true
  | _ => false
  end.

(** [enumerate(l)] counting from [i]. *)
Fixpoint enumerate {A} (i : Z) (l : list A) : list (Z * A) :=
  match l with
  | [] => []
  | x :: l' => (i, x) :: enumerate (i + 1) l'
  end.

(** The values a batch shows in its calls: the two clock readings, the
    loss, the throughput, the loss scale and the sampler's length. *)
Record BatchObs : Type := {
  obs_start : Scalar;
  obs_end : Scalar;
  obs_loss : Scalar;
  obs_rate : Scalar;
  obs_scale : Scalar;
  obs_sampler_len : Z
}.

(** [global_step] of batch [i] of an epoch of [n] batches. *)
Definition global_step (epoch n i : Z) : Z := (epoch - 1) * n + i.

(** The dashboard calls of one batch; [mixed] tells the mixed-precision
    procedure from the full-precision one. *)
Definition dashboard_calls (mixed : bool) (wandb_run : option string)
    (epoch n i : Z) (data : list Image) (o : BatchObs) : list Call :=
  match wandb_run with
  | Some run =>
      (if mixed then [] else [cuda_synchronize]) ++
      [ perf_counter (obs_end o);
        wandb_log run
          (train_info (obs_loss o) epoch (global_step epoch n i) data (obs_rate o))
          (Some (global_step epoch n i)) ]
  | None => []
  end.

(** The console calls of one batch. *)
Definition console_calls (mixed : bool) (epoch log_interval n i : Z)
    (data : list Image) (o : BatchObs) : list Call :=
  if i mod log_interval =? 0 then
    (if mixed then [scaler_get_scale] else []) ++
    [ print_train epoch (i * len_data data) (obs_sampler_len o)
        (s_div (s_mul (s_of_Z 100) (s_of_Z i)) (s_of_Z n))
        (obs_loss o)
        (if mixed then Some (obs_scale o) else None) ]
  else [].

(** All the calls of one batch of a training procedure. *)
Definition batch_calls (mixed use_cuda : bool) (wandb_run : option string)
    (epoch log_interval n i : Z) (data : list Image) (o : BatchObs) : list Call :=
  (if mixed then mixed_step_calls use_cuda (obs_start o)
   else full_step_calls use_cuda (obs_start o))
  ++ dashboard_calls mixed wandb_run epoch n i data o
  ++ console_calls mixed epoch log_interval n i data o.

(** The calls of one batch of [test]. *)
Definition test_batch_calls (use_cuda : bool) : list Call :=
  (if use_cuda then [data_cuda; target_cuda] else []) ++ [model_call; criterion_call].

(** A computation that returns [a] and adds [calls] to the trace. *)
Definition emits {A} (m : M A) (w : World) (a : A) (calls : list Call) (w' : World)
  : Prop :=
  m w = (Ok a, w') /\ w_trace w' = w_trace w ++ calls.



(** Either training procedure. *)
Definition training_procedure (mixed : bool)
  : list Batch -> Z -> Z -> bool -> option string -> M unit :=
  if mixed then train_mixed_precision else train_epoch.

(** The output and loss [test] computes for a batch from world [w]. *)
Definition eval_output (w : World) (data : list Image) : list (list Scalar) :=
  fw_forward (w_autocast w) Evaluation (w_params w) data.

Definition eval_loss (w : World) (batch : Batch) : Scalar :=
  fw_loss (w_autocast w) (eval_output w (fst batch)) (snd batch).

(** The model's parameters, the gradients, the optimizer, the scaler, the
    samplers and the clock are the same in both worlds. *)
Definition same_training_state (w w' : World) : Prop :=
  w_params w' = w_params w
  /\ w_grads w' = w_grads w
  /\ w_opt w' = w_opt w
  /\ w_scaler w' = w_scaler w
  /\ w_train_sampler w' = w_train_sampler w
  /\ w_test_sampler w' = w_test_sampler w
  /\ w_clock w' = w_clock w.

(** A computation that returns a value satisfying [P], adds [calls] to the
    trace and reads the clock [ticks] times. *)
Definition returns {A} (m : M A) (w : World) (calls : list Call) (ticks : nat)
    (P : A -> Prop) : Prop :=
  exists a w', emits m w a calls w' /\ P a /\ w_clock w' = (ticks + w_clock w)%nat.

(** The clock never shows the same reading twice, so a step time is
    never zero. *)
Definition clock_advances : Prop :=
  forall i j : nat, (i < j)%nat ->
    s_is_zero (s_sub (fw_perf_counter j) (fw_perf_counter i)) = false.

(** What the per-batch dashboard record needs in order not to raise. *)
Definition timing_ok (wandb_run : option string) : Prop :=
  match wandb_run with
  | Some _ => clock_advances
  | None => True
  end.

End Traces.

(** ** Vocabulary for what the procedures leave alone *)

Section Frames.
Context {FW : Framework}.

(** What a training loop has no business changing once it has started: the
    model's mode and the two samplers. *)
Definition loop_view (w : World) : Mode * DistributedSampler * DistributedSampler :=
  (w_mode w, w_train_sampler w, w_test_sampler w).

(** A computation that, whether it returns or raises, ends in a world with
    the same [f]. *)
Definition preserves {X A} (f : World -> X) (m : M A) : Prop :=
  forall w, f (snd (m w)) = f w.

(** The one-hot encoding of a class index over [classes] classes. *)
Definition one_hot (classes label : nat) : list Scalar :=
  map (fun c => if Nat.eqb c label then s_of_Z 1 else s_of_Z 0) (seq 0 classes).

End Frames.

(** ** A small executable framework

    Used to run the procedures on concrete inputs: six classes, integer
    images, and a clock that advances by one at every reading. *)

Definition toy_scores (p x : Z) : list Q :=
  map (fun c => inject_Z ((x * (c + 1) + p) mod 7)) [0; 1; 2; 3; 4; 5].

#[export] Instance ToyFramework : Framework := {
  Scalar := Q;
  scalar_ops := QScalar;
  Image := Z;
  Params := Z;
  Grads := Z;
  OptState := nat;
  ScalerState := Q;
  fw_forward := fun _ _ p data => map (toy_scores p) data;
  fw_loss := fun _ output _ => (inject_Z (Z.of_nat (length output)) / 2)%Q;
  fw_zero_grad := fun _ => 0;
  fw_backward := fun _ _ _ data _ g => g + Z.of_nat (length data);
  fw_allreduce := fun g => g;
  fw_get_scale := fun s => s;
  fw_unscale := fun _ g => g;
  fw_scaler_step := fun _ o p g => (S o, p - g);
  fw_opt_step := fun o p g => (S o, p - g);
  fw_scaler_update := fun s _ => s;
  fw_perf_counter := fun n => inject_Z (Z.of_nat n);
  fw_randperm := fun _ n => seq 0 n;
  fw_folder_size := fun dir => Some (String.length dir)
}.

Definition toy_sampler (n : nat) : DistributedSampler :=
  {| sampler_dataset_len := n; num_replicas := 1; rank := 0;
     sampler_epoch := 0; sampler_seed := 0; num_samples := n; total_size := n |}.

Definition toy_world : World :=
  {| w_mode := Evaluation; w_params := 3; w_grads := 0; w_opt := 0%nat;
     w_scaler := 65536%Q;
     w_train_sampler := toy_sampler 5; w_test_sampler := toy_sampler 5;
     w_autocast := false; w_inference := false;
     w_clock := 0; w_trace := [] |}.

(** Two batches, of two and of three images. *)
Definition toy_loader : list Batch :=
  [ ([1; 2], Target1 [2; 3]%nat); ([4; 5; 6], Target1 [0; 1; 5]%nat) ].

Definition toy_args : Namespace :=
  {| interpolation := "bilinear"; train_crop_size := 176;
     val_resize_size := 232; val_crop_size := 224 |}.

(** The first batch of the small loader. *)
Definition toy_batch : Batch := ([1; 2], Target1 [2; 3]%nat).



(** * Properties *)

Unset Implicit Arguments.

(** ** The error monad of pure code *)

Lemma rmap_ok {A B} (f : A -> result B) (g : A -> B) (l : list A) :
  (forall x, In x l -> f x = Ok (g x)) -> rmap f l = Ok (map g l).
Proof.
  induction l as [|x l IH]; intros Hf; simpl.
  - reflexivity.
  - rewrite (Hf x (or_introl eq_refl)). simpl.
    rewrite IH by (intros y Hy; apply Hf; now right).
    reflexivity.
Qed.

Lemma rmap_length {A B} (f : A -> result B) (l : list A) (l' : list B) :
  rmap f l = Ok l' -> length l' = length l.
Proof.
  revert l'. induction l as [|x l IH]; intros l'; simpl.
  - intros [= <-]. reflexivity.
  - destruct (f x) as [y|e]; simpl; [|discriminate].
    destruct (rmap f l) as [ys|e]; simpl; [|discriminate].
    intros [= <-]. simpl. now rewrite (IH ys eq_refl).
Qed.

(** ** Lists *)

Lemma In_combine_seq {A} (l : list A) :
  forall (s p : nat) (x : A),
    In (p, x) (combine (seq s (length l)) l)
    <-> (s <= p)%nat /\ nth_error l (p - s) = Some x.
Proof.
  induction l as [|y l IH]; intros s p x; simpl.
  - split; [tauto | intros [_ H]; destruct (p - s)%nat; discriminate].
  - rewrite IH. split.
    + intros [[= <- <-]|[Hle Hnth]].
      * rewrite Nat.sub_diag. auto.
      * split; [lia|]. replace (p - s)%nat with (S (p - S s)) by lia. exact Hnth.
    + intros [Hle Hnth]. destruct (Nat.eq_dec s p) as [<-|Hne].
      * rewrite Nat.sub_diag in Hnth. injection Hnth as <-. now left.
      * right. split; [lia|].
        replace (p - s)%nat with (S (p - S s)) in Hnth by lia. exact Hnth.
Qed.

Lemma filter_none {A} (f : A -> bool) (l : list A) :
  (forall x, In x l -> f x = false) -> filter f l = [].
Proof.
  induction l as [|x l IH]; intros H; simpl; [reflexivity|].
  rewrite (H x (or_introl eq_refl)). apply IH. intros y Hy. apply H. now right.
Qed.

Lemma filter_all {A} (f : A -> bool) (l : list A) :
  (forall x, In x l -> f x = true) -> filter f l = l.
Proof.
  induction l as [|x l IH]; intros H; simpl; [reflexivity|].
  rewrite (H x (or_introl eq_refl)). f_equal. apply IH. intros y Hy. apply H. now right.
Qed.

Lemma filter_length_bound {A} (f : A -> bool) (l : list A) :
  (length (filter f l) <= length l)%nat.
Proof.
  induction l as [|x l IH]; simpl; [lia|]. destruct (f x); simpl; lia.
Qed.

(** An entry that fails the test makes the filtered list shorter. *)
Lemma filter_one_out {A} (f : A -> bool) (l : list A) (x : A) :
  In x l -> f x = false -> (length (filter f l) < length l)%nat.
Proof.
  induction l as [|y l IH]; intros Hin Hx; [destruct Hin|]. simpl.
  destruct Hin as [->|Hin].
  - rewrite Hx. pose proof (filter_length_bound f l). lia.
  - specialize (IH Hin Hx). destruct (f y); simpl; lia.
Qed.

Lemma filter_length_between {A} (f g : A -> bool) (l : list A) :
  (forall x, In x l -> f x = true -> g x = true) ->
  (length (filter f l) <= length (filter g l))%nat.
Proof.
  induction l as [|x l IH]; intros Himp; simpl; [lia|].
  assert (IH' : (length (filter f l) <= length (filter g l))%nat)
    by (apply IH; intros y Hy; apply Himp; now right).
  destruct (f x) eqn:Ef.
  - rewrite (Himp x (or_introl eq_refl) Ef). simpl. lia.
  - destruct (g x); simpl; lia.
Qed.

Lemma Permutation_filter_length {A} (f : A -> bool) (l l' : list A) :
  Permutation l l' -> length (filter f l) = length (filter f l').
Proof.
  induction 1 as [|x l l' _ IH|x y l|l l' l'' _ IH1 _ IH2]; simpl.
  - reflexivity.
  - destruct (f x); simpl; congruence.
  - destruct (f x), (f y); reflexivity.
  - congruence.
Qed.

Lemma Forall2_combine {A B} (R : A -> B -> Prop) (l : list A) (l' : list B) :
  Forall2 R l l' -> forall p, In p (combine l l') -> R (fst p) (snd p).
Proof.
  induction 1 as [|x y l l' Hxy _ IH]; intros p Hp; [destruct Hp|].
  destruct Hp as [<-|Hp]; [exact Hxy | now apply IH].
Qed.

(** Filtering a list through a test that does not look at positions, and
    the list with its positions through a test that may. *)
Lemma filter_into_indexed {A B} (f : A * B -> bool) (g : nat * A * B -> bool)
    (l : list A) :
  (forall i a b, In a l -> f (a, b) = true -> g (i, a, b) = true) ->
  forall (s : nat) (l' : list B),
    (length (filter f (combine l l'))
     <= length (filter g (combine (combine (seq s (length l)) l) l')))%nat.
Proof.
  induction l as [|a l IH]; intros Himp s [|b l']; simpl; try lia.
  assert (IH' : (length (filter f (combine l l'))
                 <= length (filter g (combine (combine (seq (S s) (length l)) l) l')))%nat)
    by (apply IH; intros i a' b' Ha; apply Himp; now right).
  destruct (f (a, b)) eqn:Ef.
  - rewrite (Himp s a b (or_introl eq_refl) Ef). simpl. lia.
  - destruct (g (s, a, b)); simpl; lia.
Qed.

Lemma filter_from_indexed {A B} (f : A * B -> bool) (g : nat * A * B -> bool)
    (l : list A) :
  (forall i a b, In a l -> g (i, a, b) = true -> f (a, b) = true) ->
  forall (s : nat) (l' : list B),
    (length (filter g (combine (combine (seq s (length l)) l) l'))
     <= length (filter f (combine l l')))%nat.
Proof.
  induction l as [|a l IH]; intros Himp s [|b l']; simpl; try lia.
  assert (IH' : (length (filter g (combine (combine (seq (S s) (length l)) l) l'))
                 <= length (filter f (combine l l')))%nat)
    by (apply IH; intros i a' b' Ha; apply Himp; now right).
  destruct (g (s, a, b)) eqn:Eg.
  - rewrite (Himp s a b (or_introl eq_refl) Eg). simpl. lia.
  - destruct (f (a, b)); simpl; lia.
Qed.

Lemma nth_error_firstn_In {A} (l : list A) (y : A) :
  forall j n, (j < n)%nat -> nth_error l j = Some y -> In y (firstn n l).
Proof.
  induction l as [|x l IH]; intros [|j] [|n] Hj Hy; simpl in *;
    try discriminate; try lia.
  - injection Hy as ->. now left.
  - right. apply (IH j n); [lia | exact Hy].
Qed.

(** ** [accuracy] *)

Section AccuracyFacts.
Context {F : Type} {SO : ScalarOps F}.

Lemma insert_desc_perm (tie : nat -> nat -> bool) (i : nat) (x : F)
    (l : list (nat * F)) :
  Permutation (insert_desc tie i x l) ((i, x) :: l).
Proof.
  induction l as [|[j y] l IH]; simpl.
  - apply Permutation_refl.
  - destruct (s_leb y x && (negb (s_leb x y) || tie i j)).
    + apply Permutation_refl.
    + eapply perm_trans; [apply perm_skip, IH | apply perm_swap].
Qed.

(** Sorting a row keeps every class, with its score, exactly once:
    whatever order the library gives to equal scores. *)
Lemma sorted_desc_perm (tie : nat -> nat -> bool) (row : list F) :
  Permutation (sorted_desc tie row) (indexed row).
Proof.
  unfold sorted_desc.
  induction (indexed row) as [|[i x] l IH]; simpl.
  - constructor.
  - eapply perm_trans; [apply insert_desc_perm | now apply perm_skip].
Qed.

Lemma map_fst_combine_seq (row : list F) (s : nat) :
  map fst (combine (seq s (length row)) row) = seq s (length row).
Proof.
  revert s. induction row as [|x row IH]; intros s; simpl.
  - reflexivity.
  - now rewrite IH.
Qed.

(** The ranking of a row lists every class exactly once. *)
Lemma argsort_desc_perm (tie : nat -> nat -> bool) (row : list F) :
  Permutation (argsort_desc tie row) (seq 0 (length row)).
Proof.
  unfold argsort_desc.
  rewrite <- (map_fst_combine_seq row 0).
  apply Permutation_map, sorted_desc_perm.
Qed.

Lemma argsort_desc_length (tie : nat -> nat -> bool) (row : list F) :
  length (argsort_desc tie row) = length row.
Proof.
  rewrite (Permutation_length (argsort_desc_perm tie row)). apply length_seq.
Qed.

Lemma sorted_desc_length (tie : nat -> nat -> bool) (row : list F) :
  length (sorted_desc tie row) = length row.
Proof.
  rewrite <- (argsort_desc_length tie row). unfold argsort_desc.
  now rewrite length_map.
Qed.

Lemma argsort_desc_NoDup (tie : nat -> nat -> bool) (row : list F) :
  NoDup (argsort_desc tie row).
Proof.
  eapply Permutation_NoDup.
  - apply Permutation_sym, argsort_desc_perm.
  - apply seq_NoDup.
Qed.

(** The sorted row pairs every class with its own score. *)
Lemma sorted_desc_In (tie : nat -> nat -> bool) (row : list F) (c : nat) (x : F) :
  In (c, x) (sorted_desc tie row) <-> nth_error row c = Some x.
Proof.
  split.
  - intros H. apply (Permutation_in _ (sorted_desc_perm tie row)) in H.
    apply In_combine_seq in H. rewrite Nat.sub_0_r in H. apply H.
  - intros H.
    apply (Permutation_in _ (Permutation_sym (sorted_desc_perm tie row))).
    apply In_combine_seq. rewrite Nat.sub_0_r. split; [lia | exact H].
Qed.

Lemma In_firstn {A} (n : nat) (l : list A) (x : A) :
  In x (firstn n l) -> In x l.
Proof.
  revert n. induction l as [|y l IH]; intros [|n]; simpl; try tauto.
  intros [->|Hin]; [now left | right; eauto].
Qed.

Lemma NoDup_firstn {A} (n : nat) (l : list A) : NoDup l -> NoDup (firstn n l).
Proof.
  revert n. induction l as [|x l IH]; intros [|n] H; simpl; try constructor.
  - inversion H; subst. intros Hin. apply In_firstn in Hin. contradiction.
  - inversion H; subst. now apply IH.
Qed.

Lemma top_classes_NoDup (tie : nat -> nat -> bool) (k : Z) (row : list F) :
  NoDup (top_classes tie k row).
Proof. apply NoDup_firstn, argsort_desc_NoDup. Qed.

Lemma top_classes_length (tie : nat -> nat -> bool) (k : Z) (row : list F) :
  0 <= k <= Z.of_nat (length row) ->
  length (top_classes tie k row) = Z.to_nat k.
Proof.
  intros Hk. unfold top_classes.
  rewrite length_firstn, argsort_desc_length. lia.
Qed.

(** The [k] classes selected are the first [k] of the [maxk] selected. *)
Lemma firstn_top_classes (tie : nat -> nat -> bool) (k maxk : Z) (row : list F) :
  0 <= k <= maxk ->
  firstn (Z.to_nat k) (top_classes tie maxk row) = top_classes tie k row.
Proof.
  intros Hk. unfold top_classes. rewrite firstn_firstn.
  f_equal. lia.
Qed.

Lemma matches_NoDup (p : list nat) (l : nat) :
  NoDup p -> matches p l = if existsb (Nat.eqb l) p then 1%nat else 0%nat.
Proof.
  unfold matches. induction p as [|i p IH]; intros H; simpl.
  - reflexivity.
  - inversion H as [|? ? Hni Hnd]; subst.
    rewrite (Nat.eqb_sym l i).
    destruct (Nat.eqb i l) eqn:E; simpl.
    + apply Nat.eqb_eq in E. subst i.
      rewrite IH by assumption.
      destruct (existsb (Nat.eqb l) p) eqn:Ex; [|reflexivity].
      apply existsb_exists in Ex. destruct Ex as (j & Hj & Ej).
      apply Nat.eqb_eq in Ej. subst j. contradiction.
    + now apply IH.
Qed.

Lemma transpose_length {A} (n : nat) (m : list (list A)) :
  Forall (fun r => length r = n) m -> length (transpose n m) = n.
Proof.
  induction 1 as [|r m Hr Hm IH]; simpl.
  - apply repeat_length.
  - rewrite length_map, length_combine, IH, Hr. apply Nat.min_id.
Qed.

Lemma transpose_rows {A} (n : nat) (m : list (list A)) :
  Forall (fun c => length c = length m) (transpose n m).
Proof.
  induction m as [|r m IH]; simpl.
  - apply Forall_forall. intros c Hc. now apply repeat_spec in Hc; subst.
  - apply Forall_forall. intros c Hc.
    apply in_map_iff in Hc. destruct Hc as ([x col] & <- & Hin).
    apply in_combine_r in Hin. simpl.
    rewrite Forall_forall in IH. now rewrite (IH col Hin).
Qed.

Lemma firstn_repeat {A} (x : A) (k n : nat) :
  (k <= n)%nat -> firstn k (repeat x n) = repeat x k.
Proof.
  revert n. induction k as [|k IH]; intros [|n] Hk; simpl; try reflexivity; try lia.
  f_equal. apply IH. lia.
Qed.

(** The first [k] rows of the transposed predictions are the transposed
    first [k] columns. *)
Lemma firstn_transpose {A} (k n : nat) (m : list (list A)) :
  (k <= n)%nat ->
  firstn k (transpose n m) = transpose k (map (firstn k) m).
Proof.
  intros Hk. induction m as [|r m IH]; simpl.
  - now apply firstn_repeat.
  - rewrite firstn_map, combine_firstn, IH. reflexivity.
Qed.

Lemma count_true_cons (r : list bool) (m : list (list bool)) :
  count_true (r :: m) = (length (filter (fun b => b) r) + count_true m)%nat.
Proof.
  unfold count_true. simpl. now rewrite filter_app, length_app.
Qed.

Lemma eq_row_same_length (row labels : list nat) :
  length row = length labels ->
  eq_row row labels = map (fun p => Nat.eqb (fst p) (snd p)) (combine row labels).
Proof.
  intros H. unfold eq_row. now rewrite H, Nat.eqb_refl.
Qed.

(** Adding one example to the batch adds its column of comparisons. *)
Lemma count_true_cons_column (l : nat) (ls : list nat) :
  forall (p : list nat) (T : list (list nat)),
    length p = length T ->
    Forall (fun c => length c = length ls) T ->
    count_true (map (fun row => eq_row row (l :: ls))
                  (map (fun q => fst q :: snd q) (combine p T)))
    = (matches p l + count_true (map (fun row => eq_row row ls) T))%nat.
Proof.
  induction p as [|i p IH]; intros [|c T] Hlen HT; simpl in Hlen; try discriminate.
  - reflexivity.
  - inversion HT as [|? ? Hc HT']; subst. simpl.
    rewrite !count_true_cons, (IH T) by (assumption || lia).
    rewrite (eq_row_same_length (i :: c) (l :: ls)) by (simpl; lia).
    rewrite (eq_row_same_length c ls) by assumption.
    unfold matches. simpl.
    destruct (Nat.eqb i l); simpl; lia.
Qed.

(** Counting the matches of the transposed prediction matrix row by row
    is counting them example by example. *)
Lemma count_true_transpose (n : nat) :
  forall (P : list (list nat)) (labels : list nat),
    length P = length labels ->
    Forall (fun p => length p = n) P ->
    count_true (map (fun row => eq_row row labels) (transpose n P))
    = list_sum (map (fun pl => matches (fst pl) (snd pl)) (combine P labels)).
Proof.
  induction P as [|p P IH]; intros [|l ls] Hlen HP; simpl in Hlen; try discriminate.
  - simpl. unfold count_true.
    replace (concat (map (fun row => eq_row row []) (repeat [] n)))
      with (@nil bool); [reflexivity|].
    clear. induction n as [|n IHn]; simpl; [reflexivity | exact IHn].
  - inversion HP as [|? ? Hp HP']; subst. simpl.
    rewrite count_true_cons_column.
    + rewrite IH by (assumption || lia). reflexivity.
    + rewrite transpose_length by assumption. reflexivity.
    + replace (length ls) with (length P) by lia. apply transpose_rows.
Qed.

Lemma selected_length (maxk k : Z) (output : list (list F)) :
  length (selected maxk k output) = length output.
Proof.
  unfold selected, indexed.
  rewrite length_map, length_combine, length_seq. apply Nat.min_id.
Qed.

Lemma matches_as_filter (tie : nat -> list F -> nat -> nat -> bool) (k : Z)
    (rows : list (nat * list F)) :
  forall labels : list nat,
    list_sum (map (fun pl => matches (fst pl) (snd pl))
                (combine (map (fun p => top_classes (tie (fst p) (snd p)) k (snd p)) rows)
                   labels))
    = length (filter (fun p => label_in_top (tie (fst (fst p)) (snd (fst p))) k
                                 (snd (fst p)) (snd p))
                (combine rows labels)).
Proof.
  induction rows as [|[i row] rows IH]; intros [|l labels]; simpl; try reflexivity.
  rewrite IH, matches_NoDup by apply top_classes_NoDup.
  unfold label_in_top.
  destruct (existsb (Nat.eqb l) (top_classes (tie i row) k row)); reflexivity.
Qed.

Lemma hits_as_sum (maxk k : Z) (output : list (list F)) (labels : list nat) :
  list_sum (map (fun pl => matches (fst pl) (snd pl))
              (combine (selected maxk k output) labels))
  = hits maxk k output labels.
Proof.
  unfold hits, selected.
  apply (matches_as_filter (fun i _ => s_tie_before maxk output i) k).
Qed.

Lemma fold_left_max_spec (l : list Z) (x : Z) :
  (fold_left Z.max l x = x \/ In (fold_left Z.max l x) l)
  /\ x <= fold_left Z.max l x
  /\ Forall (fun k => k <= fold_left Z.max l x) l.
Proof.
  revert x. induction l as [|y l IH]; intros x; simpl.
  - repeat split; [now left | lia | constructor].
  - destruct (IH (Z.max x y)) as (Hin & Hle & Hall).
    repeat split.
    + destruct Hin as [E|Hin]; [|now right; right].
      rewrite E. destruct (Z.max_spec x y) as [[_ ->]|[_ ->]]; [right; now left | now left].
    + lia.
    + constructor; [lia | assumption].
Qed.

Lemma py_max_spec (topk : list Z) :
  topk <> [] ->
  exists maxk, py_max topk = Ok maxk /\ In maxk topk /\ Forall (fun k => k <= maxk) topk.
Proof.
  destruct topk as [|x l]; [congruence|]. intros _.
  destruct (fold_left_max_spec l x) as (Hin & Hle & Hall).
  exists (fold_left Z.max l x). simpl. repeat split.
  - destruct Hin as [->|Hin]; [now left | now right].
  - constructor; assumption.
Qed.

(** On a batch that has an example, the selection is made row by row. *)
Lemma topk_indices_rows (maxk : Z) (output : list (list F)) :
  output <> [] ->
  topk_indices maxk output
  = rmap (fun p => topk_row (s_tie_before maxk output (fst p)) maxk (snd p))
      (indexed output).
Proof. destruct output; [congruence | reflexivity]. Qed.

Lemma topk_indices_ok (maxk : Z) (output : list (list F)) :
  output <> [] ->
  0 <= maxk ->
  Forall (fun row => maxk <= Z.of_nat (length row)) output ->
  topk_indices maxk output = Ok (selected maxk maxk output).
Proof.
  intros Hne H0 Hrows. rewrite topk_indices_rows by exact Hne.
  apply rmap_ok. intros [i row] Hin. apply in_combine_r in Hin.
  rewrite Forall_forall in Hrows. specialize (Hrows row Hin).
  unfold topk_row, top_classes. simpl.
  replace (maxk <? 0) with false by (symmetry; apply Z.ltb_ge; lia).
  replace (Z.of_nat (length row) <? maxk) with false
    by (symmetry; apply Z.ltb_ge; lia).
  reflexivity.
Qed.

(** What [correct[:k].flatten().sum()] counts. *)
Lemma correct_k_counts_hits (k maxk : Z) (output : list (list F)) (labels : list nat) :
  0 <= k <= maxk ->
  Forall (fun row => k <= Z.of_nat (length row)) output ->
  length output = length labels ->
  count_true
    (slice_to k
       (map (fun row => eq_row row labels)
          (transpose (Z.to_nat maxk) (selected maxk maxk output))))
  = hits maxk k output labels.
Proof.
  intros Hk Hrows Hlen. unfold slice_to.
  replace (k <? 0) with false by (symmetry; apply Z.ltb_ge; lia).
  rewrite firstn_map, firstn_transpose by lia.
  replace (map (firstn (Z.to_nat k)) (selected maxk maxk output))
    with (selected maxk k output).
  - rewrite count_true_transpose.
    + apply hits_as_sum.
    + now rewrite selected_length.
    + apply Forall_forall. intros p Hp.
      apply in_map_iff in Hp. destruct Hp as ([i row] & <- & Hin).
      apply in_combine_r in Hin.
      rewrite Forall_forall in Hrows. specialize (Hrows row Hin).
      apply top_classes_length. simpl. lia.
  - unfold selected. rewrite map_map. apply map_ext.
    intros p. symmetry. apply firstn_top_classes. lia.
Qed.

(** On class-index targets of the batch's size, [accuracy] returns the
    percentage of the examples whose label the selection returns. *)
Lemma accuracy_counts_selected (output : list (list F)) (labels : list nat)
    (topk : list Z) :
  topk <> [] ->
  Forall (fun k => 0 <= k) topk ->
  Forall (fun row => Forall (fun k => k <= Z.of_nat (length row)) topk) output ->
  length output = length labels ->
  labels <> [] ->
  exists maxk,
    py_max topk = Ok maxk
    /\ accuracy output (Target1 labels) topk
       = Ok (map (fun k => percentage (hits maxk k output labels) (length labels))
               topk).
Proof.
  intros Hne Hpos Hrows Hlen Hbatch.
  destruct (py_max_spec topk Hne) as (maxk & Hmax & Hin & Hle).
  exists maxk. split; [exact Hmax|].
  assert (H0 : 0 <= maxk) by (rewrite Forall_forall in Hpos; now apply Hpos).
  assert (Hout : output <> [])
    by (destruct output, labels; simpl in *; congruence).
  unfold accuracy. rewrite Hmax. simpl.
  rewrite topk_indices_ok; simpl.
  - unfold eq_broadcast. rewrite Hlen, Nat.eqb_refl. simpl.
    apply rmap_ok. intros k Hk.
    destruct (length labels =? 0)%nat eqn:E.
    + apply Nat.eqb_eq in E. destruct labels; [congruence | discriminate].
    + unfold percentage. rewrite correct_k_counts_hits; try reflexivity.
      * rewrite Forall_forall in Hpos, Hle. split; [now apply Hpos | now apply Hle].
      * eapply Forall_impl; [|exact Hrows]. intros row Hrow.
        rewrite Forall_forall in Hrow. now apply Hrow.
      * exact Hlen.
  - exact Hout.
  - exact H0.
  - eapply Forall_impl; [|exact Hrows]. intros row Hrow.
    rewrite Forall_forall in Hrow. now apply Hrow.
Qed.

(** [accuracy] on a two-dimensional target is [accuracy] on the indices
    the reduction along dimension 1 gives. *)
Lemma accuracy_reduces_target (output m : list (list F)) (labels : list nat)
    (topk : list Z) :
  max_dim1_indices m = Ok labels ->
  accuracy output (Target2 m) topk = accuracy output (Target1 labels) topk.
Proof.
  intros Hidx. unfold accuracy.
  destruct (py_max topk) as [maxk|e]; [|reflexivity]. cbn [rbind].
  rewrite Hidx. cbn [rbind target_size0].
  now rewrite (rmap_length _ _ _ Hidx).
Qed.

(** The reduction raises [IndexError] when a row has no entry, and
    returns otherwise. *)
Lemma max_dim1_indices_cases (m : list (list F)) :
  if has_empty_row (Target2 m) then max_dim1_indices m = Raise IndexError
  else exists labels, max_dim1_indices m = Ok labels.
Proof.
  unfold max_dim1_indices. simpl.
  induction m as [|row m IH]; simpl.
  - now exists [].
  - destruct row as [|x row]; simpl; [reflexivity|].
    destruct (existsb (fun row => (length row =? 0)%nat) m).
    + now rewrite IH.
    + destruct IH as (labels & ->). simpl. eauto.
Qed.

End AccuracyFacts.

(** ** The ranking behind [topk], and the argmax

    For scores that are totally pre-ordered, whatever order the library
    gives to equal scores. *)

Section Ranking.
Context {F : Type} {SO : ScalarOps F}.
Hypothesis leb_total : forall x y : F, s_leb x y = true \/ s_leb y x = true.
Hypothesis leb_trans : forall x y z : F,
    s_leb x y = true -> s_leb y z = true -> s_leb x z = true.

Lemma s_leb_refl (x : F) : s_leb x x = true.
Proof. destruct (leb_total x x); assumption. Qed.

Lemma insert_desc_sorted (tie : nat -> nat -> bool) (i : nat) (x : F)
    (l : list (nat * F)) :
  StronglySorted by_descending_score l ->
  StronglySorted by_descending_score (insert_desc tie i x l).
Proof.
  induction l as [|[j y] l IH]; intros Hs; simpl.
  - repeat constructor.
  - inversion Hs as [|? ? Hs' Hall]; subst.
    destruct (s_leb y x && (negb (s_leb x y) || tie i j)) eqn:E.
    + apply andb_prop in E. destruct E as [E _].
      constructor; [exact Hs|].
      constructor; [exact E|].
      eapply Forall_impl; [|exact Hall]. unfold by_descending_score. simpl. intros q Hq.
      eapply leb_trans; eassumption.
    + constructor; [now apply IH|].
      apply Forall_forall. intros q Hq.
      apply (Permutation_in _ (insert_desc_perm tie i x l)) in Hq.
      destruct Hq as [<-|Hq].
      * unfold by_descending_score. simpl.
        destruct (s_leb x y) eqn:Exy; [reflexivity|].
        destruct (leb_total x y) as [H|H]; [congruence|].
        rewrite H in E. discriminate E.
      * rewrite Forall_forall in Hall. now apply Hall.
Qed.

Lemma sorted_desc_sorted (tie : nat -> nat -> bool) (row : list F) :
  StronglySorted by_descending_score (sorted_desc tie row).
Proof.
  unfold sorted_desc.
  induction (indexed row) as [|[i x] l IH]; simpl.
  - constructor.
  - now apply insert_desc_sorted.
Qed.

Lemma sorted_app_desc (l1 l2 : list (nat * F)) :
  StronglySorted by_descending_score (l1 ++ l2) ->
  forall p q, In p l1 -> In q l2 -> s_leb (snd q) (snd p) = true.
Proof.
  induction l1 as [|a l1 IH]; intros Hs p q Hp Hq; [destruct Hp|].
  simpl in Hs. inversion Hs as [|? ? Hs' Hall]; subst.
  destruct Hp as [<-|Hp].
  - rewrite Forall_forall in Hall. apply Hall, in_or_app. now right.
  - now apply IH.
Qed.

(** A class the selection returns scores at least as high as a class it
    leaves out. *)
Lemma selected_above_rest (tie : nat -> nat -> bool) (row : list F) (n : nat)
    (p q : nat * F) :
  In p (firstn n (sorted_desc tie row)) ->
  In q (skipn n (sorted_desc tie row)) ->
  s_leb (snd q) (snd p) = true.
Proof.
  apply sorted_app_desc. rewrite firstn_skipn. apply sorted_desc_sorted.
Qed.

(** Every class among the [k] selected scores at least as high as every
    class outside them. *)
Lemma top_classes_are_highest (tie : nat -> nat -> bool) (row : list F) (k : Z)
    (i j : nat) :
  In i (top_classes tie k row) ->
  (j < length row)%nat ->
  ~ In j (top_classes tie k row) ->
  exists x y,
    nth_error row i = Some x /\ nth_error row j = Some y /\ s_leb y x = true.
Proof.
  intros Hi Hj Hnj. unfold top_classes, argsort_desc in *.
  set (sp := sorted_desc tie row) in *.
  rewrite firstn_map in Hi, Hnj.
  apply in_map_iff in Hi. destruct Hi as (p & <- & Hp).
  assert (Hjall : In j (map fst sp)).
  { apply (Permutation_in _ (Permutation_sym (argsort_desc_perm tie row))).
    apply in_seq. lia. }
  rewrite <- (firstn_skipn (Z.to_nat k) sp), map_app in Hjall.
  apply in_app_or in Hjall. destruct Hjall as [Hjin|Hjout]; [contradiction|].
  apply in_map_iff in Hjout. destruct Hjout as (q & <- & Hq).
  exists (snd p), (snd q). repeat split.
  - apply (sorted_desc_In tie). rewrite <- surjective_pairing.
    eapply In_firstn; eassumption.
  - apply (sorted_desc_In tie). rewrite <- surjective_pairing.
    change (In q sp). rewrite <- (firstn_skipn (Z.to_nat k) sp).
    apply in_or_app. now right.
  - eapply selected_above_rest; eassumption.
Qed.

(** A label with fewer than [k] other classes at least as high is
    selected, whatever the order of equal scores. *)
Lemma surely_in_top_selected (tie : nat -> nat -> bool) (k : Z) (row : list F)
    (l : nat) :
  k <= Z.of_nat (length row) ->
  surely_in_top k row l = true -> label_in_top tie k row l = true.
Proof.
  intros Hk Hs. unfold surely_in_top in Hs.
  destruct (nth_error row l) as [x|] eqn:Hx; [|discriminate].
  apply Z.ltb_lt in Hs.
  destruct (label_in_top tie k row l) eqn:Hin; [reflexivity | exfalso].
  unfold label_in_top, top_classes, argsort_desc in Hin.
  rewrite firstn_map in Hin.
  set (sp := sorted_desc tie row) in *.
  set (n := Z.to_nat k) in *.
  assert (Hno : forall p, In p (firstn n sp) -> fst p <> l).
  { intros p Hp E.
    assert (Hex : existsb (Nat.eqb l) (map fst (firstn n sp)) = true).
    { apply existsb_exists. exists (fst p). split; [now apply in_map|].
      apply Nat.eqb_eq. now symmetry. }
    congruence. }
  assert (Hl : In (l, x) sp) by (apply (sorted_desc_In tie); exact Hx).
  rewrite <- (firstn_skipn n sp) in Hl. apply in_app_or in Hl.
  destruct Hl as [Hl|Hl]; [apply (Hno _ Hl); reflexivity|].
  assert (Hall : forall p, In p (firstn n sp) ->
                           negb (Nat.eqb (fst p) l) && s_leb x (snd p) = true).
  { intros p Hp. apply andb_true_intro. split.
    - apply negb_true_iff, Nat.eqb_neq. now apply Hno.
    - apply (selected_above_rest tie row n p (l, x) Hp Hl). }
  assert (Hcount : (n <= n_not_worse row l x)%nat).
  { unfold n_not_worse.
    rewrite <- (Permutation_filter_length _ _ _ (sorted_desc_perm tie row)).
    change (sorted_desc tie row) with sp.
    rewrite <- (firstn_skipn n sp) at 1.
    rewrite filter_app, length_app, (filter_all _ _ Hall), length_firstn.
    unfold sp. rewrite sorted_desc_length. lia. }
  lia.
Qed.

(** A selected label has fewer than [k] classes strictly above it. *)
Lemma selected_possibly_in_top (tie : nat -> nat -> bool) (k : Z) (row : list F)
    (l : nat) :
  label_in_top tie k row l = true -> possibly_in_top k row l = true.
Proof.
  intros Hin. unfold label_in_top, top_classes, argsort_desc in Hin.
  rewrite firstn_map in Hin.
  set (sp := sorted_desc tie row) in *.
  set (n := Z.to_nat k) in *.
  apply existsb_exists in Hin. destruct Hin as (c & Hc & Ecl).
  apply Nat.eqb_eq in Ecl. subst c.
  apply in_map_iff in Hc. destruct Hc as ([c x] & Hfst & Hp).
  simpl in Hfst. subst c.
  assert (Hx : nth_error row l = Some x)
    by (apply (sorted_desc_In tie); eapply In_firstn; exact Hp).
  unfold possibly_in_top. rewrite Hx. apply Z.ltb_lt.
  unfold n_better.
  rewrite <- (Permutation_filter_length _ _ _ (sorted_desc_perm tie row)).
  change (sorted_desc tie row) with sp.
  rewrite <- (firstn_skipn n sp) at 1.
  rewrite filter_app, length_app.
  rewrite (filter_none _ (skipn n sp)).
  - pose proof (filter_one_out (fun p : nat * F => negb (s_leb (snd p) x))
                  (firstn n sp) (l, x) Hp) as Hlt.
    simpl in Hlt. rewrite s_leb_refl in Hlt. specialize (Hlt eq_refl).
    pose proof (firstn_le_length n sp). simpl. lia.
  - intros q Hq. apply negb_false_iff.
    apply (selected_above_rest tie row n (l, x) q Hp Hq).
Qed.

(** The count [accuracy] makes lies between the two counts that the
    scores alone determine. *)
Lemma hits_between (maxk k : Z) (output : list (list F)) (labels : list nat) :
  Forall (fun row => k <= Z.of_nat (length row)) output ->
  (surely_hits k output labels <= hits maxk k output labels
   <= possibly_hits k output labels)%nat.
Proof.
  intros Hrows. unfold surely_hits, hits, possibly_hits, indexed.
  rewrite Forall_forall in Hrows. split.
  - apply filter_into_indexed. intros i row l Hrow. simpl.
    apply surely_in_top_selected, Hrows, Hrow.
  - apply filter_from_indexed. intros i row l _. simpl.
    apply selected_possibly_in_top.
Qed.

(** When no other class has the label's score, the classes at least as
    high are the classes strictly above. *)
Lemma untied_counts (row : list F) (l : nat) (x : F) :
  nth_error row l = Some x ->
  untied row l = true ->
  n_not_worse row l x = n_better row x.
Proof.
  intros Hx Hu. unfold untied in Hu. rewrite Hx in Hu.
  rewrite forallb_forall in Hu.
  unfold n_not_worse, n_better. f_equal.
  apply filter_ext_in. intros [c v] Hin. simpl.
  specialize (Hu (c, v) Hin). simpl in Hu.
  destruct (Nat.eqb_spec c l) as [->|Hne]; simpl in *.
  - apply In_combine_seq in Hin. rewrite Nat.sub_0_r in Hin.
    destruct Hin as [_ Hv]. rewrite Hx in Hv. injection Hv as <-.
    now rewrite s_leb_refl.
  - destruct (s_leb x v) eqn:Exv; simpl in *.
    + apply negb_true_iff in Hu. now rewrite Hu.
    + destruct (leb_total x v) as [H|H]; [congruence|]. now rewrite H.
Qed.

Lemma untied_hits (k : Z) (output : list (list F)) (labels : list nat) :
  Forall2 (fun row l => untied row l = true) output labels ->
  surely_hits k output labels = possibly_hits k output labels.
Proof.
  intros Hu. unfold surely_hits, possibly_hits. f_equal.
  apply filter_ext_in. intros [row l] Hp.
  pose proof (Forall2_combine _ _ _ Hu _ Hp) as Hrow. simpl in *.
  unfold surely_in_top, possibly_in_top.
  destruct (nth_error row l) as [x|] eqn:Hx; [|reflexivity].
  now rewrite (untied_counts row l x Hx Hrow).
Qed.

(** *** The argmax of a row *)

Lemma argmax_from_spec (l : list F) :
  forall (pre : list F) (bi : nat) (b : F),
    nth_error pre bi = Some b ->
    (forall x, In x pre -> s_leb x b = true) ->
    (forall j y, (j < bi)%nat -> nth_error pre j = Some y -> s_leb b y = false) ->
    exists v,
      nth_error (pre ++ l) (argmax_from bi b (length pre) l) = Some v
      /\ (forall x, In x (pre ++ l) -> s_leb x v = true)
      /\ (forall j y, (j < argmax_from bi b (length pre) l)%nat ->
                      nth_error (pre ++ l) j = Some y -> s_leb v y = false).
Proof.
  induction l as [|x l IH]; intros pre bi b Hb Hmax Hfirst; simpl.
  - exists b. rewrite app_nil_r. auto.
  - assert (Hbi : (bi < length pre)%nat)
      by (apply nth_error_Some; congruence).
    replace (pre ++ x :: l) with ((pre ++ [x]) ++ l)
      by (now rewrite <- app_assoc).
    replace (S (length pre)) with (length (pre ++ [x]))
      by (rewrite length_app; simpl; lia).
    destruct (s_leb x b) eqn:E.
    + apply IH.
      * rewrite nth_error_app1 by assumption. exact Hb.
      * intros y Hy. apply in_app_or in Hy.
        destruct Hy as [Hy|[<-|[]]]; auto.
      * intros j y Hj Hy. rewrite nth_error_app1 in Hy by lia. eauto.
    + assert (Hbx : s_leb b x = true)
        by (destruct (leb_total x b); congruence).
      replace (length pre) with (length pre + 0)%nat at 1 by lia.
      rewrite length_app. simpl length.
      replace (length pre + 1)%nat with (length (pre ++ [x]))
        by (rewrite length_app; simpl; lia).
      replace (length pre + 0)%nat with (length pre) by lia.
      apply IH.
      * rewrite nth_error_app2 by lia. now rewrite Nat.sub_diag.
      * intros y Hy. apply in_app_or in Hy.
        destruct Hy as [Hy|[<-|[]]].
        -- eapply leb_trans; [apply Hmax, Hy | exact Hbx].
        -- destruct (leb_total x x); assumption.
      * intros j y Hj Hy. rewrite nth_error_app1 in Hy by lia.
        destruct (s_leb x y) eqn:Exy; [|reflexivity].
        apply nth_error_In in Hy.
        rewrite (leb_trans _ _ _ Exy (Hmax y Hy)) in E. discriminate.
Qed.

(** [argmax] returns the position of the first maximal entry. *)
Lemma argmax_first_maximal (row : list F) (a : nat) :
  argmax row = Ok a ->
  exists v,
    nth_error row a = Some v
    /\ (forall x, In x row -> s_leb x v = true)
    /\ (forall j y, (j < a)%nat -> nth_error row j = Some y -> s_leb v y = false).
Proof.
  destruct row as [|x l]; simpl; [discriminate|].
  intros [= <-].
  apply (argmax_from_spec l [x] 0%nat x).
  - reflexivity.
  - intros y [<-|[]]. destruct (leb_total x x); assumption.
  - intros j y Hj. lia.
Qed.

Lemma first_max_spec (row : list F) (l : nat) :
  first_max row l = true ->
  exists v,
    nth_error row l = Some v
    /\ (forall x, In x row -> s_leb x v = true)
    /\ (forall j y, (j < l)%nat -> nth_error row j = Some y -> s_leb v y = false).
Proof.
  unfold first_max. destruct (nth_error row l) as [v|]; [|discriminate].
  intros H. apply andb_prop in H. destruct H as [Hmax Hfirst].
  rewrite forallb_forall in Hmax, Hfirst.
  exists v. repeat split; [exact Hmax|].
  intros j y Hj Hy. apply negb_true_iff, Hfirst.
  eapply nth_error_firstn_In; eassumption.
Qed.

(** The position of the first maximal entry is what [argmax] returns. *)
Lemma argmax_of_first_max (row : list F) (l : nat) :
  first_max row l = true -> argmax row = Ok l.
Proof.
  intros H. destruct (first_max_spec row l H) as (v & Hv & Hmax & Hfirst).
  destruct (argmax row) as [a|e] eqn:Ea.
  - destruct (argmax_first_maximal row a Ea) as (va & Hva & Hamax & Hafirst).
    f_equal.
    destruct (Nat.lt_trichotomy a l) as [Hlt|[Heq|Hgt]]; [exfalso|exact Heq|exfalso].
    + pose proof (Hfirst a va Hlt Hva) as Hf.
      rewrite (Hamax v (nth_error_In _ _ Hv)) in Hf. discriminate.
    + pose proof (Hafirst l v Hgt Hv) as Hf.
      rewrite (Hmax va (nth_error_In _ _ Hva)) in Hf. discriminate.
  - destruct row; [destruct l; discriminate | discriminate].
Qed.



Lemma max_dim1_indices_of_first_max (m : list (list F)) (labels : list nat) :
  Forall2 (fun row l => first_max row l = true) m labels ->
  max_dim1_indices m = Ok labels.
Proof.
  unfold max_dim1_indices.
  induction 1 as [|row l m labels Hrow _ IH]; simpl; [reflexivity|].
  rewrite (argmax_of_first_max row l Hrow). simpl. now rewrite IH.
Qed.

Lemma accuracy_of_target_labels (output : list (list F)) (target : @Target F)
    (labels : list nat) (topk : list Z) :
  target_labels target labels ->
  accuracy output target topk = accuracy output (Target1 labels) topk.
Proof.
  destruct target as [l|m]; simpl.
  - now intros ->.
  - intros H. apply accuracy_reduces_target.
    now apply max_dim1_indices_of_first_max.
Qed.

(** C2 (as amended): for every target, of class indices or reduced to
    them by the argmax of its rows, that has the batch's size, for a
    non-empty batch and every [k] of [topk] between 0 and the number of
    classes, [accuracy] returns the percentage (100 times the fraction)
    of the examples whose true label appears among the [k] highest-scored
    predictions.  A label whose score other classes share is counted as
    the library orders the equal scores: the count is at least the number
    of examples whose label has fewer than [k] other classes at least as
    high, at most the number of examples whose label has fewer than [k]
    classes strictly higher, and it is that number when no label's score
    is shared. *)
Theorem accuracy_is_percentage (output : list (list F)) (target : @Target F)
    (labels : list nat) (topk : list Z) :
  target_labels target labels ->
  topk <> [] ->
  Forall (fun k => 0 <= k) topk ->
  Forall (fun row => Forall (fun k => k <= Z.of_nat (length row)) topk) output ->
  length output = length labels ->
  labels <> [] ->
  exists counts : list nat,
    accuracy output target topk
    = Ok (map (fun c => percentage c (length labels)) counts)
    /\ Forall2
         (fun k c => (surely_hits k output labels <= c
                      <= possibly_hits k output labels)%nat)
         topk counts
    /\ (Forall2 (fun row l => untied row l = true) output labels ->
        counts = map (fun k => possibly_hits k output labels) topk).
Proof.
  intros Htarget Hne Hpos Hrows Hlen Hbatch.
  destruct (accuracy_counts_selected output labels topk Hne Hpos Hrows Hlen Hbatch)
    as (maxk & _ & Hacc).
  exists (map (fun k => hits maxk k output labels) topk).
  assert (Hbetween : forall k, In k topk ->
             (surely_hits k output labels <= hits maxk k output labels
              <= possibly_hits k output labels)%nat).
  { intros k Hk. apply hits_between.
    eapply Forall_impl; [|exact Hrows]. intros row Hrow.
    rewrite Forall_forall in Hrow. now apply Hrow. }
  split; [|split].
  - rewrite (accuracy_of_target_labels output target labels topk Htarget).
    rewrite map_map. exact Hacc.
  - clear Hne Hpos Hrows Hacc. induction topk as [|k topk IH]; simpl; constructor.
    + apply Hbetween. now left.
    + apply IH. intros k' Hk'. apply Hbetween. now right.
  - intros Hu. apply map_ext_in. intros k Hk.
    specialize (Hbetween k Hk). rewrite (untied_hits k output labels Hu) in Hbetween.
    lia.
Qed.


End Ranking.

(** The rationals are totally pre-ordered. *)
Lemma Q_leb_total (x y : Q) : s_leb x y = true \/ s_leb y x = true.
Proof.
  destruct (Qlt_le_dec x y) as [H|H].
  - left. apply Qle_bool_iff, Qlt_le_weak, H.
  - right. apply Qle_bool_iff, H.
Qed.

Lemma Q_leb_trans (x y z : Q) :
  s_leb x y = true -> s_leb y z = true -> s_leb x z = true.
Proof.
  intros Hxy Hyz. apply Qle_bool_iff.
  eapply Qle_trans; apply Qle_bool_iff; eassumption.
Qed.

(** C2 (as stated) fails: on a batch of one example that is classified
    correctly the fraction is 1 while [accuracy] returns 100.  Nor is
    there a value for every output, target and [k]: [accuracy] raises for
    a [k] above the number of classes, for a target of another size than
    the batch and for an empty batch.  And on equal scores the value
    follows the order in which the library lists them: for a row of two
    equal scores and the label 0 it is 100 or 0. *)
Lemma accuracy_is_not_a_fraction :
  let output : list (list Q) := [[9 # 10; 1 # 10]] in
  let labels := [0%nat] in
  (accuracy output (Target1 labels) [1] = Ok [100%Q]
   /\ surely_hits 1 output labels = 1%nat
   /\ possibly_hits 1 output labels = 1%nat
   /\ fraction 1 (length labels) = 1%Q
   /\ accuracy output (Target1 labels) [1]
      <> Ok (map (fun k => fraction (possibly_hits k output labels) (length labels))
              [1]))
  /\ (accuracy output (Target1 labels) [3] = Raise RuntimeError
      /\ accuracy (output ++ output) (Target1 [0; 1; 1]%nat) [1] = Raise RuntimeError
      /\ accuracy (F := Q) [] (Target1 []) [1] = Raise ZeroDivisionError)
  /\ (@accuracy Q QScalar [[1; 1]]%Q (Target1 labels) [1] = Ok [100%Q]
      /\ @accuracy Q QScalarDescendingTies [[1; 1]]%Q (Target1 labels) [1]
         = Ok [0%Q]).
Proof.
  repeat split; try reflexivity.
  vm_compute. intros H. discriminate H.
Qed.

Lemma accuracy_is_percentage_witness :
  let output : list (list Q) :=
    [[1 # 10; 9 # 10; 3 # 10]; [5 # 10; 2 # 10; 3 # 10]; [1 # 10; 1 # 10; 1 # 10]] in
  let target : @Target Q := Target2 [[0; 1; 0]; [0; 0; 1]; [1; 0; 0]]%Q in
  let labels := [1; 2; 0]%nat in
  exists counts : list nat,
    accuracy output target [1; 2]
    = Ok (map (fun c => percentage c (length labels)) counts)
    /\ Forall2
         (fun k c => (surely_hits k output labels <= c
                      <= possibly_hits k output labels)%nat)
         [1; 2] counts
    /\ (Forall2 (fun row l => untied row l = true) output labels ->
        counts = map (fun k => possibly_hits k output labels) [1; 2]).
Proof.
  intros output target labels.
  apply (accuracy_is_percentage Q_leb_total Q_leb_trans output target labels [1; 2]).
  - repeat constructor.
  - discriminate.
  - repeat constructor; lia.
  - repeat constructor; simpl; lia.
  - reflexivity.
  - discriminate.
Defined.

(** On the batch above the label of the third example shares its score
    with the two other classes: the top-1 count is 1 or 2 and the top-2
    count is 2 or 3, as the equal scores are ordered; they are 2 and 3
    for a library that lists equal scores by ascending class index. *)
Example accuracy_counts_of_a_tied_batch :
  let output : list (list Q) :=
    [[1 # 10; 9 # 10; 3 # 10]; [5 # 10; 2 # 10; 3 # 10]; [1 # 10; 1 # 10; 1 # 10]] in
  let labels := [1; 2; 0]%nat in
  map (fun k => surely_hits k output labels) [1; 2] = [1; 2]%nat
  /\ map (fun k => possibly_hits k output labels) [1; 2] = [2; 3]%nat
  /\ map (fun k => hits 2 k output labels) [1; 2] = [2; 3]%nat.
Proof. vm_compute. auto. Qed.

(** The order of equal scores shows in the result: on a row of six equal
    scores and the label 0, a library that lists equal scores by
    ascending class index reports a hit for top-1 and top-5, one that
    lists them by descending class index reports none. *)
Example accuracy_follows_the_order_of_ties :
  let output : list (list Q) := [[1; 1; 1; 1; 1; 1]]%Q in
  @accuracy Q QScalar output (Target1 [0%nat]) default_topk = Ok [100; 100]%Q
  /\ @accuracy Q QScalarDescendingTies output (Target1 [0%nat]) default_topk
     = Ok [0; 0]%Q
  /\ @surely_hits Q QScalar 5 output [0%nat] = 0%nat
  /\ @possibly_hits Q QScalar 1 output [0%nat] = 1%nat.
Proof. vm_compute. auto. Qed.


(** The soft labels above stand for the classes 1 and 0: of the two
    maximal entries of the first row the first one counts.  A row without
    entries stops the reduction with [IndexError]. *)
Example argmax_of_soft_labels :
  let m : list (list Q) := [[2 # 10; 7 # 10; 7 # 10]; [6 # 10; 1 # 10; 3 # 10]] in
  max_dim1_indices m = Ok [1; 0]%nat
  /\ Forall2 (fun row l => first_max row l = true) m [1; 0]%nat
  /\ max_dim1_indices (m ++ [[]]) = Raise IndexError
  /\ accuracy (F := Q) [[1 # 10; 9 # 10]] (Target2 [[]]) [1] = Raise IndexError.
Proof.
  split; [reflexivity|]. split; [repeat constructor|].
  split; reflexivity.
Qed.

(** ** Running the procedures *)

Section Runs.
Context {FW : Framework}.
Local Open Scope proc_scope.

Lemma emits_bind {A B} (m : M A) (k : A -> M B) w a c1 w1 b c2 w2 :
  emits m w a c1 w1 -> emits (k a) w1 b c2 w2 ->
  emits (bind m k) w b (c1 ++ c2) w2.
Proof.
  intros [Hm Ht1] [Hk Ht2]. split.
  - unfold bind. now rewrite Hm.
  - now rewrite Ht2, Ht1, app_assoc.
Qed.

Lemma for_enumerate_blocks {A} (body : Z -> A -> M unit)
    (R : Z -> A -> list Call -> Prop) :
  (forall i x w, exists w' calls, emits (body i x) w tt calls w' /\ R i x calls) ->
  forall l i w, exists w' blocks,
    emits (for_enumerate body i l) w tt (concat blocks) w'
    /\ Forall2 (fun ix b => R (fst ix) (snd ix) b) (enumerate i l) blocks.
Proof.
  intros Hbody. induction l as [|x l IH]; intros i w; simpl.
  - exists w, []. split; [|constructor].
    split; [reflexivity | now rewrite app_nil_r].
  - destruct (Hbody i x w) as (w1 & calls & Hem & HR).
    destruct (IH (i + 1) w1) as (w2 & blocks & Hem2 & HF).
    exists w2, (calls :: blocks). split.
    + simpl. eapply emits_bind; eassumption.
    + constructor; assumption.
Qed.

Lemma returns_bind {A B} (m : M A) (k : A -> M B) (w : World)
    (c1 c2 : list Call) (t1 t2 : nat) (P : A -> Prop) (Q : B -> Prop) :
  returns m w c1 t1 P ->
  (forall a w1, P a -> w_clock w1 = (t1 + w_clock w)%nat ->
                returns (k a) w1 c2 t2 Q) ->
  returns (bind m k) w (c1 ++ c2) (t2 + t1) Q.
Proof.
  intros (a & w1 & Hm & HP & Hc1) Hk.
  destruct (Hk a w1 HP Hc1) as (b & w2 & Hk' & HQ & Hc2).
  exists b, w2. split; [eapply emits_bind; eassumption|].
  split; [exact HQ | lia].
Qed.

Lemma returns_weaken {A} (m : M A) (w : World) (c c' : list Call) (t t' : nat)
    (P P' : A -> Prop) :
  returns m w c t P -> c = c' -> t = t' -> (forall a, P a -> P' a) ->
  returns m w c' t' P'.
Proof.
  intros (a & w' & Hm & HP & Hc) <- <- HPP'. exists a, w'. auto.
Qed.

Lemma returns_ret {A} (a : A) (w : World) :
  returns (ret a) w [] 0 (fun x => x = a).
Proof.
  exists a, w. split; [split; [reflexivity | now rewrite app_nil_r]|].
  split; reflexivity.
Qed.

Lemma returns_time_perf_counter (w : World) :
  returns time_perf_counter w [perf_counter (fw_perf_counter (w_clock w))] 1
    (fun t => t = fw_perf_counter (w_clock w)).
Proof. do 2 eexists. repeat split. Qed.

Lemma returns_to_cuda (data : list Image) (target : @Target Scalar) (w : World) :
  returns (to_cuda data target) w [data_cuda; target_cuda] 0
    (fun dt => dt = (data, target)).
Proof.
  do 2 eexists. split; [split; [reflexivity|]|split; reflexivity].
  simpl. now rewrite <- app_assoc.
Qed.

Lemma returns_move (use_cuda : bool) (data : list Image) (target : @Target Scalar)
    (w : World) :
  returns (if use_cuda then to_cuda data target else ret (data, target)) w
    (if use_cuda then [data_cuda; target_cuda] else []) 0
    (fun dt => dt = (data, target)).
Proof. destruct use_cuda; [apply returns_to_cuda | apply returns_ret]. Qed.

Lemma returns_optimizer_zero_grad (w : World) :
  returns optimizer_zero_grad w [zero_grad] 0 (fun _ => True).
Proof. do 2 eexists. repeat split. Qed.

Lemma returns_model (data : list Image) (w : World) :
  returns (model_ data) w [model_call] 0 (fun _ => True).
Proof. do 2 eexists. repeat split. Qed.

Lemma returns_criterion (data : list Image) (output : list (list Scalar))
    (target : @Target Scalar) (w : World) :
  returns (criterion data output target) w [criterion_call] 0
    (fun loss => loss_factor loss = None).
Proof. do 2 eexists. repeat split. Qed.

Lemma returns_scaler_scale (loss : LossTensor) (w : World) :
  returns (scaler_scale_ loss) w [scaler_scale] 0
    (fun scaled => loss_factor scaled <> None).
Proof. do 2 eexists. repeat split. discriminate. Qed.

Lemma returns_backward_scaled (loss : LossTensor) (w : World) :
  loss_factor loss <> None ->
  returns (backward_ loss) w [backward true] 0 (fun _ => True).
Proof.
  intros H. unfold backward_. destruct (loss_factor loss); [|congruence].
  do 2 eexists. repeat split.
Qed.

Lemma returns_backward_unscaled (loss : LossTensor) (w : World) :
  loss_factor loss = None ->
  returns (backward_ loss) w [backward false] 0 (fun _ => True).
Proof.
  intros H. unfold backward_. rewrite H.
  do 2 eexists. repeat split.
Qed.

Lemma returns_optimizer_synchronize (w : World) :
  returns optimizer_synchronize_ w [optimizer_synchronize] 0 (fun _ => True).
Proof. do 2 eexists. repeat split. Qed.

Lemma returns_scaler_unscale (w : World) :
  returns scaler_unscale w [scaler_unscale_] 0 (fun _ => True).
Proof. do 2 eexists. repeat split. Qed.

Lemma returns_scaler_step (w : World) :
  returns (skip_synchronize scaler_step_) w
    [skip_synchronize_enter; scaler_step; skip_synchronize_exit] 0 (fun _ => True).
Proof.
  do 2 eexists. split; [split; [reflexivity|]|split; [exact I | reflexivity]].
  simpl. now rewrite <- !app_assoc.
Qed.

Lemma returns_optimizer_step (w : World) :
  returns optimizer_step_ w [optimizer_step] 0 (fun _ => True).
Proof. do 2 eexists. repeat split. Qed.

Lemma returns_scaler_update (w : World) :
  returns scaler_update_ w [scaler_update] 0 (fun _ => True).
Proof. do 2 eexists. repeat split. Qed.

(** The forward pass and the loss inside the autocast context. *)
Lemma returns_autocast_forward (data : list Image) (target : @Target Scalar)
    (w : World) :
  returns (autocast (bind (model_ data) (fun output => criterion data output target)))
    w [autocast_enter; model_call; criterion_call; autocast_exit] 0
    (fun loss => loss_factor loss = None).
Proof.
  do 2 eexists. split; [split; [reflexivity|]|split; reflexivity].
  simpl. now rewrite <- !app_assoc.
Qed.

Ltac next_call lem :=
  eapply returns_bind; [apply lem | cbv beta; intros ? ? ? ?].

Lemma mixed_precision_step_emits (use_cuda : bool) (data : list Image)
    (target : @Target Scalar) (w : World) :
  exists loss w',
    emits (mixed_precision_step use_cuda (data, target)) w
      (fw_perf_counter (w_clock w), data, loss)
      (mixed_step_calls use_cuda (fw_perf_counter (w_clock w))) w'
    /\ w_clock w' = S (w_clock w).
Proof.
  assert (H : returns (mixed_precision_step use_cuda (data, target)) w
                (mixed_step_calls use_cuda (fw_perf_counter (w_clock w))) 1
                (fun r => exists loss, r = (fw_perf_counter (w_clock w), data, loss))).
  { unfold mixed_precision_step.
    eapply returns_weaken
      with (P := fun r => exists loss, r = (fw_perf_counter (w_clock w), data, loss)).
    - next_call returns_time_perf_counter. subst.
      next_call returns_move. subst.
      next_call returns_optimizer_zero_grad.
      next_call returns_autocast_forward.
      next_call returns_scaler_scale.
      eapply returns_bind; [now apply returns_backward_scaled | intros ? ? ? ?].
      next_call returns_optimizer_synchronize.
      next_call returns_scaler_unscale.
      next_call returns_scaler_step.
      next_call returns_scaler_update.
      eapply returns_weaken;
        [apply returns_ret | reflexivity | reflexivity | intros r ->; eauto].
    - unfold mixed_step_calls. destruct use_cuda; reflexivity.
    - reflexivity.
    - auto. }
  destruct H as (r & w' & Hem & (loss & ->) & Hc). eauto.
Qed.

Lemma full_precision_step_emits (use_cuda : bool) (data : list Image)
    (target : @Target Scalar) (w : World) :
  exists loss w',
    emits (full_precision_step use_cuda (data, target)) w
      (fw_perf_counter (w_clock w), data, loss)
      (full_step_calls use_cuda (fw_perf_counter (w_clock w))) w'
    /\ w_clock w' = S (w_clock w).
Proof.
  assert (H : returns (full_precision_step use_cuda (data, target)) w
                (full_step_calls use_cuda (fw_perf_counter (w_clock w))) 1
                (fun r => exists loss, r = (fw_perf_counter (w_clock w), data, loss))).
  { unfold full_precision_step.
    eapply returns_weaken
      with (P := fun r => exists loss, r = (fw_perf_counter (w_clock w), data, loss)).
    - next_call returns_time_perf_counter. subst.
      next_call returns_move. subst.
      next_call returns_optimizer_zero_grad.
      next_call returns_model.
      next_call returns_criterion.
      eapply returns_bind; [now apply returns_backward_unscaled | intros ? ? ? ?].
      next_call returns_optimizer_step.
      eapply returns_weaken;
        [apply returns_ret | reflexivity | reflexivity | intros r ->; eauto].
    - unfold full_step_calls. destruct use_cuda; reflexivity.
    - reflexivity.
    - auto. }
  destruct H as (r & w' & Hem & (loss & ->) & Hc). eauto.
Qed.

Lemma mixed_precision_batch_emits (train_loader : list Batch) (epoch log_interval : Z)
    (use_cuda : bool) (wandb_run : option string) (i : Z) (batch : Batch) (w : World) :
  log_interval <> 0 ->
  len_loader train_loader <> 0 ->
  timing_ok wandb_run ->
  exists w' o,
    emits (mixed_precision_batch train_loader epoch log_interval use_cuda wandb_run
             i batch) w tt
      (batch_calls true use_cuda wandb_run epoch log_interval
         (len_loader train_loader) i (fst batch) o) w'.
Proof.
  intros Hli Hn Htime. destruct batch as [data target].
  destruct (mixed_precision_step_emits use_cuda data target w)
    as (loss & w1 & [Hstep Htr] & Hclock).
  pose (o := {| obs_start := fw_perf_counter (w_clock w);
                obs_end := fw_perf_counter (w_clock w1);
                obs_loss := loss_item loss;
                obs_rate := s_div (s_of_Z (len_data data))
                              (s_sub (fw_perf_counter (w_clock w1))
                                 (fw_perf_counter (w_clock w)));
                obs_scale := fw_get_scale (w_scaler w1);
                obs_sampler_len := sampler_len (w_train_sampler w1) |}).
  apply Z.eqb_neq in Hli, Hn.
  destruct wandb_run as [run|]; simpl in Htime;
    destruct (i mod log_interval =? 0) eqn:Emod;
    eexists; exists o;
    unfold emits, mixed_precision_batch, bind at 1; rewrite Hstep;
    unfold batch_calls, dashboard_calls, console_calls, global_step; simpl;
    unfold bind, time_perf_counter, truediv_float, py_mod, truediv_int, scaler_get_scale_,
      call, gets, modify, ret, raise; simpl;
    rewrite ?Hclock, ?(Htime (w_clock w) (S (w_clock w))) by lia;
    rewrite Hli, Emod, ?Hn; simpl;
    (split; [reflexivity|]); simpl; rewrite Htr;
    destruct use_cuda; simpl; rewrite <- ?app_assoc, ?app_nil_r; reflexivity.
Qed.

Lemma train_epoch_batch_emits (train_loader : list Batch) (epoch log_interval : Z)
    (use_cuda : bool) (wandb_run : option string) (i : Z) (batch : Batch) (w : World) :
  log_interval <> 0 ->
  len_loader train_loader <> 0 ->
  timing_ok wandb_run ->
  exists w' o,
    emits (train_epoch_batch train_loader epoch log_interval use_cuda wandb_run
             i batch) w tt
      (batch_calls false use_cuda wandb_run epoch log_interval
         (len_loader train_loader) i (fst batch) o) w'.
Proof.
  intros Hli Hn Htime. destruct batch as [data target].
  destruct (full_precision_step_emits use_cuda data target w)
    as (loss & w1 & [Hstep Htr] & Hclock).
  pose (o := {| obs_start := fw_perf_counter (w_clock w);
                obs_end := fw_perf_counter (w_clock w1);
                obs_loss := loss_item loss;
                obs_rate := s_div (s_of_Z (len_data data))
                              (s_sub (fw_perf_counter (w_clock w1))
                                 (fw_perf_counter (w_clock w)));
                obs_scale := fw_get_scale (w_scaler w1);
                obs_sampler_len := sampler_len (w_train_sampler w1) |}).
  apply Z.eqb_neq in Hli, Hn.
  destruct wandb_run as [run|]; simpl in Htime;
    destruct (i mod log_interval =? 0) eqn:Emod;
    eexists; exists o;
    unfold emits, train_epoch_batch, bind at 1; rewrite Hstep;
    unfold batch_calls, dashboard_calls, console_calls, global_step; simpl;
    unfold bind, time_perf_counter, truediv_float, py_mod, truediv_int,
      call, gets, modify, ret, raise; simpl;
    rewrite ?Hclock, ?(Htime (w_clock w) (S (w_clock w))) by lia;
    rewrite Hli, Emod, ?Hn; simpl;
    (split; [reflexivity|]); simpl; rewrite Htr;
    destruct use_cuda; simpl; rewrite <- ?app_assoc, ?app_nil_r; reflexivity.
Qed.

Lemma Forall2_enumerate {A B} (P : A -> B -> Prop) (l : list A) :
  forall (i : Z) (bs : list B),
    Forall2 (fun ix b => P (snd ix) b) (enumerate i l) bs -> Forall2 P l bs.
Proof.
  induction l as [|x l IH]; intros i bs H; simpl in H; inversion H; subst;
    constructor; eauto.
Qed.

(** A projection of the trace that is computed call by call is computed
    batch by batch. *)
Lemma project_blocks {A X} (pi : list Call -> list X) (h : Z -> A -> list X)
    (R : Z -> A -> list Call -> Prop) :
  pi [] = [] ->
  (forall a b, pi (a ++ b) = pi a ++ pi b) ->
  (forall i x b, R i x b -> pi b = h i x) ->
  forall (l : list A) (i : Z) (blocks : list (list Call)),
    Forall2 (fun ix b => R (fst ix) (snd ix) b) (enumerate i l) blocks ->
    pi (concat blocks) = flat_map (fun ix => h (fst ix) (snd ix)) (enumerate i l).
Proof.
  intros Hnil Happ HR. induction l as [|x l IH]; intros i blocks H;
    simpl in H; inversion H; subst; simpl.
  - exact Hnil.
  - rewrite Happ. f_equal; eauto.
Qed.

Lemma model_train_emits (w : World) :
  emits model_train_ w tt [model_train] (set_mode Training (log_call model_train w)).
Proof. split; reflexivity. Qed.

Lemma train_sampler_set_epoch_emits (epoch : Z) (w : World) :
  exists w', emits (train_sampler_set_epoch epoch) w tt [set_epoch epoch] w'.
Proof. eexists. split; reflexivity. Qed.

(** The trace of a whole epoch of either training procedure, batch by
    batch. *)
Lemma training_procedure_blocks (mixed : bool) (train_loader : list Batch)
    (epoch log_interval : Z) (use_cuda : bool) (wandb_run : option string)
    (w : World) :
  log_interval <> 0 ->
  timing_ok wandb_run ->
  exists w' blocks,
    emits (training_procedure mixed train_loader epoch log_interval use_cuda
             wandb_run) w tt
      ([model_train; set_epoch epoch] ++ concat blocks) w'
    /\ Forall2
         (fun ix b =>
            exists o, b = batch_calls mixed use_cuda wandb_run epoch log_interval
                            (len_loader train_loader) (fst ix) (fst (snd ix)) o)
         (enumerate 0 train_loader) blocks.
Proof.
  intros Hli Htime.
  destruct (train_sampler_set_epoch_emits epoch
              (set_mode Training (log_call model_train w))) as (w0 & Hw0).
  assert (Hloop : forall body : Z -> Batch -> M unit,
             (forall i x w1, exists w' calls,
                   emits (body i x) w1 tt calls w'
                   /\ exists o, calls = batch_calls mixed use_cuda wandb_run epoch
                                          log_interval (len_loader train_loader)
                                          i (fst x) o) ->
             exists w' blocks,
               emits (model_train_ ;; train_sampler_set_epoch epoch ;;
                      for_enumerate body 0 train_loader) w tt
                 ([model_train; set_epoch epoch] ++ concat blocks) w'
               /\ Forall2
                    (fun ix b =>
                       exists o, b = batch_calls mixed use_cuda wandb_run epoch
                                       log_interval (len_loader train_loader)
                                       (fst ix) (fst (snd ix)) o)
                    (enumerate 0 train_loader) blocks).
  { intros body Hbody.
    destruct (for_enumerate_blocks body
                (fun i x calls =>
                   exists o, calls = batch_calls mixed use_cuda wandb_run epoch
                                       log_interval (len_loader train_loader)
                                       i (fst x) o)
                Hbody train_loader 0 w0) as (w' & blocks & Hem & HF).
    exists w', blocks. split; [|exact HF].
    change ([model_train; set_epoch epoch] ++ concat blocks)
      with ([model_train] ++ [set_epoch epoch] ++ concat blocks).
    eapply emits_bind; [apply model_train_emits|].
    eapply emits_bind; eassumption. }
  destruct train_loader as [|b0 l].
  - exists w0, []. split; [|constructor].
    destruct mixed; simpl;
      (change [model_train; set_epoch epoch]
         with ([model_train] ++ [set_epoch epoch] ++ []);
       eapply emits_bind; [apply model_train_emits|];
       eapply emits_bind; [exact Hw0|];
       split; [reflexivity | now rewrite app_nil_r]).
  - assert (Hn : len_loader (b0 :: l) <> 0) by (unfold len_loader; simpl; lia).
    destruct mixed; apply Hloop; intros i x w1.
    + destruct (mixed_precision_batch_emits (b0 :: l) epoch log_interval use_cuda
                  wandb_run i x w1 Hli Hn Htime)
        as (w' & o & Hem).
      exists w'. eexists. split; [exact Hem | now exists o].
    + destruct (train_epoch_batch_emits (b0 :: l) epoch log_interval use_cuda
                  wandb_run i x w1 Hli Hn Htime)
        as (w' & o & Hem).
      exists w'. eexists. split; [exact Hem | now exists o].
Qed.

End Runs.

(** ** The training procedures *)

Section TrainingTheorems.
Context {FW : Framework}.

Lemma flat_map_filter {A B} (p : A -> bool) (f : A -> B) (l : list A) :
  flat_map (fun x => if p x then [f x] else []) l = map f (filter p l).
Proof.
  induction l as [|x l IH]; simpl; [reflexivity|].
  destruct (p x); simpl; now rewrite IH.
Qed.

Lemma flat_map_singleton {A B} (f : A -> B) (l : list A) :
  flat_map (fun x => [f x]) l = map f l.
Proof. induction l as [|x l IH]; simpl; [reflexivity | now rewrite IH]. Qed.

Lemma flat_map_nil {A B} (l : list A) :
  flat_map (fun _ => @nil B) l = [].
Proof. induction l as [|x l IH]; simpl; [reflexivity | exact IH]. Qed.




Lemma printed_batch (mixed use_cuda : bool) (wandb_run : option string)
    (epoch log_interval n i : Z) (data : list Image) (o : BatchObs) :
  printed (batch_calls mixed use_cuda wandb_run epoch log_interval n i data o)
  = if i mod log_interval =? 0
    then [(i * len_data data, s_div (s_mul (s_of_Z 100) (s_of_Z i)) (s_of_Z n))]
    else [].
Proof.
  unfold batch_calls, dashboard_calls, console_calls.
  destruct mixed, use_cuda, wandb_run, (i mod log_interval =? 0); reflexivity.
Qed.

Lemma logged_steps_batch (mixed use_cuda : bool) (wandb_run : option string)
    (epoch log_interval n i : Z) (data : list Image) (o : BatchObs) :
  logged_steps (batch_calls mixed use_cuda wandb_run epoch log_interval n i data o)
  = match wandb_run with
    | Some _ => [Some (global_step epoch n i)]
    | None => []
    end.
Proof.
  unfold batch_calls, dashboard_calls, console_calls.
  destruct mixed, use_cuda, wandb_run, (i mod log_interval =? 0); reflexivity.
Qed.

Lemma logged_samples_seen_batch (mixed use_cuda : bool) (run : string)
    (epoch log_interval n i : Z) (data : list Image) (o : BatchObs) :
  logged "train/samples_seen"
    (batch_calls mixed use_cuda (Some run) epoch log_interval n i data o)
  = [Some (VInt (global_step epoch n i * len_data data))].
Proof.
  unfold batch_calls, dashboard_calls, console_calls.
  destruct mixed, use_cuda, (i mod log_interval =? 0); reflexivity.
Qed.

Lemma batch_calls_logging (mixed : bool) (wandb_run : option string)
    (epoch log_interval n i : Z) (data : list Image) (o : BatchObs) :
  forallb is_logging
    (dashboard_calls mixed wandb_run epoch n i data o
     ++ console_calls mixed epoch log_interval n i data o) = true.
Proof.
  unfold dashboard_calls, console_calls.
  destruct mixed, wandb_run, (i mod log_interval =? 0); reflexivity.
Qed.

(** C1 (as amended): an epoch of [train_mixed_precision] that logs without
    raising makes, for every batch of the loader, its calls in this order:
    the clock reading that starts the batch, the move of the input tensors
    to accelerator memory (only when [use_cuda] is set), the zeroing of
    the gradients, the forward pass and the loss inside the automatic
    mixed-precision context, the scaling of the loss and the backward
    pass, the synchronisation of the distributed gradients, the unscaling,
    the optimizer step (through the scaler, with synchronisation skipped),
    and the update of the scaler, which is followed by timing and logging
    calls only. *)
Theorem train_mixed_precision_call_order (train_loader : list Batch)
    (epoch log_interval : Z) (use_cuda : bool) (wandb_run : option string)
    (w : World) :
  log_interval <> 0 ->
  timing_ok wandb_run ->
  exists w' blocks,
    train_mixed_precision train_loader epoch log_interval use_cuda wandb_run w
    = (Ok tt, w')
    /\ w_trace w' = w_trace w ++ [model_train; set_epoch epoch] ++ concat blocks
    /\ Forall2
         (fun (batch : Batch) (block : list Call) =>
            exists start logging,
              block =
                perf_counter start ::
                (if use_cuda then [data_cuda; target_cuda] else []) ++
                [ zero_grad;
                  autocast_enter; model_call; criterion_call; autocast_exit;
                  scaler_scale; backward true;
                  optimizer_synchronize;
                  scaler_unscale_;
                  skip_synchronize_enter; scaler_step; skip_synchronize_exit;
                  scaler_update ] ++
                logging
              /\ forallb is_logging logging = true)
         train_loader blocks.
Proof.
  intros Hli Htime.
  destruct (training_procedure_blocks true train_loader epoch log_interval
              use_cuda wandb_run w Hli Htime) as (w' & blocks & [Hrun Htr] & HF).
  exists w', blocks. split; [exact Hrun|]. split; [exact Htr|].
  apply (Forall2_enumerate _ train_loader 0).
  eapply Forall2_impl; [|exact HF].
  intros [i [data target]] block (o & ->). simpl.
  exists (obs_start o),
    (dashboard_calls true wandb_run epoch (len_loader train_loader) i data o
     ++ console_calls true epoch log_interval (len_loader train_loader) i data o).
  split; [|apply batch_calls_logging].
  unfold batch_calls, mixed_step_calls. simpl.
  destruct use_cuda; reflexivity.
Qed.


(** A call-by-call projection of the trace of an epoch, batch by batch. *)
Lemma project_epoch {X} (g : Call -> list X) (h : Z -> list Image -> list X)
    (mixed use_cuda : bool) (wandb_run : option string)
    (epoch log_interval : Z) (train_loader : list Batch)
    (blocks : list (list Call)) :
  g model_train = [] ->
  g (set_epoch epoch) = [] ->
  (forall i data o,
      flat_map g (batch_calls mixed use_cuda wandb_run epoch log_interval
                    (len_loader train_loader) i data o) = h i data) ->
  Forall2
    (fun ix b =>
       exists o, b = batch_calls mixed use_cuda wandb_run epoch log_interval
                       (len_loader train_loader) (fst ix) (fst (snd ix)) o)
    (enumerate 0 train_loader) blocks ->
  flat_map g ([model_train; set_epoch epoch] ++ concat blocks)
  = flat_map (fun ix : Z * Batch => h (fst ix) (fst (snd ix)))
      (enumerate 0 train_loader).
Proof.
  intros H1 H2 Hb HF. rewrite flat_map_app. simpl. rewrite H1, H2. simpl.
  apply (project_blocks (flat_map g)
           (fun i (x : Batch) => h i (fst x))
           (fun i (x : Batch) b =>
              exists o, b = batch_calls mixed use_cuda wandb_run epoch
                              log_interval (len_loader train_loader)
                              i (fst x) o)).
  - reflexivity.
  - intros a b. apply flat_map_app.
  - intros i x b (o & ->). apply Hb.
  - exact HF.
Qed.

(** C6 (as amended): in both training procedures a console line is
    printed exactly for the batches whose index is a multiple of
    [log_interval], while the dashboard record, when a run is supplied, is
    emitted for every batch, with the batch's global step. *)
Theorem training_logging_cadence (mixed : bool) (train_loader : list Batch)
    (epoch log_interval : Z) (use_cuda : bool) (wandb_run : option string)
    (w : World) :
  log_interval <> 0 ->
  timing_ok wandb_run ->
  exists w' calls,
    training_procedure mixed train_loader epoch log_interval use_cuda wandb_run w
    = (Ok tt, w')
    /\ w_trace w' = w_trace w ++ calls
    /\ printed calls
       = map (fun ix : Z * Batch =>
                (fst ix * len_data (fst (snd ix)),
                 s_div (s_mul (s_of_Z 100) (s_of_Z (fst ix)))
                   (s_of_Z (len_loader train_loader))))
           (filter (fun ix => fst ix mod log_interval =? 0)
              (enumerate 0 train_loader))
    /\ logged_steps calls
       = match wandb_run with
         | Some _ =>
             map (fun ix : Z * Batch =>
                    Some (global_step epoch (len_loader train_loader) (fst ix)))
               (enumerate 0 train_loader)
         | None => []
         end.
Proof.
  intros Hli Htime.
  destruct (training_procedure_blocks mixed train_loader epoch log_interval
              use_cuda wandb_run w Hli Htime) as (w' & blocks & [Hrun Htr] & HF).
  exists w', ([model_train; set_epoch epoch] ++ concat blocks).
  split; [exact Hrun|]. split; [exact Htr|]. split.
  - unfold printed.
    rewrite (project_epoch _
               (fun i data =>
                  if i mod log_interval =? 0
                  then [(i * len_data data,
                         s_div (s_mul (s_of_Z 100) (s_of_Z i))
                           (s_of_Z (len_loader train_loader)))]
                  else [])
               mixed use_cuda wandb_run epoch log_interval train_loader blocks);
      try reflexivity; try assumption.
    + apply (flat_map_filter (fun ix : Z * Batch => fst ix mod log_interval =? 0)).
    + intros i data o. apply printed_batch.
  - unfold logged_steps.
    rewrite (project_epoch _
               (fun i _ =>
                  match wandb_run with
                  | Some _ => [Some (global_step epoch (len_loader train_loader) i)]
                  | None => []
                  end)
               mixed use_cuda wandb_run epoch log_interval train_loader blocks);
      try reflexivity; try assumption.
    + destruct wandb_run; [apply flat_map_singleton | apply flat_map_nil].
    + intros i data o. apply logged_steps_batch.
Qed.

(** C10: in both training procedures, when a dashboard run is supplied,
    the value logged as [train/samples_seen] for a batch is [global_step]
    times the size of that batch, with [global_step = (epoch - 1) *
    len(train_loader) + batch_idx]; the sizes of the earlier batches do
    not enter it. *)
Theorem samples_seen_is_global_step_times_batch_size (mixed : bool)
    (train_loader : list Batch) (epoch log_interval : Z) (use_cuda : bool)
    (run : string) (w : World) :
  log_interval <> 0 ->
  clock_advances ->
  exists w' calls,
    training_procedure mixed train_loader epoch log_interval use_cuda (Some run) w
    = (Ok tt, w')
    /\ w_trace w' = w_trace w ++ calls
    /\ logged "train/samples_seen" calls
       = map (fun ix : Z * Batch =>
                Some (VInt (((epoch - 1) * len_loader train_loader + fst ix)
                            * len_data (fst (snd ix)))))
           (enumerate 0 train_loader).
Proof.
  intros Hli Htime.
  destruct (training_procedure_blocks mixed train_loader epoch log_interval
              use_cuda (Some run) w Hli Htime) as (w' & blocks & [Hrun Htr] & HF).
  exists w', ([model_train; set_epoch epoch] ++ concat blocks).
  split; [exact Hrun|]. split; [exact Htr|].
  unfold logged.
  rewrite (project_epoch _
             (fun i data =>
                [Some (VInt (global_step epoch (len_loader train_loader) i
                             * len_data data))])
             mixed use_cuda (Some run) epoch log_interval train_loader blocks);
    try reflexivity; try assumption.
  intros i data o. apply logged_samples_seen_batch.
Qed.

End TrainingTheorems.

(** The clock of the small framework advances. *)
Lemma toy_clock_advances : @clock_advances ToyFramework.
Proof.
  intros i j Hij. simpl.
  destruct (Qeq_bool (inject_Z (Z.of_nat j) - inject_Z (Z.of_nat i)) 0) eqn:E;
    [|reflexivity].
  apply Qeq_bool_iff in E. unfold Qeq in E. simpl in E. lia.
Qed.

Lemma train_mixed_precision_call_order_witness :
  exists w' blocks,
    train_mixed_precision toy_loader 1 2 true (Some "run"%string) toy_world = (Ok tt, w')
    /\ w_trace w' = w_trace toy_world ++ [model_train; set_epoch 1] ++ concat blocks
    /\ Forall2
         (fun (batch : Batch) (block : list Call) =>
            exists start logging,
              block =
                perf_counter start ::
                [data_cuda; target_cuda] ++
                [ zero_grad;
                  autocast_enter; model_call; criterion_call; autocast_exit;
                  scaler_scale; backward true;
                  optimizer_synchronize;
                  scaler_unscale_;
                  skip_synchronize_enter; scaler_step; skip_synchronize_exit;
                  scaler_update ] ++
                logging
              /\ forallb is_logging logging = true)
         toy_loader blocks.
Proof.
  apply (train_mixed_precision_call_order toy_loader 1 2 true (Some "run"%string)
           toy_world).
  - lia.
  - exact toy_clock_advances.
Defined.

(** C1 (as stated) fails: in an epoch of one batch with [use_cuda] set, the
    input tensors are moved (position 3 of the trace) before the gradients
    are zeroed (position 5), not after. *)
Lemma tensors_are_moved_before_zero_grad :
  let tr := w_trace (snd (train_mixed_precision [([1; 2], Target1 [1; 3]%nat)]
                            1 1 true None toy_world)) in
  exists i j,
    first_index is_zero_grad tr = Some i
    /\ first_index is_data_cuda tr = Some j
    /\ (j < i)%nat.
Proof.
  exists 5%nat, 3%nat. split; [vm_compute; reflexivity|].
  split; [vm_compute; reflexivity | lia].
Qed.



Lemma training_logging_cadence_witness :
  exists w' calls,
    training_procedure false toy_loader 1 2 true (Some "run"%string) toy_world
    = (Ok tt, w')
    /\ w_trace w' = w_trace toy_world ++ calls
    /\ printed calls
       = map (fun ix : Z * Batch =>
                (fst ix * len_data (fst (snd ix)),
                 s_div (s_mul (s_of_Z 100) (s_of_Z (fst ix)))
                   (s_of_Z (len_loader toy_loader))))
           (filter (fun ix => fst ix mod 2 =? 0) (enumerate 0 toy_loader))
    /\ logged_steps calls
       = map (fun ix : Z * Batch => Some (global_step 1 (len_loader toy_loader) (fst ix)))
           (enumerate 0 toy_loader).
Proof.
  apply (training_logging_cadence false toy_loader 1 2 true (Some "run"%string)
           toy_world).
  - lia.
  - exact toy_clock_advances.
Defined.

(** C6 (as stated) fails: with [log_interval = 2] and two batches, the
    dashboard receives a record for batch 1 as well, whose index is not a
    multiple of the interval. *)
Lemma dashboard_logs_every_batch :
  let tr := w_trace (snd (train_mixed_precision toy_loader 1 2 true
                            (Some "run"%string) toy_world)) in
  logged_steps tr = [Some 0; Some 1]
  /\ map (fun ix : Z * Batch => Some (global_step 1 2 (fst ix)))
       (filter (fun ix => fst ix mod 2 =? 0) (enumerate 0 toy_loader))
     = [Some 0]
  /\ logged_steps tr
     <> map (fun ix : Z * Batch => Some (global_step 1 2 (fst ix)))
          (filter (fun ix => fst ix mod 2 =? 0) (enumerate 0 toy_loader)).
Proof.
  split; [vm_compute; reflexivity|].
  split; [vm_compute; reflexivity|].
  vm_compute. discriminate.
Qed.

Lemma samples_seen_is_global_step_times_batch_size_witness :
  exists w' calls,
    training_procedure true toy_loader 2 2 false (Some "run"%string) toy_world
    = (Ok tt, w')
    /\ w_trace w' = w_trace toy_world ++ calls
    /\ logged "train/samples_seen" calls
       = map (fun ix : Z * Batch =>
                Some (VInt (((2 - 1) * len_loader toy_loader + fst ix)
                            * len_data (fst (snd ix)))))
           (enumerate 0 toy_loader).
Proof.
  apply (samples_seen_is_global_step_times_batch_size true toy_loader 2 2 false
           "run"%string toy_world).
  - lia.
  - exact toy_clock_advances.
Defined.

(** With batches of two and of three images in the second epoch, the
    dashboard shows 4 and 9 samples seen: [(2 + 0) * 2] and [(2 + 1) * 3]. *)
Example samples_seen_of_toy_epoch :
  logged "train/samples_seen"
    (w_trace (snd (train_mixed_precision toy_loader 2 2 false (Some "run"%string)
                     toy_world)))
  = [Some (VInt 4); Some (VInt 9)].
Proof. vm_compute. reflexivity. Qed.

(** ** The evaluation pass *)

Section TestTheorems.
Context {FW : Framework}.

Lemma same_training_state_refl (w : World) : same_training_state w w.
Proof. repeat split. Qed.

Lemma same_training_state_trans (w1 w2 w3 : World) :
  same_training_state w1 w2 -> same_training_state w2 w3 ->
  same_training_state w1 w3.
Proof.
  unfold same_training_state.
  intros (A1 & A2 & A3 & A4 & A5 & A6 & A7) (B1 & B2 & B3 & B4 & B5 & B6 & B7).
  repeat split; congruence.
Qed.

(** One batch of [test], whatever its outcome: only evaluation calls, and
    no change to the training state, the mode or the autocast flag. *)
Lemma test_batch_frame (use_cuda : bool) (acc : Scalar * Scalar * Scalar)
    (batch : Batch) (w : World) :
  same_training_state w (snd (test_batch use_cuda acc batch w))
  /\ w_mode (snd (test_batch use_cuda acc batch w)) = w_mode w
  /\ w_autocast (snd (test_batch use_cuda acc batch w)) = w_autocast w
  /\ w_inference (snd (test_batch use_cuda acc batch w)) = w_inference w
  /\ exists inner,
       w_trace (snd (test_batch use_cuda acc batch w)) = w_trace w ++ inner
       /\ forallb is_eval_call inner = true.
Proof.
  destruct acc as [[test_loss acc1] acc5], batch as [data target].
  destruct use_cuda;
    unfold test_batch, bind, to_cuda, model_, criterion, lift, call, gets,
      modify, ret, raise; simpl;
    match goal with
    | |- context [accuracy ?o ?t ?k] =>
        destruct (accuracy o t k) as [[|a1 [|a5 [|a l]]]|e]
    end; simpl;
    (split; [repeat split|]); repeat (split; [reflexivity|]);
    eexists; (split; [rewrite <- ?app_assoc; reflexivity | reflexivity]).
Qed.

Lemma for_each_test_frame (use_cuda : bool) (test_loader : list Batch) :
  forall (acc : Scalar * Scalar * Scalar) (w : World),
    same_training_state w (snd (for_each (test_batch use_cuda) acc test_loader w))
    /\ w_mode (snd (for_each (test_batch use_cuda) acc test_loader w)) = w_mode w
    /\ w_autocast (snd (for_each (test_batch use_cuda) acc test_loader w))
       = w_autocast w
    /\ w_inference (snd (for_each (test_batch use_cuda) acc test_loader w))
       = w_inference w
    /\ exists inner,
         w_trace (snd (for_each (test_batch use_cuda) acc test_loader w))
         = w_trace w ++ inner
         /\ forallb is_eval_call inner = true.
Proof.
  induction test_loader as [|batch l IH]; intros acc w; simpl.
  - split; [apply same_training_state_refl|]. repeat (split; [reflexivity|]).
    exists []. now rewrite app_nil_r.
  - destruct (test_batch_frame use_cuda acc batch w)
      as (Hs & Hm & Ha & Hi & inner & Htr & Hin).
    unfold bind.
    destruct (test_batch use_cuda acc batch w) as [[acc'|e] w1]; simpl in *.
    + destruct (IH acc' w1) as (Hs' & Hm' & Ha' & Hi' & inner' & Htr' & Hin').
      split; [eapply same_training_state_trans; eassumption|].
      repeat (split; [congruence|]).
      exists (inner ++ inner'). split.
      * now rewrite Htr', Htr, app_assoc.
      * rewrite forallb_app, Hin, Hin'. reflexivity.
    + split; [assumption|]. repeat (split; [assumption|]).
      exists inner. auto.
Qed.

(** One batch of [test] whose accuracies are computed. *)
Lemma test_batch_emits (use_cuda : bool) (test_loss acc1 acc5 a1 a5 : Scalar)
    (data : list Image) (target : @Target Scalar) (w : World) :
  accuracy (fw_forward (w_autocast w) (w_mode w) (w_params w) data) target
    default_topk = Ok [a1; a5] ->
  exists w',
    emits (test_batch use_cuda (test_loss, acc1, acc5) (data, target)) w
      (s_add test_loss
         (fw_loss (w_autocast w)
            (fw_forward (w_autocast w) (w_mode w) (w_params w) data) target),
       s_add acc1 a1, s_add acc5 a5)
      (test_batch_calls use_cuda) w'.
Proof.
  intros Hacc. unfold emits, test_batch_calls.
  destruct use_cuda;
    unfold test_batch, bind, to_cuda, model_, criterion, lift, call, gets,
      modify, ret, raise; simpl; rewrite Hacc; simpl;
    eexists; (split; [reflexivity | simpl; rewrite <- ?app_assoc; reflexivity]).
Qed.

Lemma for_each_test_emits (use_cuda : bool) (ac : bool) (md : Mode) (p : Params)
    (test_loader : list Batch) (accs : list (Scalar * Scalar)) :
  Forall2
    (fun (batch : Batch) a =>
       accuracy (fw_forward ac md p (fst batch)) (snd batch) default_topk
       = Ok [fst a; snd a])
    test_loader accs ->
  forall (test_loss acc1 acc5 : Scalar) (w : World),
    w_autocast w = ac -> w_mode w = md -> w_params w = p ->
    exists w',
      emits (for_each (test_batch use_cuda) (test_loss, acc1, acc5) test_loader) w
        (fold_left s_add
           (map (fun batch : Batch =>
                   fw_loss ac (fw_forward ac md p (fst batch)) (snd batch))
              test_loader) test_loss,
         fold_left s_add (map fst accs) acc1,
         fold_left s_add (map snd accs) acc5)
        (flat_map (fun _ : Batch => test_batch_calls use_cuda) test_loader) w'.
Proof.
  induction 1 as [|[data target] [a1 a5] l accs Hacc HF IH];
    intros test_loss acc1 acc5 w Hac Hmd Hp; simpl.
  - exists w. split; [reflexivity | now rewrite app_nil_r].
  - simpl in Hacc. subst ac md p.
    destruct (test_batch_emits use_cuda test_loss acc1 acc5 a1 a5 data target w Hacc)
      as (w1 & Hem).
    destruct (test_batch_frame use_cuda (test_loss, acc1, acc5) (data, target) w)
      as ((Hp1 & _) & Hm1 & Ha1 & _).
    rewrite (proj1 Hem) in Hp1, Hm1, Ha1. simpl in Hp1, Hm1, Ha1.
    destruct (IH (s_add test_loss
                    (fw_loss (w_autocast w)
                       (fw_forward (w_autocast w) (w_mode w) (w_params w) data)
                       target))
                (s_add acc1 a1) (s_add acc5 a5) w1 Ha1 Hm1 Hp1) as (w2 & Hem2).
    exists w2. eapply emits_bind; eassumption.
Qed.

(** C3: when the shard is not empty and every batch yields its two
    accuracies, [test] accumulates the loss, the top-1 and the top-5
    accuracy of every batch of the loader and reports, on the dashboard
    (when a run is supplied) and on the console, each accumulated sum
    divided by [len(test_sampler)]. *)
Theorem test_reports_sums_over_shard_size (test_loader : list Batch)
    (use_cuda : bool) (epoch : Z) (wandb_run : option string) (w : World)
    (accs : list (Scalar * Scalar)) :
  sampler_len (w_test_sampler w) <> 0 ->
  Forall2
    (fun (batch : Batch) a =>
       accuracy (eval_output w (fst batch)) (snd batch) default_topk
       = Ok [fst a; snd a])
    test_loader accs ->
  let n := s_of_Z (sampler_len (w_test_sampler w)) in
  let test_loss := s_div (accumulate (map (eval_loss w) test_loader)) n in
  let acc1 := s_div (accumulate (map fst accs)) n in
  let acc5 := s_div (accumulate (map snd accs)) n in
  exists w',
    test test_loader use_cuda epoch wandb_run w = (Ok tt, w')
    /\ w_trace w'
       = w_trace w
         ++ [model_eval; inference_mode_enter]
         ++ flat_map (fun _ : Batch => test_batch_calls use_cuda) test_loader
         ++ [inference_mode_exit]
         ++ match wandb_run with
            | Some run => [wandb_log run (test_info test_loss epoch acc1 acc5) None]
            | None => []
            end
         ++ [print_test epoch test_loss acc1 acc5].
Proof.
  intros Hn Haccs n test_loss acc1 acc5.
  set (w2 := set_inference true
               (log_call inference_mode_enter
                  (set_mode Evaluation (log_call model_eval w)))).
  destruct (for_each_test_emits use_cuda (w_autocast w) Evaluation (w_params w)
              test_loader accs Haccs (s_of_Z 0) (s_of_Z 0) (s_of_Z 0) w2
              eq_refl eq_refl eq_refl) as (w3 & Hrun & Htr).
  destruct (for_each_test_frame use_cuda test_loader
              (s_of_Z 0, s_of_Z 0, s_of_Z 0) w2)
    as ((_ & _ & _ & _ & _ & Hsampler & _) & _).
  rewrite Hrun in Hsampler. simpl in Hsampler.
  apply Z.eqb_neq in Hn.
  unfold test, bind at 1, model_eval_, bind at 1, call, modify at 1 2.
  unfold bind at 1, inference_mode, with_context, bind at 1 2, call, modify.
  fold w2. rewrite Hrun.
  unfold bind, gets, truediv_int, call, modify, ret, raise.
  cbn [w_test_sampler set_inference log_call].
  rewrite Hsampler, Hn.
  destruct wandb_run as [run|]; (eexists; split; [reflexivity|]);
    cbn [w_trace set_inference log_call]; rewrite Htr;
    cbn [w_trace set_inference set_mode log_call w2];
    rewrite <- !app_assoc; reflexivity.
Qed.

(** C8: [test], whatever its outcome, calls the model and the loss only
    inside its inference-mode block, makes no backward pass, no optimizer
    or scaler call and no zeroing of gradients, and leaves the model's
    parameters, the gradients, the optimizer's state, the scaler, the
    samplers and the clock as they were; besides its trace it only puts
    the model in evaluation mode. *)
Theorem test_changes_no_training_state (test_loader : list Batch)
    (use_cuda : bool) (epoch : Z) (wandb_run : option string) (w : World) :
  let w' := snd (test test_loader use_cuda epoch wandb_run w) in
  same_training_state w w'
  /\ w_mode w' = Evaluation
  /\ w_autocast w' = w_autocast w
  /\ exists inner report,
       w_trace w'
       = w_trace w
         ++ model_eval :: inference_mode_enter :: inner
         ++ inference_mode_exit :: report
       /\ forallb is_eval_call inner = true
       /\ forallb is_report_call report = true.
Proof.
  set (w2 := set_inference true
               (log_call inference_mode_enter
                  (set_mode Evaluation (log_call model_eval w)))).
  destruct (for_each_test_frame use_cuda test_loader
              (s_of_Z 0, s_of_Z 0, s_of_Z 0) w2)
    as (Hs & Hm & Ha & _ & inner & Htr & Hin).
  cbv zeta.
  destruct (test test_loader use_cuda epoch wandb_run w) as [res w'] eqn:E.
  cbn [snd]. revert E.
  unfold test, bind at 1, model_eval_, bind at 1, call, modify at 1 2.
  unfold bind at 1, inference_mode, with_context, bind at 1 2, call, modify.
  match goal with
  | |- context [for_each ?b ?a ?l ?x] =>
      change (for_each b a l x)
        with (for_each (test_batch use_cuda) (s_of_Z 0, s_of_Z 0, s_of_Z 0)
                test_loader w2)
  end.
  destruct (for_each (test_batch use_cuda) (s_of_Z 0, s_of_Z 0, s_of_Z 0)
              test_loader w2) as [r w3].
  simpl in Hs, Hm, Ha, Htr.
  destruct Hs as (H1 & H2 & H3 & H4 & H5 & H6 & H7).
  assert (Hstate : forall w4, same_training_state w3 w4 -> same_training_state w w4).
  { intros w4. apply same_training_state_trans. repeat split; assumption. }
  destruct r as [[[test_loss acc1] acc5]|e].
  - unfold bind, gets, truediv_int, call, modify, ret, raise.
    cbn [w_test_sampler set_inference log_call].
    destruct (sampler_len (w_test_sampler w3) =? 0);
      [|destruct wandb_run as [run|]];
      intros E; injection E as <- <-;
      cbn [w_mode w_autocast w_trace set_inference log_call];
      (split; [apply Hstate; repeat split|]);
      (split; [exact Hm|]); (split; [exact Ha|]);
      exists inner; eexists;
      (split; [rewrite Htr; rewrite <- !app_assoc; simpl; reflexivity|]);
      (split; [exact Hin | reflexivity]).
  - intros E; injection E as <- <-.
    cbn [w_mode w_autocast w_trace set_inference log_call].
    split; [apply Hstate; repeat split|].
    split; [exact Hm|]. split; [exact Ha|].
    exists inner, []. split; [|split; [exact Hin | reflexivity]].
    rewrite Htr. rewrite <- !app_assoc. reflexivity.
Qed.

End TestTheorems.

Lemma test_reports_sums_over_shard_size_witness :
  let accs := [((100 # 2)%Q, (200 # 2)%Q); ((100 # 3)%Q, (200 # 3)%Q)] in
  let n := s_of_Z (sampler_len (w_test_sampler toy_world)) in
  let test_loss := s_div (accumulate (map (eval_loss toy_world) toy_loader)) n in
  let acc1 := s_div (accumulate (map fst accs)) n in
  let acc5 := s_div (accumulate (map snd accs)) n in
  exists w',
    test toy_loader false 3 (Some "run"%string) toy_world = (Ok tt, w')
    /\ w_trace w'
       = w_trace toy_world
         ++ [model_eval; inference_mode_enter]
         ++ flat_map (fun _ : Batch => test_batch_calls false) toy_loader
         ++ [inference_mode_exit]
         ++ [wandb_log "run" (test_info test_loss 3 acc1 acc5) None]
         ++ [print_test 3 test_loss acc1 acc5].
Proof.
  intros accs.
  apply (test_reports_sums_over_shard_size toy_loader false 3 (Some "run"%string)
           toy_world accs).
  - vm_compute. discriminate.
  - repeat constructor.
Defined.

(** On the small loader [test] reports the loss 1/2, the top-1 accuracy
    (50 + 100/3) / 5 and the top-5 accuracy (100 + 200/3) / 5. *)
Example test_of_toy_epoch :
  w_trace (snd (test toy_loader false 3 None toy_world))
  = [model_eval; inference_mode_enter; model_call; criterion_call;
     model_call; criterion_call; inference_mode_exit;
     print_test 3 (10 # 20)%Q (500 # 30)%Q (1000 # 30)%Q].
Proof. vm_compute. reflexivity. Qed.

(** C8 (as stated) fails: [test] leaves one more effect than its metrics
    and its reports.  Called on a model that is in training mode, as it
    is after an epoch of training, it returns with the model in evaluation
    mode. *)
Lemma test_leaves_the_model_in_evaluation_mode :
  let w := set_mode Training toy_world in
  let w' := snd (test toy_loader true 1 (Some "run"%string) w) in
  w_mode w = Training
  /\ w_mode w' = Evaluation
  /\ w_mode w' <> w_mode w
  /\ same_training_state w w'.
Proof.
  intros w w'.
  split; [reflexivity|]. split; [vm_compute; reflexivity|].
  split; [vm_compute; discriminate|].
  vm_compute. repeat split; reflexivity.
Qed.

(** ** [load_data] *)

Section LoadDataTheorems.
Context {FW : Framework}.

(** C7 (as amended): [load_data] attaches to the training dataset a
    random-resized crop, which is its only random (augmenting) transform,
    followed by the conversion to a tensor, the conversion to float and
    the normalisation with the ImageNet mean and standard deviation, and
    to the evaluation dataset a resize, a centre crop and the same
    conversions and normalisation. *)
Theorem load_data_pipelines (train_dir test_dir : string) (args : Namespace)
    (world_size rank : Z) (ip : InterpolationMode) (n_train n_test : nat) :
  InterpolationMode_of (interpolation args) = Ok ip ->
  fw_folder_size train_dir = Some n_train ->
  fw_folder_size test_dir = Some n_test ->
  0 <= rank < world_size ->
  exists train_sampler test_sampler,
    load_data train_dir test_dir args world_size rank
    = Ok ({| root := train_dir;
             transform :=
               [ RandomResizedCrop (train_crop_size args) ip;
                 PILToTensor;
                 ConvertImageDtype torch_float;
                 Normalize (0.485, 0.456, 0.406)%Q (0.229, 0.224, 0.225)%Q ];
             dataset_len := n_train |},
          {| root := test_dir;
             transform :=
               [ Resize (val_resize_size args) ip;
                 CenterCrop (val_crop_size args);
                 PILToTensor;
                 ConvertImageDtype torch_float;
                 Normalize (0.485, 0.456, 0.406)%Q (0.229, 0.224, 0.225)%Q ];
             dataset_len := n_test |},
          train_sampler, test_sampler)
    /\ filter is_random (train_transforms_of args ip)
       = [RandomResizedCrop (train_crop_size args) ip]
    /\ filter is_random (test_transforms_of args ip) = [].
Proof.
  intros Hip Htrain Htest Hrank.
  unfold load_data, new_ImageFolder, new_DistributedSampler.
  rewrite Hip, Htrain, Htest. simpl.
  replace ((world_size <=? rank) || (rank <? 0)) with false.
  - simpl. do 2 eexists. repeat split.
  - symmetry. apply orb_false_iff. split; [apply Z.leb_gt | apply Z.ltb_ge]; lia.
Qed.

End LoadDataTheorems.

Lemma load_data_pipelines_witness :
  exists train_sampler test_sampler,
    load_data "train" "val" toy_args 2 1
    = Ok ({| root := "train";
             transform :=
               [ RandomResizedCrop (train_crop_size toy_args) BILINEAR;
                 PILToTensor;
                 ConvertImageDtype torch_float;
                 Normalize (0.485, 0.456, 0.406)%Q (0.229, 0.224, 0.225)%Q ];
             dataset_len := 5 |},
          {| root := "val";
             transform :=
               [ Resize (val_resize_size toy_args) BILINEAR;
                 CenterCrop (val_crop_size toy_args);
                 PILToTensor;
                 ConvertImageDtype torch_float;
                 Normalize (0.485, 0.456, 0.406)%Q (0.229, 0.224, 0.225)%Q ];
             dataset_len := 3 |},
          train_sampler, test_sampler)
    /\ filter is_random (train_transforms_of toy_args BILINEAR)
       = [RandomResizedCrop (train_crop_size toy_args) BILINEAR]
    /\ filter is_random (test_transforms_of toy_args BILINEAR) = [].
Proof.
  apply (load_data_pipelines "train" "val" toy_args 2 1 BILINEAR 5 3).
  - reflexivity.
  - reflexivity.
  - reflexivity.
  - lia.
Defined.

(** C7 (as stated) fails: between the random-resized crop and the
    conversion to a tensor the training pipeline has no augmentation step. *)
Lemma train_pipeline_has_no_further_augmentation :
  match load_data "train" "val" toy_args 2 1 with
  | Ok (train_dataset, _, _, _) =>
      ~ exists augmentation,
          augmentation <> []
          /\ transform train_dataset
             = RandomResizedCrop 176 BILINEAR :: augmentation ++
               [PILToTensor; ConvertImageDtype torch_float; Normalize mean std]
  | Raise _ => False
  end.
Proof.
  cbn. intros (aug & Hne & H).
  injection H as H. apply (f_equal (@length Transform)) in H.
  rewrite length_app in H. simpl in H.
  destruct aug; [congruence | simpl in H; lia].
Qed.

(** ** The shards of the distributed sampler *)

Section ShardTheorems.
Context {FW : Framework}.

(** The positions a strided slice selects. *)
Lemma In_slice_step {A} (start step : nat) (l : list A) (x : A) :
  In x (slice_step start step l)
  <-> exists p, nth_error l p = Some x
                /\ (start <= p)%nat /\ ((p - start) mod step = 0)%nat.
Proof.
  unfold slice_step. rewrite in_map_iff. split.
  - intros ([p y] & Hx & Hin). simpl in Hx. subst y.
    apply filter_In in Hin. destruct Hin as [Hin Hsel]. simpl in Hsel.
    apply In_combine_seq in Hin. rewrite Nat.sub_0_r in Hin.
    apply andb_true_iff in Hsel. destruct Hsel as [Hle Hmod].
    exists p. split; [apply Hin|].
    split; [now apply Nat.leb_le | now apply Nat.eqb_eq].
  - intros (p & Hnth & Hle & Hmod). exists (p, x). split; [reflexivity|].
    apply filter_In. split.
    + apply In_combine_seq. rewrite Nat.sub_0_r. split; [lia | exact Hnth].
    + simpl. apply andb_true_iff.
      split; [now apply Nat.leb_le | now apply Nat.eqb_eq].
Qed.

Lemma rank_of_position (r R p : nat) :
  (r < R)%nat -> (r <= p)%nat -> ((p - r) mod R = 0)%nat -> (p mod R = r)%nat.
Proof.
  intros HrR Hrp Hmod.
  apply Nat.Div0.mod_divides in Hmod. destruct Hmod as [q Hq].
  replace p with (r + q * R)%nat by lia.
  rewrite Nat.Div0.mod_add. now apply Nat.mod_small.
Qed.

Lemma ceil_div_exact (n d : nat) :
  (0 < d)%nat -> (n mod d = 0)%nat -> (ceil_div n d * d = n)%nat.
Proof.
  intros Hd Hmod. unfold ceil_div.
  apply Nat.Div0.mod_divides in Hmod. destruct Hmod as [q Hq]. subst n.
  replace (d * q + (d - 1))%nat with (q * d + (d - 1))%nat by lia.
  rewrite Nat.div_add_l by lia.
  rewrite (Nat.div_small (d - 1) d) by lia. lia.
Qed.

(** Without padding the shard is a strided slice of the permutation. *)
Lemma sampler_indices_unpadded (s : DistributedSampler) :
  length (fw_randperm (sampler_seed s + sampler_epoch s) (sampler_dataset_len s))
  = sampler_dataset_len s ->
  total_size s = sampler_dataset_len s ->
  sampler_indices s
  = slice_step (rank s) (num_replicas s)
      (fw_randperm (sampler_seed s + sampler_epoch s) (sampler_dataset_len s)).
Proof.
  intros Hlen Htotal. unfold sampler_indices, padded_indices.
  rewrite Hlen, Htotal, Nat.sub_diag. simpl.
  rewrite app_nil_r. rewrite <- Hlen at 1. now rewrite firstn_all.
Qed.

(** Samplers of distinct ranks over an evenly divisible dataset. *)
Lemma evenly_divisible_shards_disjoint (s1 s2 : DistributedSampler) :
  sampler_dataset_len s1 = sampler_dataset_len s2 ->
  sampler_seed s1 + sampler_epoch s1 = sampler_seed s2 + sampler_epoch s2 ->
  num_replicas s1 = num_replicas s2 ->
  total_size s1 = sampler_dataset_len s1 ->
  total_size s2 = sampler_dataset_len s2 ->
  (rank s1 < num_replicas s1)%nat ->
  (rank s2 < num_replicas s2)%nat ->
  rank s1 <> rank s2 ->
  Permutation
    (fw_randperm (sampler_seed s1 + sampler_epoch s1) (sampler_dataset_len s1))
    (seq 0 (sampler_dataset_len s1)) ->
  disjoint_shards (sampler_indices s1) (sampler_indices s2).
Proof.
  intros HN Hseed HR Ht1 Ht2 Hr1 Hr2 Hne Hperm x Hx1 Hx2.
  assert (Hlen : length (fw_randperm (sampler_seed s1 + sampler_epoch s1)
                           (sampler_dataset_len s1)) = sampler_dataset_len s1)
    by (rewrite (Permutation_length Hperm); apply length_seq).
  assert (Hnd : NoDup (fw_randperm (sampler_seed s1 + sampler_epoch s1)
                         (sampler_dataset_len s1)))
    by (eapply Permutation_NoDup; [apply Permutation_sym, Hperm | apply seq_NoDup]).
  rewrite sampler_indices_unpadded in Hx1 by assumption.
  rewrite sampler_indices_unpadded in Hx2
    by (first [exact Ht2 | rewrite <- Hseed, <- HN; exact Hlen]).
  rewrite <- Hseed, <- HN, <- HR in Hx2.
  apply In_slice_step in Hx1, Hx2.
  destruct Hx1 as (p1 & Hp1 & Hle1 & Hmod1), Hx2 as (p2 & Hp2 & Hle2 & Hmod2).
  assert (p1 = p2).
  { eapply (proj1 (NoDup_nth_error _) Hnd).
    - apply nth_error_Some. congruence.
    - congruence. }
  subst p2. apply Hne.
  rewrite <- (rank_of_position (rank s1) (num_replicas s1) p1) by assumption.
  rewrite <- (rank_of_position (rank s2) (num_replicas s1) p1); [reflexivity|..];
    try assumption.
  now rewrite HR.
Qed.

Lemma new_DistributedSampler_ok (dataset : ImageFolder) (world_size rank : Z) :
  0 <= rank < world_size ->
  new_DistributedSampler dataset world_size rank
  = Ok {| sampler_dataset_len := dataset_len dataset;
          num_replicas := Z.to_nat world_size;
          rank := Z.to_nat rank;
          sampler_epoch := 0;
          sampler_seed := 0;
          num_samples := ceil_div (dataset_len dataset) (Z.to_nat world_size);
          total_size := (ceil_div (dataset_len dataset) (Z.to_nat world_size)
                         * Z.to_nat world_size)%nat |}.
Proof.
  intros Hrank. unfold new_DistributedSampler.
  replace ((world_size <=? rank) || (rank <? 0)) with false; [reflexivity|].
  symmetry. apply orb_false_iff. split; [apply Z.leb_gt | apply Z.ltb_ge]; lia.
Qed.

Lemma new_samplers_disjoint (dataset : ImageFolder) (world_size rank1 rank2 : Z)
    (s1 s2 : DistributedSampler) :
  0 <= rank1 < world_size ->
  0 <= rank2 < world_size ->
  rank1 <> rank2 ->
  Z.of_nat (dataset_len dataset) mod world_size = 0 ->
  Permutation (fw_randperm 0 (dataset_len dataset)) (seq 0 (dataset_len dataset)) ->
  new_DistributedSampler dataset world_size rank1 = Ok s1 ->
  new_DistributedSampler dataset world_size rank2 = Ok s2 ->
  disjoint_shards (sampler_indices s1) (sampler_indices s2).
Proof.
  intros Hr1 Hr2 Hne Hdiv Hperm H1 H2.
  rewrite new_DistributedSampler_ok in H1, H2 by assumption.
  injection H1 as <-. injection H2 as <-.
  assert (Hexact : (ceil_div (dataset_len dataset) (Z.to_nat world_size)
                    * Z.to_nat world_size)%nat = dataset_len dataset).
  { apply ceil_div_exact; [lia|].
    apply Nat2Z.inj. rewrite Nat2Z.inj_mod, Z2Nat.id by lia. exact Hdiv. }
  apply evenly_divisible_shards_disjoint; simpl; try reflexivity;
    try assumption; try lia.
Qed.

(** C4 (as amended): when the sizes of both datasets are multiples of the
    world size (and the framework's generator yields permutations), the
    samplers [load_data] builds for two distinct ranks assign disjoint
    shards, of the training set and of the test set alike. *)
Theorem load_data_shards_disjoint (train_dir test_dir : string) (args : Namespace)
    (world_size rank1 rank2 : Z) (ip : InterpolationMode) (n_train n_test : nat) :
  InterpolationMode_of (interpolation args) = Ok ip ->
  fw_folder_size train_dir = Some n_train ->
  fw_folder_size test_dir = Some n_test ->
  0 <= rank1 < world_size ->
  0 <= rank2 < world_size ->
  rank1 <> rank2 ->
  (forall seed n, Permutation (fw_randperm seed n) (seq 0 n)) ->
  Z.of_nat n_train mod world_size = 0 ->
  Z.of_nat n_test mod world_size = 0 ->
  exists train_dataset test_dataset train1 test1 train2 test2,
    load_data train_dir test_dir args world_size rank1
    = Ok (train_dataset, test_dataset, train1, test1)
    /\ load_data train_dir test_dir args world_size rank2
       = Ok (train_dataset, test_dataset, train2, test2)
    /\ disjoint_shards (sampler_indices train1) (sampler_indices train2)
    /\ disjoint_shards (sampler_indices test1) (sampler_indices test2).
Proof.
  intros Hip Htrain Htest Hr1 Hr2 Hne Hperm Hdiv1 Hdiv2.
  unfold load_data, new_ImageFolder. rewrite Hip, Htrain, Htest. simpl.
  set (train_dataset := {| root := train_dir;
                           transform := train_transforms_of args ip;
                           dataset_len := n_train |}).
  set (test_dataset := {| root := test_dir;
                          transform := test_transforms_of args ip;
                          dataset_len := n_test |}).
  destruct (new_DistributedSampler train_dataset world_size rank1) as [tr1|e] eqn:E1;
    [|rewrite new_DistributedSampler_ok in E1 by assumption; discriminate].
  destruct (new_DistributedSampler test_dataset world_size rank1) as [te1|e] eqn:E2;
    [|rewrite new_DistributedSampler_ok in E2 by assumption; discriminate].
  destruct (new_DistributedSampler train_dataset world_size rank2) as [tr2|e] eqn:E3;
    [|rewrite new_DistributedSampler_ok in E3 by assumption; discriminate].
  destruct (new_DistributedSampler test_dataset world_size rank2) as [te2|e] eqn:E4;
    [|rewrite new_DistributedSampler_ok in E4 by assumption; discriminate].
  simpl. exists train_dataset, test_dataset, tr1, te1, tr2, te2.
  split; [reflexivity|]. split; [reflexivity|]. split.
  - apply (new_samplers_disjoint train_dataset world_size rank1 rank2);
      try assumption. apply Hperm.
  - apply (new_samplers_disjoint test_dataset world_size rank1 rank2);
      try assumption. apply Hperm.
Qed.

(** Whenever the dataset size is not a multiple of the number of
    replicas, the padding repeats the first index of the permutation, and
    the shards of rank 0 and of rank [n mod replicas] share it, whatever
    the permutation. *)
Lemma padded_shards_overlap (s0 sk : DistributedSampler) (x : nat) (rest : list nat) :
  sampler_dataset_len s0 = sampler_dataset_len sk ->
  sampler_seed s0 + sampler_epoch s0 = sampler_seed sk + sampler_epoch sk ->
  num_replicas s0 = num_replicas sk ->
  total_size s0 = total_size sk ->
  total_size s0
  = (ceil_div (sampler_dataset_len s0) (num_replicas s0) * num_replicas s0)%nat ->
  fw_randperm (sampler_seed s0 + sampler_epoch s0) (sampler_dataset_len s0)
  = x :: rest ->
  length (x :: rest) = sampler_dataset_len s0 ->
  (0 < num_replicas s0)%nat ->
  (sampler_dataset_len s0 mod num_replicas s0 <> 0)%nat ->
  rank s0 = 0%nat ->
  rank sk = (sampler_dataset_len s0 mod num_replicas s0)%nat ->
  In x (sampler_indices s0) /\ In x (sampler_indices sk) /\ rank s0 <> rank sk.
Proof.
  intros HN Hseed HR Ht Htotal Hperm Hlen Hpos Hmod Hr0 Hrk.
  set (N := sampler_dataset_len s0) in *.
  set (R := num_replicas s0) in *.
  assert (HR0 : R <> 0%nat) by lia.
  assert (Hgt : (N < total_size s0)%nat).
  { rewrite Htotal. unfold ceil_div.
    pose proof (Nat.div_mod_eq N R) as Hd.
    pose proof (Nat.mod_upper_bound N R HR0) as Hu.
    replace (N + (R - 1))%nat with ((N / R + 1) * R + (N mod R - 1))%nat by lia.
    rewrite Nat.div_add_l by exact HR0.
    rewrite (Nat.div_small (N mod R - 1) R) by lia.
    lia. }
  assert (Hpadded : exists extra,
             padded_indices s0 = (x :: rest) ++ x :: extra).
  { unfold padded_indices. fold N. rewrite Hperm, Hlen.
    destruct (total_size s0 - N)%nat as [|pad] eqn:Epad; [lia|].
    destruct (S pad <=? N)%nat.
    - simpl. eexists. reflexivity.
    - unfold ceil_div.
      destruct ((S pad + (N - 1)) / N)%nat as [|c] eqn:Ec.
      + exfalso. apply Nat.div_small_iff in Ec; simpl in Hlen; lia.
      + simpl. eexists. reflexivity. }
  destruct Hpadded as (extra & Hpadded).
  assert (Hsame : padded_indices sk = padded_indices s0).
  { unfold padded_indices. now rewrite <- Hseed, <- HN, <- Ht. }
  assert (H0 : nth_error (firstn (total_size s0) (padded_indices s0)) 0 = Some x).
  { rewrite Hpadded. destruct (total_size s0); [lia | reflexivity]. }
  assert (HNth : nth_error (firstn (total_size s0) (padded_indices s0)) N = Some x).
  { rewrite nth_error_firstn.
    replace (N <? total_size s0)%nat with true
      by (symmetry; apply Nat.ltb_lt; exact Hgt).
    rewrite Hpadded, nth_error_app2 by lia.
    rewrite Hlen, Nat.sub_diag. reflexivity. }
  split; [|split].
  - unfold sampler_indices. apply In_slice_step. exists 0%nat.
    rewrite Hr0. split; [exact H0|]. split; [lia|].
    apply Nat.Div0.mod_0_l.
  - unfold sampler_indices. rewrite Hsame, <- Ht, <- HR, Hrk.
    apply In_slice_step. exists N. split; [exact HNth|].
    split; [apply Nat.Div0.mod_le|].
    fold R. rewrite (Nat.div_mod_eq N R) at 1.
    replace (R * (N / R) + N mod R - N mod R)%nat with ((N / R) * R)%nat by lia.
    apply Nat.Div0.mod_mul.
  - rewrite Hr0, Hrk. fold N R. lia.
Qed.

End ShardTheorems.

Lemma toy_randperm_permutation (seed : Z) (n : nat) :
  Permutation (@fw_randperm ToyFramework seed n) (seq 0 n).
Proof. apply Permutation_refl. Qed.

Lemma load_data_shards_disjoint_witness :
  exists train_dataset test_dataset train1 test1 train2 test2,
    load_data "abcd" "ab" toy_args 2 0
    = Ok (train_dataset, test_dataset, train1, test1)
    /\ load_data "abcd" "ab" toy_args 2 1
       = Ok (train_dataset, test_dataset, train2, test2)
    /\ disjoint_shards (sampler_indices train1) (sampler_indices train2)
    /\ disjoint_shards (sampler_indices test1) (sampler_indices test2).
Proof.
  apply (load_data_shards_disjoint "abcd" "ab" toy_args 2 0 1 BILINEAR 4 2).
  - reflexivity.
  - reflexivity.
  - reflexivity.
  - lia.
  - lia.
  - lia.
  - exact toy_randperm_permutation.
  - reflexivity.
  - reflexivity.
Defined.

(** C4 (as stated) fails: on a training set of three images and two
    workers the sampler pads the index list [0; 1; 2] with index 0, and the
    shards [0; 2] of rank 0 and [1; 0] of rank 1 both contain index 0. *)
Lemma padded_shards_share_an_index :
  match load_data "abc" "abcd" toy_args 2 0, load_data "abc" "abcd" toy_args 2 1 with
  | Ok (_, _, train0, _), Ok (_, _, train1, _) =>
      sampler_indices train0 = [0; 2]%nat
      /\ sampler_indices train1 = [1; 0]%nat
      /\ ~ disjoint_shards (sampler_indices train0) (sampler_indices train1)
  | _, _ => False
  end.
Proof.
  cbn. split; [reflexivity|]. split; [reflexivity|].
  intros H. apply (H 0%nat); vm_compute; auto.
Qed.

(** ** When [load_data] returns, and what its samplers promise *)

Section LoadDataBehaviour.
Context {FW : Framework}.

Lemma new_DistributedSampler_raises (dataset : ImageFolder) (world_size rank : Z) :
  ~ 0 <= rank < world_size ->
  new_DistributedSampler dataset world_size rank = Raise ValueError.
Proof.
  intros Hrank. unfold new_DistributedSampler.
  replace ((world_size <=? rank) || (rank <? 0)) with true; [reflexivity|].
  symmetry. apply orb_true_iff.
  destruct (Z.ltb_spec rank 0); [now right | left; apply Z.leb_le; lia].
Qed.

(** X1: [load_data] returns exactly when the interpolation name is one of the
    enumeration's values, both directory trees hold images, and the rank
    lies in [0, world_size). *)
Theorem load_data_returns_iff (train_dir test_dir : string) (args : Namespace)
    (world_size rank : Z) :
  (exists r, load_data train_dir test_dir args world_size rank = Ok r)
  <-> (exists ip, InterpolationMode_of (interpolation args) = Ok ip)
      /\ fw_folder_size train_dir <> None
      /\ fw_folder_size test_dir <> None
      /\ 0 <= rank < world_size.
Proof.
  unfold load_data, new_ImageFolder. split.
  - intros [r Hr].
    destruct (InterpolationMode_of (interpolation args)) as [ip|e]; [|discriminate].
    destruct (fw_folder_size train_dir) as [n|]; [|discriminate].
    destruct (fw_folder_size test_dir) as [m|]; [|discriminate].
    simpl in Hr.
    destruct (Z_le_dec 0 rank) as [H0|H0], (Z_lt_dec rank world_size) as [H1|H1];
      try (rewrite new_DistributedSampler_raises in Hr by lia; discriminate).
    repeat split; eauto; congruence.
  - intros ([ip Hip] & Htrain & Htest & Hrank). rewrite Hip.
    destruct (fw_folder_size train_dir) as [n|]; [|congruence].
    destruct (fw_folder_size test_dir) as [m|]; [|congruence].
    simpl. rewrite !new_DistributedSampler_ok by assumption. simpl. eauto.
Qed.

(** X2: an out-of-range rank is reported as [ValueError], and only after both
    directory trees have been scanned: a missing tree is reported first. *)
Theorem load_data_bad_rank (train_dir test_dir : string) (args : Namespace)
    (world_size rank : Z) (ip : InterpolationMode) :
  InterpolationMode_of (interpolation args) = Ok ip ->
  ~ 0 <= rank < world_size ->
  load_data train_dir test_dir args world_size rank
  = match fw_folder_size train_dir, fw_folder_size test_dir with
    | Some _, Some _ => Raise ValueError
    | _, _ => Raise FileNotFoundError
    end.
Proof.
  intros Hip Hrank. unfold load_data, new_ImageFolder. rewrite Hip. simpl.
  destruct (fw_folder_size train_dir) as [n|]; [|reflexivity].
  destruct (fw_folder_size test_dir) as [m|]; [|reflexivity].
  simpl. now rewrite new_DistributedSampler_raises.
Qed.

Lemma ceil_div_bounds (n d : nat) :
  (0 < d)%nat -> (n <= ceil_div n d * d < n + d)%nat.
Proof.
  intros Hd. unfold ceil_div.
  pose proof (Nat.div_mod_eq (n + (d - 1)) d) as Hdm.
  pose proof (Nat.mod_upper_bound (n + (d - 1)) d ltac:(lia)) as Hu.
  nia.
Qed.

(** X3: the samplers [load_data] returns carry the world size and the rank they
    were given, start at epoch 0, and the length of each is the least
    number of examples per worker that covers its dataset: [len(sampler) *
    world_size] is at least the dataset size and exceeds it by less than
    [world_size]. *)
Theorem load_data_sampler_lengths (train_dir test_dir : string) (args : Namespace)
    (world_size r : Z) (ip : InterpolationMode) (n_train n_test : nat) :
  InterpolationMode_of (interpolation args) = Ok ip ->
  fw_folder_size train_dir = Some n_train ->
  fw_folder_size test_dir = Some n_test ->
  0 <= r < world_size ->
  exists train_dataset test_dataset train_sampler test_sampler,
    load_data train_dir test_dir args world_size r
    = Ok (train_dataset, test_dataset, train_sampler, test_sampler)
    /\ Z.of_nat (num_replicas train_sampler) = world_size
    /\ Z.of_nat (num_replicas test_sampler) = world_size
    /\ Z.of_nat (rank train_sampler) = r
    /\ Z.of_nat (rank test_sampler) = r
    /\ sampler_epoch train_sampler = 0
    /\ sampler_epoch test_sampler = 0
    /\ Z.of_nat n_train <= sampler_len train_sampler * world_size
       < Z.of_nat n_train + world_size
    /\ Z.of_nat n_test <= sampler_len test_sampler * world_size
       < Z.of_nat n_test + world_size.
Proof.
  intros Hip Htrain Htest Hr.
  unfold load_data, new_ImageFolder. rewrite Hip, Htrain, Htest. simpl.
  rewrite !new_DistributedSampler_ok by assumption. simpl.
  do 4 eexists. split; [reflexivity|]. unfold sampler_len. simpl.
  pose proof (ceil_div_bounds n_train (Z.to_nat world_size) ltac:(lia)) as Hb1.
  pose proof (ceil_div_bounds n_test (Z.to_nat world_size) ltac:(lia)) as Hb2.
  repeat split; try lia; try nia.
Qed.

End LoadDataBehaviour.

(** ** What a shard contains *)

Section ShardBehaviour.
Context {FW : Framework}.

Lemma combine_app_same {A B} (a1 a2 : list A) (b1 b2 : list B) :
  length a1 = length b1 ->
  combine (a1 ++ a2) (b1 ++ b2) = combine a1 b1 ++ combine a2 b2.
Proof.
  revert b1. induction a1 as [|x a1 IH]; intros [|y b1] H; simpl in *;
    try discriminate; [reflexivity|].
  f_equal. apply IH. lia.
Qed.

(** Among consecutive positions exactly one is a given position. *)
Lemma filter_position_length {A} (c : nat) (l : list A) :
  forall s, (s <= c < s + length l)%nat ->
    length (filter (fun p : nat * A => (fst p =? c)%nat)
              (combine (seq s (length l)) l)) = 1%nat.
Proof.
  induction l as [|x l IH]; intros s Hc; simpl in *; [lia|].
  destruct (Nat.eqb_spec s c) as [->|Hne]; simpl.
  - f_equal.
    rewrite filter_none; [reflexivity|].
    intros [p y] Hin. apply In_combine_seq in Hin. simpl.
    apply Nat.eqb_neq. lia.
  - apply IH. lia.
Qed.

(** A strided slice of [q] full blocks keeps one position per block. *)
Lemma stride_filter_length {A} (r R : nat) :
  (r < R)%nat ->
  forall (q m : nat) (l : list A),
    length l = (q * R)%nat ->
    length (filter (fun p : nat * A =>
                      (r <=? fst p)%nat && ((fst p - r) mod R =? 0)%nat)
              (combine (seq (m * R) (length l)) l)) = q.
Proof.
  intros HrR. induction q as [|q IH]; intros m l Hlen.
  - destruct l; [reflexivity | discriminate].
  - rewrite <- (firstn_skipn R l) at 2.
    assert (Hfirst : length (firstn R l) = R) by (rewrite length_firstn; simpl in Hlen; lia).
    assert (Hskip : length (skipn R l) = (q * R)%nat)
      by (rewrite length_skipn; simpl in Hlen; lia).
    replace (length l) with (R + length (skipn R l))%nat by (simpl in Hlen; lia).
    rewrite seq_app, combine_app_same by (rewrite length_seq; lia).
    rewrite filter_app, length_app.
    replace (m * R + R)%nat with (S m * R)%nat by lia.
    rewrite (IH (S m) (skipn R l) Hskip).
    replace (seq (m * R) R) with (seq (m * R) (length (firstn R l)))
      by (now rewrite Hfirst).
    rewrite (filter_ext_in _ (fun p : nat * A => (fst p =? m * R + r)%nat)).
    + rewrite filter_position_length by lia. lia.
    + intros [p y] Hin. apply In_combine_seq in Hin. destruct Hin as [Hle Hnth].
      assert (Hp : (p < m * R + R)%nat).
      { assert (p - m * R < length (firstn R l))%nat
          by (apply nth_error_Some; congruence).
        lia. }
      simpl. destruct (Nat.eqb_spec p (m * R + r)) as [->|Hne].
      * apply andb_true_iff. split; [apply Nat.leb_le; lia|].
        apply Nat.eqb_eq.
        replace (m * R + r - r)%nat with (m * R)%nat by lia.
        apply Nat.Div0.mod_mul.
      * apply andb_false_iff.
        destruct (Nat.leb_spec r p) as [Hrp|Hrp]; [right | now left].
        apply Nat.eqb_neq. intros Hmod.
        apply (rank_of_position r R p HrR Hrp) in Hmod.
        apply Hne.
        assert (Hpm : (p mod R = p - m * R)%nat).
        { replace p with ((p - m * R) + m * R)%nat at 1 by lia.
          rewrite Nat.Div0.mod_add. apply Nat.mod_small. lia. }
        lia.
Qed.

Lemma slice_step_length {A} (r R q : nat) (l : list A) :
  (r < R)%nat -> length l = (q * R)%nat -> length (slice_step r R l) = q.
Proof.
  intros HrR Hlen. unfold slice_step. rewrite length_map.
  apply (stride_filter_length r R HrR q 0 l Hlen).
Qed.

Lemma length_concat_repeat {A} (l : list A) (c : nat) :
  length (concat (repeat l c)) = (c * length l)%nat.
Proof.
  induction c as [|c IH]; simpl; [reflexivity|].
  rewrite length_app, IH. reflexivity.
Qed.

(** The padded index list has [total_size] entries and starts with the
    permutation of the epoch. *)
Lemma padded_indices_shape (s : DistributedSampler) :
  length (fw_randperm (sampler_seed s + sampler_epoch s) (sampler_dataset_len s))
  = sampler_dataset_len s ->
  (0 < num_replicas s)%nat ->
  total_size s
  = (ceil_div (sampler_dataset_len s) (num_replicas s) * num_replicas s)%nat ->
  length (padded_indices s) = total_size s
  /\ exists extra,
       padded_indices s
       = fw_randperm (sampler_seed s + sampler_epoch s) (sampler_dataset_len s)
         ++ extra.
Proof.
  intros Hlen HR Htotal.
  pose proof (ceil_div_bounds (sampler_dataset_len s) (num_replicas s) HR) as Hb.
  unfold padded_indices. cbv zeta. rewrite Hlen.
  destruct (Nat.leb_spec (total_size s - sampler_dataset_len s)
              (sampler_dataset_len s)) as [Hpad|Hpad].
  - split; [|eauto]. rewrite length_app, length_firstn, Hlen.
    rewrite Nat.min_l by lia. lia.
  - split; [|eauto].
    rewrite length_app, length_firstn, length_concat_repeat, Hlen.
    assert (Hpos : (0 < sampler_dataset_len s)%nat)
      by (destruct (ceil_div (sampler_dataset_len s) (num_replicas s)); lia).
    pose proof (ceil_div_bounds (total_size s - sampler_dataset_len s)
                  (sampler_dataset_len s) Hpos) as Hc.
    rewrite Nat.min_l by lia. lia.
Qed.

Lemma new_DistributedSampler_inv (dataset : ImageFolder) (world_size r : Z)
    (s : DistributedSampler) :
  new_DistributedSampler dataset world_size r = Ok s ->
  0 <= r < world_size
  /\ s = {| sampler_dataset_len := dataset_len dataset;
            num_replicas := Z.to_nat world_size;
            rank := Z.to_nat r;
            sampler_epoch := 0;
            sampler_seed := 0;
            num_samples := ceil_div (dataset_len dataset) (Z.to_nat world_size);
            total_size := (ceil_div (dataset_len dataset) (Z.to_nat world_size)
                           * Z.to_nat world_size)%nat |}.
Proof.
  intros H.
  destruct (Z_le_dec 0 r) as [H0|H0], (Z_lt_dec r world_size) as [H1|H1];
    try (rewrite new_DistributedSampler_raises in H by lia; discriminate).
  rewrite new_DistributedSampler_ok in H by lia.
  injection H as <-. split; [lia | reflexivity].
Qed.

(** X4: [len(sampler)] is the number of examples in the worker's partition: in
    every epoch the sampler of a rank yields exactly [len(sampler)] indices
    (repeated ones included). *)
Theorem sampler_yields_len_indices (dataset : ImageFolder) (world_size r epoch : Z)
    (s : DistributedSampler) :
  new_DistributedSampler dataset world_size r = Ok s ->
  (forall seed, length (fw_randperm seed (dataset_len dataset)) = dataset_len dataset) ->
  Z.of_nat (length (sampler_indices (sampler_set_epoch epoch s))) = sampler_len s.
Proof.
  intros Hnew Hperm.
  apply new_DistributedSampler_inv in Hnew. destruct Hnew as [Hr ->].
  unfold sampler_len. f_equal. cbn [num_samples].
  set (s' := sampler_set_epoch epoch _).
  destruct (padded_indices_shape s') as [Hlen _];
    [apply Hperm | simpl; lia | reflexivity |].
  unfold sampler_indices. rewrite firstn_all2 by lia.
  apply slice_step_length; [simpl; lia|].
  rewrite Hlen. reflexivity.
Qed.

(** X5: no example is left out: when the generator yields permutations, every
    index of the dataset is in the shard of some rank. *)
Theorem shards_cover_dataset (dataset : ImageFolder) (world_size : Z) (i : nat) :
  0 < world_size ->
  (i < dataset_len dataset)%nat ->
  Permutation (fw_randperm 0 (dataset_len dataset)) (seq 0 (dataset_len dataset)) ->
  exists r s,
    0 <= r < world_size
    /\ new_DistributedSampler dataset world_size r = Ok s
    /\ In i (sampler_indices s).
Proof.
  intros Hws Hi Hperm.
  assert (Hin : In i (fw_randperm 0 (dataset_len dataset))).
  { apply (Permutation_in _ (Permutation_sym Hperm)). apply in_seq. lia. }
  apply In_nth_error in Hin. destruct Hin as [p Hp].
  assert (Hlen : length (fw_randperm 0 (dataset_len dataset)) = dataset_len dataset)
    by (rewrite (Permutation_length Hperm); apply length_seq).
  assert (Hplt : (p < dataset_len dataset)%nat)
    by (rewrite <- Hlen; apply nth_error_Some; congruence).
  set (R := Z.to_nat world_size).
  assert (HR : (0 < R)%nat) by (unfold R; lia).
  pose proof (Nat.mod_upper_bound p R ltac:(lia)) as Hmod.
  assert (Hk : 0 <= Z.of_nat (p mod R) < world_size).
  { split; [apply Nat2Z.is_nonneg|].
    apply Z.lt_le_trans with (Z.of_nat R); [now apply Nat2Z.inj_lt|].
    unfold R. rewrite Z2Nat.id; lia. }
  exists (Z.of_nat (p mod R)). eexists.
  split; [exact Hk|].
  split; [now apply new_DistributedSampler_ok|].
  set (s := {| sampler_dataset_len := dataset_len dataset |}).
  destruct (padded_indices_shape s) as [Hpl (extra & Hpadded)];
    [exact Hlen | exact HR | reflexivity |].
  unfold sampler_indices. rewrite firstn_all2 by lia.
  apply In_slice_step. exists p. split; [|split].
  - rewrite Hpadded. simpl. rewrite nth_error_app1 by lia. exact Hp.
  - simpl. rewrite Nat2Z.id. apply Nat.Div0.mod_le.
  - simpl. rewrite Nat2Z.id. fold R.
    rewrite (Nat.div_mod_eq p R) at 1.
    replace (R * (p / R) + p mod R - p mod R)%nat with ((p / R) * R)%nat by lia.
    apply Nat.Div0.mod_mul.
Qed.

(** X6: when the dataset size is not a multiple of the world size, the shards
    of rank 0 and of rank [size mod world_size] share an index, whatever
    the generator yields: with the result on evenly divisible sizes, shards
    are pairwise disjoint exactly when the world size divides the size. *)
Theorem uneven_shards_overlap (dataset : ImageFolder) (world_size : Z) :
  0 < world_size ->
  Z.of_nat (dataset_len dataset) mod world_size <> 0 ->
  length (fw_randperm 0 (dataset_len dataset)) = dataset_len dataset ->
  exists s0 sk x,
    new_DistributedSampler dataset world_size 0 = Ok s0
    /\ new_DistributedSampler dataset world_size
         (Z.of_nat (dataset_len dataset) mod world_size) = Ok sk
    /\ In x (sampler_indices s0)
    /\ In x (sampler_indices sk).
Proof.
  intros Hws Hmod Hlen.
  pose proof (Z.mod_pos_bound (Z.of_nat (dataset_len dataset)) world_size Hws) as Hb.
  destruct (fw_randperm 0 (dataset_len dataset)) as [|x rest] eqn:Hperm.
  { simpl in Hlen. rewrite <- Hlen in Hmod. simpl in Hmod.
    rewrite Z.mod_0_l in Hmod by lia. congruence. }
  do 2 eexists. exists x.
  split; [apply new_DistributedSampler_ok; lia|].
  split; [apply new_DistributedSampler_ok; lia|].
  assert (Hnat : (dataset_len dataset mod Z.to_nat world_size)%nat
                 = Z.to_nat (Z.of_nat (dataset_len dataset) mod world_size)).
  { apply Nat2Z.inj. rewrite Nat2Z.inj_mod, !Z2Nat.id by lia. reflexivity. }
  match goal with
  | |- In x (sampler_indices ?a) /\ In x (sampler_indices ?b) =>
      destruct (padded_shards_overlap a b x rest) as (H0 & Hk & _);
        simpl; try reflexivity; try assumption; try lia; auto
  end.
Qed.

End ShardBehaviour.

Lemma toy_randperm_length (seed : Z) (n : nat) :
  length (@fw_randperm ToyFramework seed n) = n.
Proof. apply length_seq. Qed.

Lemma load_data_bad_rank_witness :
  load_data "train" "val" toy_args 2 2
  = match fw_folder_size "train", fw_folder_size "val" with
    | Some _, Some _ => Raise ValueError
    | _, _ => Raise FileNotFoundError
    end.
Proof.
  apply (load_data_bad_rank "train" "val" toy_args 2 2 BILINEAR).
  - reflexivity.
  - lia.
Defined.

Lemma load_data_sampler_lengths_witness :
  exists train_dataset test_dataset train_sampler test_sampler,
    load_data "train" "val" toy_args 2 1
    = Ok (train_dataset, test_dataset, train_sampler, test_sampler)
    /\ Z.of_nat (num_replicas train_sampler) = 2
    /\ Z.of_nat (num_replicas test_sampler) = 2
    /\ Z.of_nat (rank train_sampler) = 1
    /\ Z.of_nat (rank test_sampler) = 1
    /\ sampler_epoch train_sampler = 0
    /\ sampler_epoch test_sampler = 0
    /\ Z.of_nat 5 <= sampler_len train_sampler * 2 < Z.of_nat 5 + 2
    /\ Z.of_nat 3 <= sampler_len test_sampler * 2 < Z.of_nat 3 + 2.
Proof.
  apply (load_data_sampler_lengths "train" "val" toy_args 2 1 BILINEAR 5 3).
  - reflexivity.
  - reflexivity.
  - reflexivity.
  - lia.
Defined.

Lemma sampler_yields_len_indices_witness :
  Z.of_nat (length (sampler_indices
                      (sampler_set_epoch 3
                         {| sampler_dataset_len := 5; num_replicas := 2; rank := 1;
                            sampler_epoch := 0; sampler_seed := 0;
                            num_samples := 3; total_size := 6 |})))
  = 3.
Proof.
  apply (sampler_yields_len_indices
           {| root := "train"; transform := []; dataset_len := 5 |} 2 1 3).
  - reflexivity.
  - exact (fun seed => toy_randperm_length seed 5).
Defined.

Lemma shards_cover_dataset_witness :
  exists r s,
    0 <= r < 2
    /\ new_DistributedSampler
         {| root := "train"; transform := []; dataset_len := 5 |} 2 r = Ok s
    /\ In 4%nat (sampler_indices s).
Proof.
  apply (shards_cover_dataset
           {| root := "train"; transform := []; dataset_len := 5 |} 2 4).
  - lia.
  - simpl. lia.
  - apply toy_randperm_permutation.
Defined.

(** ** What the training procedures leave alone, and how they fail *)

Section TrainingBehaviour.
Context {FW : Framework}.
Local Open Scope proc_scope.

Lemma preserves_bind {X A B} (f : World -> X) (m : M A) (k : A -> M B) :
  preserves f m -> (forall a, preserves f (k a)) -> preserves f (bind m k).
Proof.
  intros Hm Hk w. unfold bind. specialize (Hm w).
  destruct (m w) as [[a|e] w1]; simpl in *; [rewrite Hk|]; assumption.
Qed.

Lemma preserves_with_context {X A} (f : World -> X) (enter leave : M unit)
    (body : M A) :
  preserves f enter -> preserves f leave -> preserves f body ->
  preserves f (with_context enter leave body).
Proof.
  intros He Hl Hb w. unfold with_context. specialize (He w).
  destruct (enter w) as [[[]|e] w1]; simpl in *; [|assumption].
  specialize (Hb w1). destruct (body w1) as [r w2]. simpl in Hb.
  specialize (Hl w2). destruct (leave w2) as [[[]|e] w3]; simpl in *; congruence.
Qed.

Lemma preserves_for_enumerate {X A} (f : World -> X) (body : Z -> A -> M unit)
    (l : list A) :
  (forall i x, preserves f (body i x)) ->
  forall i, preserves f (for_enumerate body i l).
Proof.
  intros Hbody. induction l as [|x l IH]; intros i; simpl.
  - intros w. reflexivity.
  - apply preserves_bind; [apply Hbody | intros _; apply IH].
Qed.

Ltac frame_step :=
  first
    [ apply preserves_bind; [|intros ?]
    | apply preserves_with_context
    | match goal with
      | |- preserves _ (if ?b then _ else _) => destruct b
      | |- preserves _ (match ?x with Some _ => _ | None => _ end) => destruct x
      | |- preserves _ (let (_, _) := ?x in _) => destruct x
      end
    | (intros ?; reflexivity) ].

Lemma preserves_truediv_float (a b : Scalar) : preserves loop_view (truediv_float a b).
Proof. intros w. unfold truediv_float. destruct (s_is_zero b); reflexivity. Qed.

Lemma preserves_truediv_int (a : Scalar) (n : Z) : preserves loop_view (truediv_int a n).
Proof. intros w. unfold truediv_int. destruct (n =? 0); reflexivity. Qed.

Lemma preserves_py_mod (a b : Z) : preserves loop_view (py_mod a b).
Proof. intros w. unfold py_mod. destruct (b =? 0); reflexivity. Qed.

Lemma preserves_mixed_precision_step (use_cuda : bool) (batch : Batch) :
  preserves loop_view (mixed_precision_step use_cuda batch).
Proof.
  unfold mixed_precision_step, time_perf_counter, to_cuda, optimizer_zero_grad,
    autocast, model_, criterion, scaler_scale_, backward_, optimizer_synchronize_,
    scaler_unscale, skip_synchronize, scaler_step_, scaler_update_.
  destruct batch as [data target]. repeat frame_step.
Qed.

Lemma preserves_full_precision_step (use_cuda : bool) (batch : Batch) :
  preserves loop_view (full_precision_step use_cuda batch).
Proof.
  unfold full_precision_step, time_perf_counter, to_cuda, optimizer_zero_grad,
    model_, criterion, backward_, optimizer_step_.
  destruct batch as [data target]. repeat frame_step.
Qed.

Lemma preserves_mixed_precision_batch (train_loader : list Batch)
    (epoch log_interval : Z) (use_cuda : bool) (wandb_run : option string)
    (i : Z) (batch : Batch) :
  preserves loop_view
    (mixed_precision_batch train_loader epoch log_interval use_cuda wandb_run i batch).
Proof.
  unfold mixed_precision_batch.
  apply preserves_bind; [apply preserves_mixed_precision_step|].
  intros [[step_start data] loss].
  apply preserves_bind.
  - destruct wandb_run; [|intros w; reflexivity].
    unfold time_perf_counter.
    repeat first [apply preserves_truediv_float | frame_step].
  - intros _. apply preserves_bind; [apply preserves_py_mod|]. intros m.
    destruct (m =? 0); [|intros w; reflexivity].
    unfold scaler_get_scale_.
    repeat first [apply preserves_truediv_int | frame_step].
Qed.

Lemma preserves_train_epoch_batch (train_loader : list Batch)
    (epoch log_interval : Z) (use_cuda : bool) (wandb_run : option string)
    (i : Z) (batch : Batch) :
  preserves loop_view
    (train_epoch_batch train_loader epoch log_interval use_cuda wandb_run i batch).
Proof.
  unfold train_epoch_batch.
  apply preserves_bind; [apply preserves_full_precision_step|].
  intros [[step_start data] loss].
  apply preserves_bind.
  - destruct wandb_run; [|intros w; reflexivity].
    unfold time_perf_counter.
    repeat first [apply preserves_truediv_float | frame_step].
  - intros _. apply preserves_bind; [apply preserves_py_mod|]. intros m.
    destruct (m =? 0); [|intros w; reflexivity].
    repeat first [apply preserves_truediv_int | frame_step].
Qed.

(** X7: whether they return or raise, both training procedures end with the
    model in training mode and the epoch recorded in the training sampler,
    whose other fields are as before, and leave the test sampler alone. *)
Theorem training_procedure_frame (mixed : bool) (train_loader : list Batch)
    (epoch log_interval : Z) (use_cuda : bool) (wandb_run : option string)
    (w : World) :
  let w' := snd (training_procedure mixed train_loader epoch log_interval use_cuda
                   wandb_run w) in
  w_mode w' = Training
  /\ w_train_sampler w' = sampler_set_epoch epoch (w_train_sampler w)
  /\ w_test_sampler w' = w_test_sampler w.
Proof.
  cbv zeta.
  set (w0 := set_train_sampler (sampler_set_epoch epoch (w_train_sampler w))
               (log_call (set_epoch epoch)
                  (set_mode Training (log_call model_train w)))).
  assert (Hview : forall body : Z -> Batch -> M unit,
             (forall i x, preserves loop_view (body i x)) ->
             loop_view (snd (for_enumerate body 0 train_loader w0))
             = (Training, sampler_set_epoch epoch (w_train_sampler w),
                w_test_sampler w)).
  { intros body Hbody.
    now rewrite (preserves_for_enumerate loop_view body train_loader Hbody 0 w0). }
  destruct mixed; simpl.
  - change (train_mixed_precision train_loader epoch log_interval use_cuda wandb_run w)
      with (for_enumerate
              (mixed_precision_batch train_loader epoch log_interval use_cuda wandb_run)
              0 train_loader w0).
    specialize (Hview _ (preserves_mixed_precision_batch train_loader epoch
                           log_interval use_cuda wandb_run)).
    unfold loop_view in Hview. injection Hview as H1 H2 H3. auto.
  - change (train_epoch train_loader epoch log_interval use_cuda wandb_run w)
      with (for_enumerate
              (train_epoch_batch train_loader epoch log_interval use_cuda wandb_run)
              0 train_loader w0).
    specialize (Hview _ (preserves_train_epoch_batch train_loader epoch
                           log_interval use_cuda wandb_run)).
    unfold loop_view in Hview. injection Hview as H1 H2 H3. auto.
Qed.

(** With [log_interval = 0] the first batch is trained on and logged to the
    dashboard, and the interval test then divides by zero. *)
Lemma batch_raises_on_zero_interval (mixed : bool) (train_loader : list Batch)
    (epoch : Z) (use_cuda : bool) (wandb_run : option string) (i : Z)
    (batch : Batch) (w : World) :
  timing_ok wandb_run ->
  exists w' o,
    (if mixed
     then mixed_precision_batch train_loader epoch 0 use_cuda wandb_run i batch
     else train_epoch_batch train_loader epoch 0 use_cuda wandb_run i batch) w
    = (Raise ZeroDivisionError, w')
    /\ w_trace w'
       = w_trace w
         ++ (if mixed then mixed_step_calls use_cuda (obs_start o)
             else full_step_calls use_cuda (obs_start o))
         ++ dashboard_calls mixed wandb_run epoch (len_loader train_loader) i
              (fst batch) o.
Proof.
  intros Htime. destruct batch as [data target].
  assert (Hstep : exists loss w1,
             emits ((if mixed then mixed_precision_step else full_precision_step)
                      use_cuda (data, target)) w
               (fw_perf_counter (w_clock w), data, loss)
               ((if mixed then mixed_step_calls else full_step_calls)
                  use_cuda (fw_perf_counter (w_clock w))) w1
             /\ w_clock w1 = S (w_clock w))
    by (destruct mixed;
        [apply mixed_precision_step_emits | apply full_precision_step_emits]).
  destruct Hstep as (loss & w1 & [Hstep Htr] & Hclock).
  pose (o := {| obs_start := fw_perf_counter (w_clock w);
                obs_end := fw_perf_counter (w_clock w1);
                obs_loss := loss_item loss;
                obs_rate := s_div (s_of_Z (len_data data))
                              (s_sub (fw_perf_counter (w_clock w1))
                                 (fw_perf_counter (w_clock w)));
                obs_scale := fw_get_scale (w_scaler w1);
                obs_sampler_len := sampler_len (w_train_sampler w1) |}).
  destruct mixed, wandb_run as [run|]; simpl in Htime;
    eexists; exists o;
    unfold mixed_precision_batch, train_epoch_batch, bind at 1; rewrite Hstep;
    unfold dashboard_calls, global_step; simpl;
    unfold bind, time_perf_counter, truediv_float, py_mod, call, gets, modify,
      ret, raise; simpl;
    rewrite ?Hclock, ?(Htime (w_clock w) (S (w_clock w))) by lia; simpl;
    (split; [reflexivity|]); simpl; rewrite Htr;
    destruct use_cuda; simpl; rewrite <- ?app_assoc, ?app_nil_r; reflexivity.
Qed.

(** X8: with [log_interval = 0] both training procedures raise
    [ZeroDivisionError] on a non-empty loader, after the training step and
    the dashboard record of the first batch and before any console line;
    the later batches are never reached.  On an empty loader they return. *)
Theorem zero_log_interval_raises (mixed : bool) (batch : Batch) (rest : list Batch)
    (epoch : Z) (use_cuda : bool) (wandb_run : option string) (w : World) :
  timing_ok wandb_run ->
  (exists w' o,
      training_procedure mixed (batch :: rest) epoch 0 use_cuda wandb_run w
      = (Raise ZeroDivisionError, w')
      /\ w_trace w'
         = w_trace w
           ++ [model_train; set_epoch epoch]
           ++ (if mixed then mixed_step_calls use_cuda (obs_start o)
               else full_step_calls use_cuda (obs_start o))
           ++ dashboard_calls mixed wandb_run epoch (len_loader (batch :: rest)) 0
                (fst batch) o)
  /\ exists w',
       training_procedure mixed [] epoch 0 use_cuda wandb_run w = (Ok tt, w')
       /\ w_trace w' = w_trace w ++ [model_train; set_epoch epoch].
Proof.
  intros Htime.
  set (w0 := set_train_sampler (sampler_set_epoch epoch (w_train_sampler w))
               (log_call (set_epoch epoch)
                  (set_mode Training (log_call model_train w)))).
  assert (Hw0 : w_trace w0 = w_trace w ++ [model_train; set_epoch epoch])
    by (simpl; now rewrite <- app_assoc).
  split.
  - destruct (batch_raises_on_zero_interval mixed (batch :: rest) epoch use_cuda
                wandb_run 0 batch w0 Htime) as (w' & o & Hrun & Htr).
    exists w', o. split.
    + destruct mixed.
      * change (training_procedure true (batch :: rest) epoch 0 use_cuda wandb_run w)
          with (bind (mixed_precision_batch (batch :: rest) epoch 0 use_cuda
                        wandb_run 0 batch)
                  (fun _ => for_enumerate
                              (mixed_precision_batch (batch :: rest) epoch 0
                                 use_cuda wandb_run) (0 + 1) rest) w0).
        unfold bind. now rewrite Hrun.
      * change (training_procedure false (batch :: rest) epoch 0 use_cuda wandb_run w)
          with (bind (train_epoch_batch (batch :: rest) epoch 0 use_cuda
                        wandb_run 0 batch)
                  (fun _ => for_enumerate
                              (train_epoch_batch (batch :: rest) epoch 0
                                 use_cuda wandb_run) (0 + 1) rest) w0).
        unfold bind. now rewrite Hrun.
    + now rewrite Htr, Hw0, <- app_assoc.
  - exists w0. split; [destruct mixed; reflexivity | exact Hw0].
Qed.

Lemma enumerate_app {A} (l l' : list A) :
  forall i, enumerate i (l ++ l')
            = enumerate i l ++ enumerate (i + Z.of_nat (length l)) l'.
Proof.
  induction l as [|x l IH]; intros i; simpl.
  - now rewrite Z.add_0_r.
  - rewrite IH. do 3 f_equal. lia.
Qed.

Lemma map_enumerate_shift {A B} (f : Z -> B) (l : list A) (d : Z) :
  forall i, map (fun ix : Z * A => f (d + fst ix)) (enumerate i l)
            = map (fun ix : Z * A => f (fst ix)) (enumerate (d + i) l).
Proof.
  induction l as [|x l IH]; intros i; simpl; [reflexivity|].
  rewrite IH. replace (d + (i + 1)) with (d + i + 1) by lia. reflexivity.
Qed.

(** X9: two consecutive epochs over loaders of the same length, by either
    procedure, log to the dashboard under consecutive global steps: the
    second epoch continues exactly where the first one stopped, so no step
    is used twice. *)
Theorem consecutive_epochs_log_consecutive_steps (mixed1 mixed2 : bool)
    (loader1 loader2 : list Batch) (epoch log_interval : Z)
    (use_cuda : bool) (run : string) (w : World) :
  log_interval <> 0 ->
  clock_advances ->
  length loader1 = length loader2 ->
  exists w1 w2 calls,
    training_procedure mixed1 loader1 epoch log_interval use_cuda (Some run) w
    = (Ok tt, w1)
    /\ training_procedure mixed2 loader2 (epoch + 1) log_interval use_cuda (Some run) w1
       = (Ok tt, w2)
    /\ w_trace w2 = w_trace w ++ calls
    /\ logged_steps calls
       = map (fun ix : Z * Batch =>
                Some ((epoch - 1) * len_loader loader1 + fst ix))
           (enumerate 0 (loader1 ++ loader2)).
Proof.
  intros Hli Htime Hlen.
  destruct (training_procedure_blocks mixed1 loader1 epoch log_interval use_cuda
              (Some run) w Hli Htime) as (w1 & b1 & [Hrun1 Htr1] & HF1).
  destruct (training_procedure_blocks mixed2 loader2 (epoch + 1) log_interval
              use_cuda (Some run) w1 Hli Htime) as (w2 & b2 & [Hrun2 Htr2] & HF2).
  exists w1, w2,
    (([model_train; set_epoch epoch] ++ concat b1)
     ++ [model_train; set_epoch (epoch + 1)] ++ concat b2).
  split; [exact Hrun1|]. split; [exact Hrun2|].
  split; [now rewrite Htr2, Htr1, <- app_assoc|].
  unfold logged_steps. rewrite flat_map_app.
  rewrite (project_epoch _
             (fun i _ => [Some (global_step epoch (len_loader loader1) i)])
             mixed1 use_cuda (Some run) epoch log_interval loader1 b1);
    try reflexivity; try assumption;
    [|intros i data o; apply (logged_steps_batch mixed1 use_cuda (Some run))].
  rewrite (project_epoch _
             (fun i _ => [Some (global_step (epoch + 1) (len_loader loader2) i)])
             mixed2 use_cuda (Some run) (epoch + 1) log_interval loader2 b2);
    try reflexivity; try assumption;
    [|intros i data o; apply (logged_steps_batch mixed2 use_cuda (Some run))].
  rewrite enumerate_app, map_app. simpl.
  rewrite !flat_map_singleton. f_equal.
  replace (Z.of_nat (length loader1)) with (Z.of_nat (length loader1) + 0) at 1
    by lia.
  rewrite <- (map_enumerate_shift (fun z => Some ((epoch - 1) * len_loader loader1 + z))
                loader2 (Z.of_nat (length loader1)) 0).
  apply map_ext. intros [i x]. unfold global_step, len_loader. simpl.
  rewrite <- Hlen. f_equal. lia.
Qed.

End TrainingBehaviour.

(** ** How [accuracy] fails, and what its counts obey *)

Section AccuracyBehaviour.
Context {F : Type} {SO : ScalarOps F}.

Lemma rmap_raises {A B} (f : A -> result B) (E : Exn) (l : list A) :
  (forall x e, In x l -> f x = Raise e -> e = E) ->
  (exists x, In x l /\ exists e, f x = Raise e) ->
  rmap f l = Raise E.
Proof.
  induction l as [|y l IH]; intros Hkind (x & Hin & e & Hx); [destruct Hin|].
  simpl. destruct (f y) as [b|e'] eqn:Ey; simpl.
  - rewrite IH; [reflexivity | intros z e0 Hz; apply Hkind; now right |].
    destruct Hin as [->|Hin]; [congruence | eauto].
  - f_equal. apply (Hkind y); [now left | exact Ey].
Qed.

Lemma In_indexed {A} (l : list A) (x : A) :
  In x l -> exists i, In (i, x) (indexed l).
Proof.
  intros Hin. apply In_nth_error in Hin. destruct Hin as (i & Hi).
  exists i. apply In_combine_seq. rewrite Nat.sub_0_r. split; [lia | exact Hi].
Qed.

(** A row of fewer than five scores stops the selection of the five best
    classes. *)
Lemma topk_five_raises (output : list (list F)) (row : list F) :
  In row output ->
  (length row < 5)%nat ->
  topk_indices 5 output = Raise RuntimeError.
Proof.
  intros Hin Hshort.
  rewrite topk_indices_rows by (intros ->; destruct Hin).
  apply rmap_raises.
  - intros x e _. unfold topk_row.
    destruct ((5 <? 0) || (Z.of_nat (length (snd x)) <? 5)); [|discriminate].
    now intros [= <-].
  - destruct (In_indexed output row Hin) as (i & Hi).
    exists (i, row). split; [exact Hi|]. exists RuntimeError.
    unfold topk_row. simpl.
    replace (Z.of_nat (length row) <? 5) with true
      by (symmetry; apply Z.ltb_lt; lia).
    reflexivity.
Qed.

(** With the default [topk=(1, 5)] a row of fewer than five scores stops
    [accuracy]: at the selection of the five best classes, unless the
    reduction of a two-dimensional target has failed before. *)
Lemma default_topk_raises_on_short_row (output : list (list F))
    (target : @Target F) (row : list F) :
  In row output ->
  (length row < 5)%nat ->
  target <> Target2 [] ->
  accuracy output target default_topk
  = Raise (if has_empty_row target then IndexError else RuntimeError).
Proof.
  intros Hin Hshort _. unfold accuracy.
  change (py_max default_topk) with (@Ok Z 5). cbn [rbind].
  destruct target as [labels|m]; cbn [rbind has_empty_row].
  - now rewrite (topk_five_raises output row Hin Hshort).
  - pose proof (max_dim1_indices_cases m) as Hm. cbn [has_empty_row] in Hm.
    destruct (existsb (fun row => (length row =? 0)%nat) m).
    + now rewrite Hm.
    + destruct Hm as (labels & ->). cbn [rbind].
      now rewrite (topk_five_raises output row Hin Hshort).
Qed.

(** X10: with the default [topk=(1, 5)], [accuracy] raises as soon as one
    example has fewer than five class scores: [IndexError] when the target
    is two-dimensional and has a row without entries, which stops the
    reduction of the target before the five best classes are selected,
    and [RuntimeError] for every other target (a two-dimensional target
    without rows set aside). *)
Theorem accuracy_needs_five_classes (output : list (list F)) (target : @Target F)
    (row : list F) :
  In row output ->
  (length row < 5)%nat ->
  target <> Target2 [] ->
  accuracy output target default_topk
  = Raise (if has_empty_row target then IndexError else RuntimeError).
Proof. apply default_topk_raises_on_short_row. Qed.

(** X11: whenever [accuracy] returns, it returns one value for every entry of
    [topk], in the same order; so the two-variable unpacking of its default
    result in [test] cannot fail. *)
Theorem accuracy_returns_one_value_per_k (output : list (list F))
    (target : @Target F) (topk : list Z) (res : list F) :
  accuracy output target topk = Ok res ->
  length res = length topk.
Proof.
  unfold accuracy.
  destruct (py_max topk) as [maxk|e]; [|discriminate]. cbn [rbind].
  destruct (match target with
            | Target1 l => Ok l
            | Target2 m => max_dim1_indices m
            end) as [labels|e]; [|discriminate]. cbn [rbind].
  destruct (topk_indices maxk output) as [pred|e]; [|discriminate]. cbn [rbind].
  destruct (eq_broadcast _ _ labels) as [correct|e]; [|discriminate]. cbn [rbind].
  apply rmap_length.
Qed.

(** X12: [accuracy] raises [RuntimeError] when the batch sizes of the output and
    of the target differ and neither is 1, so that they cannot be
    broadcast. *)
Theorem accuracy_shape_mismatch (output : list (list F)) (labels : list nat)
    (topk : list Z) :
  topk <> [] ->
  Forall (fun k => 0 <= k) topk ->
  Forall (fun row => Forall (fun k => k <= Z.of_nat (length row)) topk) output ->
  length output <> length labels ->
  length labels <> 1%nat ->
  length output <> 1%nat ->
  accuracy output (Target1 labels) topk = Raise RuntimeError.
Proof.
  intros Hne Hpos Hrows Hlen Hl1 Ho1.
  destruct (py_max_spec topk Hne) as (maxk & Hmax & Hin & Hle).
  unfold accuracy. rewrite Hmax. simpl.
  assert (Hshape : forall pred,
             (let? correct := eq_broadcast (length output) pred labels in
              rmap (fun k =>
                      if (length labels =? 0)%nat then Raise ZeroDivisionError
                      else Ok (s_mul (s_of_Z (Z.of_nat (count_true (slice_to k correct))))
                                 (s_div (s_of_Z 100)
                                    (s_of_Z (Z.of_nat (length labels))))))
                topk)%result
             = Raise RuntimeError).
  { intros pred. unfold eq_broadcast.
    apply Nat.eqb_neq in Hlen, Hl1, Ho1. now rewrite Hlen, Hl1, Ho1. }
  destruct output as [|row output].
  - unfold topk_indices.
    destruct ((maxk <? 0) || (Z.of_nat s_empty_classes <? maxk)); [reflexivity|].
    apply Hshape.
  - rewrite topk_indices_ok.
    + apply Hshape.
    + discriminate.
    + rewrite Forall_forall in Hpos. now apply Hpos.
    + eapply Forall_impl; [|exact Hrows]. intros r Hr.
      rewrite Forall_forall in Hr. now apply Hr.
Qed.

Lemma filter_length_le {A} (f g : A -> bool) (l : list A) :
  (forall x, f x = true -> g x = true) ->
  (length (filter f l) <= length (filter g l) <= length l)%nat.
Proof.
  intros Himp. induction l as [|x l IH]; simpl; [lia|].
  destruct (f x) eqn:Ef.
  - rewrite (Himp x Ef). simpl. lia.
  - destruct (g x); simpl; lia.
Qed.

Lemma In_firstn_le {A} (l : list A) (x : A) :
  forall n m, (n <= m)%nat -> In x (firstn n l) -> In x (firstn m l).
Proof.
  induction l as [|y l IH]; intros [|n] [|m] Hnm; simpl; try tauto; try lia.
  intros [->|Hin]; [now left | right; apply (IH n m); [lia | exact Hin]].
Qed.

(** The number of hits grows with [k] and never exceeds the batch size. *)
Lemma hits_monotone (maxk k k' : Z) (output : list (list F)) (labels : list nat) :
  k <= k' ->
  (hits maxk k output labels <= hits maxk k' output labels <= length labels)%nat.
Proof.
  intros Hk. unfold hits.
  pose proof (filter_length_le
                (fun p : nat * list F * nat =>
                   label_in_top (s_tie_before maxk output (fst (fst p))) k
                     (snd (fst p)) (snd p))
                (fun p : nat * list F * nat =>
                   label_in_top (s_tie_before maxk output (fst (fst p))) k'
                     (snd (fst p)) (snd p))
                (combine (indexed output) labels)) as H.
  rewrite length_combine in H.
  assert (Himp : forall p : nat * list F * nat,
             label_in_top (s_tie_before maxk output (fst (fst p))) k
               (snd (fst p)) (snd p) = true ->
             label_in_top (s_tie_before maxk output (fst (fst p))) k'
               (snd (fst p)) (snd p) = true).
  { intros [[i row] l]. unfold label_in_top, top_classes. simpl. intros Hin.
    apply existsb_exists in Hin. destruct Hin as (c & Hc & Hcl).
    apply existsb_exists. exists c. split; [|exact Hcl].
    apply (In_firstn_le _ _ (Z.to_nat k) (Z.to_nat k')); [lia | exact Hc]. }
  specialize (H Himp). lia.
Qed.

(** X13: on a well-shaped batch with at least five classes, the two values
    [accuracy] returns by default are the percentages of two counts, and
    the top-1 count is at most the top-5 count, which is at most the batch
    size. *)
Theorem accuracy_top1_at_most_top5 (output : list (list F)) (labels : list nat) :
  Forall (fun row => (5 <= length row)%nat) output ->
  length output = length labels ->
  labels <> [] ->
  exists c1 c5 : nat,
    accuracy output (Target1 labels) default_topk
    = Ok [percentage c1 (length labels); percentage c5 (length labels)]
    /\ (c1 <= c5 <= length labels)%nat.
Proof.
  intros Hrows Hlen Hne.
  exists (hits 5 1 output labels), (hits 5 5 output labels).
  split; [|apply hits_monotone; lia].
  unfold accuracy.
  change (py_max default_topk) with (@Ok Z 5). cbn [rbind].
  rewrite topk_indices_ok;
    [|destruct output, labels; simpl in *; congruence
     |lia|eapply Forall_impl; [|exact Hrows]; simpl; intros; lia].
  cbn [rbind]. unfold eq_broadcast. rewrite Hlen, Nat.eqb_refl.
  cbn [orb rbind]. unfold default_topk. cbn [rmap rbind target_size0].
  destruct (length labels =? 0)%nat eqn:E;
    [apply Nat.eqb_eq in E; destruct labels; [congruence | discriminate]|].
  unfold percentage.
  rewrite !correct_k_counts_hits; try reflexivity; try assumption; try lia;
    eapply Forall_impl; try exact Hrows; simpl; intros; lia.
Qed.

End AccuracyBehaviour.

(** ** One-hot targets *)

Section OneHotTargets.
Context {FW : Framework}.
Hypothesis zero_le_zero : s_leb (s_of_Z 0) (s_of_Z 0) = true.
Hypothesis zero_le_one : s_leb (s_of_Z 0) (s_of_Z 1) = true.
Hypothesis one_not_le_zero : s_leb (s_of_Z 1) (s_of_Z 0) = false.

(** Once the hot entry is the best so far, the zeros after it never
    replace it. *)
Lemma argmax_from_found (label : nat) :
  forall (n i : nat),
    (label < i)%nat ->
    argmax_from label (s_of_Z 1) i
      (map (fun c => if Nat.eqb c label then s_of_Z 1 else s_of_Z 0) (seq i n))
    = label.
Proof.
  induction n as [|n IH]; intros i Hi; simpl; [reflexivity|].
  replace (i =? label)%nat with false by (symmetry; apply Nat.eqb_neq; lia).
  rewrite zero_le_one. apply IH. lia.
Qed.

(** While only zeros have been seen, the scan keeps the first of them and
    moves to the hot entry when it meets it. *)
Lemma argmax_from_searching (label : nat) :
  forall (n i best : nat),
    (i <= label < i + n)%nat ->
    argmax_from best (s_of_Z 0) i
      (map (fun c => if Nat.eqb c label then s_of_Z 1 else s_of_Z 0) (seq i n))
    = label.
Proof.
  induction n as [|n IH]; intros i best Hi; simpl; [lia|].
  destruct (Nat.eqb_spec i label) as [->|Hne].
  - rewrite one_not_le_zero. apply argmax_from_found. lia.
  - rewrite zero_le_zero. apply IH. lia.
Qed.

(** Decoding a one-hot row gives back the class index. *)
Lemma argmax_one_hot (classes label : nat) :
  (label < classes)%nat -> argmax (one_hot classes label) = Ok label.
Proof.
  intros Hl. unfold one_hot. destruct classes as [|n]; [lia|]. simpl. f_equal.
  destruct label as [|l]; simpl.
  - apply (argmax_from_found 0 n 1). lia.
  - apply (argmax_from_searching (S l) n 1 0). lia.
Qed.

(** X14: for scalars on which 0 is below 1, [accuracy] on one-hot encoded
    targets is [accuracy] on the class indices they encode. *)
Theorem accuracy_one_hot_target (output : list (list Scalar)) (classes : nat)
    (labels : list nat) (topk : list Z) :
  Forall (fun label => (label < classes)%nat) labels ->
  accuracy output (Target2 (map (one_hot classes) labels)) topk
  = accuracy output (Target1 labels) topk.
Proof.
  intros Hlabels. unfold accuracy.
  destruct (py_max topk) as [maxk|e]; [|reflexivity]. cbn [rbind].
  unfold max_dim1_indices.
  assert (Hdecode : rmap argmax (map (one_hot classes) labels) = Ok labels).
  { induction Hlabels as [|l ls Hl _ IH]; simpl; [reflexivity|].
    rewrite (argmax_one_hot classes l Hl). simpl. now rewrite IH. }
  rewrite Hdecode. cbn [rbind target_size0]. now rewrite length_map.
Qed.

End OneHotTargets.

Lemma accuracy_needs_five_classes_witness :
  accuracy (F := Q) [[1 # 2; 1 # 3]] (Target1 [0%nat]) default_topk
  = Raise (if has_empty_row (F := Q) (Target1 [0%nat]) then IndexError
           else RuntimeError).
Proof.
  apply (accuracy_needs_five_classes [[1 # 2; 1 # 3]] (Target1 [0%nat])
           [1 # 2; 1 # 3]).
  - now left.
  - simpl. lia.
  - discriminate.
Defined.

(** The two ways in which two class scores are too few for the default
    [topk]. *)
Example accuracy_on_two_classes :
  accuracy (F := Q) [[1 # 2; 1 # 3]] (Target1 [0%nat]) default_topk
  = Raise RuntimeError
  /\ accuracy (F := Q) [[1 # 2; 1 # 3]] (Target2 [[1 # 2; 1 # 2]]) default_topk
     = Raise RuntimeError
  /\ accuracy (F := Q) [[1 # 2; 1 # 3]] (Target2 [[]]) default_topk
     = Raise IndexError.
Proof. repeat split; reflexivity. Qed.

Lemma accuracy_shape_mismatch_witness :
  accuracy (F := Q) [[1 # 2; 1 # 3]; [1 # 4; 1 # 5]] (Target1 [0; 1; 1]%nat) [1; 2]
  = Raise RuntimeError.
Proof.
  apply (accuracy_shape_mismatch [[1 # 2; 1 # 3]; [1 # 4; 1 # 5]]
           [0; 1; 1]%nat [1; 2]).
  - discriminate.
  - repeat constructor; lia.
  - repeat constructor; simpl; lia.
  - simpl. lia.
  - simpl. lia.
  - simpl. lia.
Defined.

Lemma accuracy_top1_at_most_top5_witness :
  exists c1 c5 : nat,
    accuracy (map (toy_scores 3) [1; 2]) (Target1 [2; 3]%nat) default_topk
    = Ok [percentage c1 2; percentage c5 2]
    /\ (c1 <= c5 <= 2)%nat.
Proof.
  apply (accuracy_top1_at_most_top5 (map (toy_scores 3) [1; 2]) [2; 3]%nat).
  - repeat constructor; simpl; lia.
  - reflexivity.
  - discriminate.
Defined.

Lemma accuracy_one_hot_target_witness :
  accuracy (map (toy_scores 3) [1; 2])
    (Target2 (map (@one_hot ToyFramework 6) [2; 3]%nat)) default_topk
  = accuracy (map (toy_scores 3) [1; 2]) (Target1 [2; 3]%nat) default_topk.
Proof.
  apply (@accuracy_one_hot_target ToyFramework).
  - reflexivity.
  - reflexivity.
  - reflexivity.
  - repeat constructor; lia.
Defined.

(** ** How [test] fails *)

Section TestBehaviour.
Context {FW : Framework}.

(** X15: on an empty shard [test] evaluates every batch of the loader, leaves
    inference mode, and then raises [ZeroDivisionError] at the first
    average: nothing reaches the dashboard or the console. *)
Theorem test_empty_shard_raises (test_loader : list Batch) (use_cuda : bool)
    (epoch : Z) (wandb_run : option string) (w : World)
    (accs : list (Scalar * Scalar)) :
  sampler_len (w_test_sampler w) = 0 ->
  Forall2
    (fun (batch : Batch) a =>
       accuracy (eval_output w (fst batch)) (snd batch) default_topk
       = Ok [fst a; snd a])
    test_loader accs ->
  exists w',
    test test_loader use_cuda epoch wandb_run w = (Raise ZeroDivisionError, w')
    /\ w_trace w'
       = w_trace w
         ++ [model_eval; inference_mode_enter]
         ++ flat_map (fun _ : Batch => test_batch_calls use_cuda) test_loader
         ++ [inference_mode_exit].
Proof.
  intros Hn Haccs.
  set (w2 := set_inference true
               (log_call inference_mode_enter
                  (set_mode Evaluation (log_call model_eval w)))).
  destruct (for_each_test_emits use_cuda (w_autocast w) Evaluation (w_params w)
              test_loader accs Haccs (s_of_Z 0) (s_of_Z 0) (s_of_Z 0) w2
              eq_refl eq_refl eq_refl) as (w3 & Hrun & Htr).
  destruct (for_each_test_frame use_cuda test_loader
              (s_of_Z 0, s_of_Z 0, s_of_Z 0) w2)
    as ((_ & _ & _ & _ & _ & Hsampler & _) & _).
  rewrite Hrun in Hsampler. simpl in Hsampler.
  apply Z.eqb_eq in Hn.
  unfold test, bind at 1, model_eval_, bind at 1, call, modify at 1 2.
  unfold bind at 1, inference_mode, with_context, bind at 1 2, call, modify.
  fold w2. rewrite Hrun.
  unfold bind, gets, truediv_int, call, modify, ret, raise.
  cbn [w_test_sampler set_inference log_call].
  rewrite Hsampler, Hn.
  eexists. split; [reflexivity|].
  cbn [w_trace set_inference log_call]. rewrite Htr.
  cbn [w_trace set_inference set_mode log_call w2].
  rewrite <- !app_assoc. reflexivity.
Qed.


End TestBehaviour.

Lemma test_empty_shard_raises_witness :
  let w := {| w_mode := Training; w_params := 3; w_grads := 0; w_opt := 0%nat;
              w_scaler := 65536%Q;
              w_train_sampler := toy_sampler 5; w_test_sampler := toy_sampler 0;
              w_autocast := false; w_inference := false;
              w_clock := 0; w_trace := [] |} in
  exists w',
    test toy_loader true 1 None w = (Raise ZeroDivisionError, w')
    /\ w_trace w'
       = w_trace w
         ++ [model_eval; inference_mode_enter]
         ++ flat_map (fun _ : Batch => test_batch_calls true) toy_loader
         ++ [inference_mode_exit].
Proof.
  intros w.
  apply (test_empty_shard_raises toy_loader true 1 None w
           [((100 # 2)%Q, (200 # 2)%Q); ((100 # 3)%Q, (200 # 3)%Q)]).
  - reflexivity.
  - repeat constructor.
Defined.


Lemma zero_log_interval_raises_witness :
  (exists w' o,
      training_procedure true (toy_batch :: []) 1 0 true (Some "run"%string) toy_world
      = (Raise ZeroDivisionError, w')
      /\ w_trace w'
         = w_trace toy_world
           ++ [model_train; set_epoch 1]
           ++ mixed_step_calls true (obs_start o)
           ++ dashboard_calls true (Some "run"%string) 1
                (len_loader (toy_batch :: [])) 0 (fst toy_batch) o)
  /\ exists w',
       training_procedure true [] 1 0 true (Some "run"%string) toy_world = (Ok tt, w')
       /\ w_trace w' = w_trace toy_world ++ [model_train; set_epoch 1].
Proof.
  apply (zero_log_interval_raises true toy_batch [] 1 true (Some "run"%string)
           toy_world).
  exact toy_clock_advances.
Defined.

Lemma consecutive_epochs_log_consecutive_steps_witness :
  exists w1 w2 calls,
    training_procedure true toy_loader 1 2 false (Some "run"%string) toy_world
    = (Ok tt, w1)
    /\ training_procedure false toy_loader (1 + 1) 2 false (Some "run"%string) w1
       = (Ok tt, w2)
    /\ w_trace w2 = w_trace toy_world ++ calls
    /\ logged_steps calls
       = map (fun ix : Z * Batch => Some ((1 - 1) * len_loader toy_loader + fst ix))
           (enumerate 0 (toy_loader ++ toy_loader)).
Proof.
  apply (consecutive_epochs_log_consecutive_steps true false toy_loader toy_loader
           1 2 false "run"%string toy_world).
  - lia.
  - exact toy_clock_advances.
  - reflexivity.
Defined.

(** Two epochs over the small loader log the steps 0, 1, 2 and 3. *)
Example steps_of_two_toy_epochs :
  let w1 := snd (train_mixed_precision toy_loader 1 2 false (Some "run"%string)
                   toy_world) in
  logged_steps (w_trace (snd (train_epoch toy_loader 2 2 false (Some "run"%string) w1)))
  = [Some 0; Some 1; Some 2; Some 3].
Proof. vm_compute. reflexivity. Qed.

Lemma uneven_shards_overlap_witness :
  exists s0 sk x,
    new_DistributedSampler {| root := "abc"; transform := []; dataset_len := 3 |} 2 0
    = Ok s0
    /\ new_DistributedSampler {| root := "abc"; transform := []; dataset_len := 3 |} 2
         (Z.of_nat 3 mod 2) = Ok sk
    /\ In x (sampler_indices s0)
    /\ In x (sampler_indices sk).
Proof.
  apply (uneven_shards_overlap {| root := "abc"; transform := []; dataset_len := 3 |} 2).
  - lia.
  - discriminate.
  - reflexivity.
Defined.

Lemma accuracy_returns_one_value_per_k_witness :
  length [(100 # 2)%Q; (200 # 2)%Q] = length default_topk.
Proof.
  apply (accuracy_returns_one_value_per_k (map (toy_scores 3) [1; 2])
           (Target1 [2; 3]%nat) default_topk [(100 # 2)%Q; (200 # 2)%Q]).
  reflexivity.
Defined.

(** ** A target of a single label *)

Section SingleLabelTarget.
Context {F : Type} {SO : ScalarOps F}.
Hypothesis leb_total : forall x y : F, s_leb x y = true \/ s_leb y x = true.
Hypothesis leb_trans : forall x y z : F,
    s_leb x y = true -> s_leb y z = true -> s_leb x z = true.

Lemma eq_row_single_label (row : list nat) (l : nat) :
  eq_row row [l] = eq_row row (repeat l (length row)).
Proof.
  rewrite (eq_row_same_length row (repeat l (length row)))
    by (now rewrite repeat_length).
  assert (Hmap : map (fun p => Nat.eqb p l) row
                 = map (fun p : nat * nat => Nat.eqb (fst p) (snd p))
                     (combine row (repeat l (length row)))).
  { induction row as [|p row IH]; simpl; [reflexivity | now rewrite IH]. }
  unfold eq_row.
  destruct (Nat.eqb_spec (length row) (length [l])) as [E|E].
  - destruct row as [|p [|q row]]; try discriminate. reflexivity.
  - exact Hmap.
Qed.

(** X17: a one-element target is accepted when the batch is larger: its
    label is compared with the predictions of every example, while the
    count is still divided by the target's size 1, so that the result is
    the percentage "out of one" of the examples that have the label among
    their [k] highest-scored classes; an example for which other classes
    share the label's score is counted as the library orders the equal
    scores. *)
Theorem accuracy_single_label_broadcast (output : list (list F)) (l : nat)
    (topk : list Z) :
  output <> [] ->
  topk <> [] ->
  Forall (fun k => 0 <= k) topk ->
  Forall (fun row => Forall (fun k => k <= Z.of_nat (length row)) topk) output ->
  exists counts : list nat,
    accuracy output (Target1 [l]) topk
    = Ok (map (fun c => percentage c 1) counts)
    /\ Forall2
         (fun k c =>
            (surely_hits k output (repeat l (length output)) <= c
             <= possibly_hits k output (repeat l (length output)))%nat)
         topk counts.
Proof.
  intros Hout Hne Hpos Hrows.
  destruct (py_max_spec topk Hne) as (maxk & Hmax & Hin & Hle).
  assert (H0 : 0 <= maxk) by (rewrite Forall_forall in Hpos; now apply Hpos).
  assert (Hrows' : Forall (fun row => maxk <= Z.of_nat (length row)) output).
  { eapply Forall_impl; [|exact Hrows]. intros row Hrow.
    rewrite Forall_forall in Hrow. now apply Hrow. }
  exists (map (fun k => hits maxk k output (repeat l (length output))) topk).
  split.
  - unfold accuracy. rewrite Hmax. cbn [rbind target_size0].
    rewrite topk_indices_ok by assumption. cbn [rbind].
    unfold eq_broadcast. cbn [length]. rewrite Nat.eqb_refl, orb_true_r.
    cbn [orb rbind]. rewrite map_map.
    rewrite (map_ext_in _ (fun row => eq_row row (repeat l (length output)))).
    + apply rmap_ok. intros k Hk. cbn [Nat.eqb]. unfold percentage.
      rewrite correct_k_counts_hits; [reflexivity | | |].
      * rewrite Forall_forall in Hpos, Hle. split; [now apply Hpos | now apply Hle].
      * eapply Forall_impl; [|exact Hrows]. intros row Hrow.
        rewrite Forall_forall in Hrow. now apply Hrow.
      * now rewrite repeat_length.
    + intros row Hrow. rewrite eq_row_single_label. f_equal. f_equal.
      pose proof (transpose_rows (Z.to_nat maxk) (selected maxk maxk output)) as Hr.
      rewrite Forall_forall in Hr. rewrite (Hr row Hrow). apply selected_length.
  - clear Hne Hmax Hin Hle Hrows' H0.
    induction topk as [|k topk IH]; simpl; constructor.
    + apply hits_between; [assumption | assumption |].
      inversion Hpos; subst.
      eapply Forall_impl; [|exact Hrows]. intros row Hrow.
      now inversion Hrow.
    + inversion Hpos; subst. apply IH; [assumption|].
      eapply Forall_impl; [|exact Hrows]. intros row Hrow.
      now inversion Hrow.
Qed.

End SingleLabelTarget.

Lemma accuracy_single_label_broadcast_witness :
  let output := map (toy_scores 3) [1; 2; 4] in
  exists counts : list nat,
    accuracy output (Target1 [2%nat]) [1; 5]
    = Ok (map (fun c => percentage c 1) counts)
    /\ Forall2
         (fun k c =>
            (surely_hits k output (repeat 2 (length output)) <= c
             <= possibly_hits k output (repeat 2 (length output)))%nat)
         [1; 5] counts.
Proof.
  intros output.
  apply (accuracy_single_label_broadcast Q_leb_total Q_leb_trans output 2%nat [1; 5]).
  - discriminate.
  - discriminate.
  - repeat constructor; lia.
  - repeat constructor; simpl; lia.
Defined.

(** Three examples against the single label 2: one has it as best class and
    all three among their five best, which [accuracy] reports as 100 and
    300 percent. *)
Example single_label_over_three_examples :
  accuracy (map (toy_scores 3) [1; 2; 4]) (Target1 [2%nat]) [1; 5]
  = Ok [(100 # 1)%Q; (300 # 1)%Q].
Proof. vm_compute. reflexivity. Qed.
